(** * Derived metrics and timeline layout of the construction order chart

    A shallow embedding of the computational core of [app.py] and
    [gantt_chart.py]: date arithmetic, proration of amounts over fiscal
    months, expected progress and risk classification, the enrichment of
    project rows, the axis marks of the two timeline charts and the
    contrast colour of bar labels.

    Conventions of the embedding.
    - A calendar date ([datetime.date], or a [pandas.Timestamp] at midnight)
      is its proleptic Gregorian ordinal, an integer of type [Z], as returned
      by [date.toordinal()]; a difference [(a - b).days] is a subtraction.
      The calendar is not bounded to the years the libraries accept.
    - A missing date ([None], [NaT], an unparseable cell) is [None].
    - The amounts of the tables are exact rationals of type [Q] (reals of
      type [R] for the luminance, which needs a real power): the
      arithmetic of [float] without its rounding, infinities and NaN.
      [allocate_value] is written over an interface of the arithmetic of
      [float] with two instances, the rationals and the binary64 numbers
      CPython computes with; what the proration loses by rounding is
      stated for the second.
    - A Python [str] is the list of its code points. A text cell of the
      table is a string, [None] or NaN.
    - [int(s, 16)] is the conversion of CPython, with the signs, blanks,
      underscores, prefix and the digits of all scripts it accepts.
    - A raised exception is the [Raise] case of [result]; a [ValueError]
      that is caught at once is [None]. *)

From Stdlib Require Import ZArith QArith Qround Lia Lra Lqa Bool List Ascii String DecimalString.
From Stdlib Require Import Reals.
From Stdlib Require SpecFloat.
From stdpp Require Import base option list gmap sorting.

Local Open Scope Z_scope.

(** ** The proleptic Gregorian calendar *)

Module Calendar.

Definition is_leap (y : Z) : bool :=
  (y mod 4 =? 0) && (negb (y mod 100 =? 0) || (y mod 400 =? 0)).

Definition year_length (y : Z) : Z := if is_leap y then 366 else 365.

(** Number of days before January 1st of [year]. *)
Definition days_before_year (year : Z) : Z :=
  let y := year - 1 in y * 365 + y / 4 - y / 100 + y / 400.

Definition DAYS_IN_MONTH (m : Z) : Z :=
  match m with
  | 2 => 28
  | 4 | 6 | 9 | 11 => 30
  | 1 | 3 | 5 | 7 | 8 | 10 | 12 => 31
  | _ => -1
  end.

Definition days_in_month (y m : Z) : Z :=
  if (m =? 2) && is_leap y then 29 else DAYS_IN_MONTH m.

Definition DAYS_BEFORE_MONTH (m : Z) : Z :=
  match m with
  | 1 => 0 | 2 => 31 | 3 => 59 | 4 => 90 | 5 => 120 | 6 => 151
  | 7 => 181 | 8 => 212 | 9 => 243 | 10 => 273 | 11 => 304 | 12 => 334
  | _ => -1
  end.

Definition days_before_month (y m : Z) : Z :=
  DAYS_BEFORE_MONTH m + (if (2 <? m) && is_leap y then 1 else 0).

(** [date(y, m, d).toordinal()], also [Timestamp(y, m, d)]. *)
Definition ymd2ord (y m d : Z) : Z :=
  days_before_year y + days_before_month y m + d.

(** The year of an ordinal and the zero-based day within that year. *)
Definition ord2year (n : Z) : Z * Z :=
  let n := n - 1 in
  let n400 := n / 146097 in
  let n := n mod 146097 in
  let n100 := n / 36524 in
  let n := n mod 36524 in
  let n4 := n / 1461 in
  let n := n mod 1461 in
  let n1 := n / 365 in
  let n := n mod 365 in
  let year := n400 * 400 + 1 + n100 * 100 + n4 * 4 + n1 in
  if (n1 =? 4) || (n100 =? 4) then (year - 1, 365) else (year, n).

Fixpoint find_month (y : Z) (months : list Z) (doy : Z) : Z * Z :=
  match months with
  | [] => (12, doy + 1)
  | m :: rest =>
      if doy <? days_in_month y m then (m, doy + 1)
      else find_month y rest (doy - days_in_month y m)
  end.

(** [date.fromordinal(n)] as the triple (year, month, day). *)
Definition ord2ymd (n : Z) : Z * Z * Z :=
  let '(y, doy) := ord2year n in
  let '(m, d) := find_month y [1;2;3;4;5;6;7;8;9;10;11] doy in
  (y, m, d).

Definition year_of (t : Z) : Z := fst (fst (ord2ymd t)).
Definition month_of (t : Z) : Z := snd (fst (ord2ymd t)).
Definition day_of (t : Z) : Z := snd (ord2ymd t).

Definition valid_ymd (y m d : Z) : Prop :=
  1 <= m <= 12 /\ 1 <= d <= days_in_month y m.

(** The month after (y, m). *)
Definition next_month (y m : Z) : Z * Z :=
  if m =? 12 then (y + 1, 1) else (y, m + 1).

(** [t + relativedelta(months=1)]: the same day of the next month, pulled
    back to that month's last day when the day does not exist there. *)
Definition add_month (t : Z) : Z :=
  let '(y, m, d) := ord2ymd t in
  let '(y', m') := next_month y m in
  ymd2ord y' m' (Z.min d (days_in_month y' m')).

(** First day of the month of [t]: [Timestamp(t.year, t.month, 1)]. *)
Definition month_floor (t : Z) : Z := ymd2ord (year_of t) (month_of t) 1.

(** The last day of the month that starts at [month_start], as both
    sources compute it: [month_start + relativedelta(months=1) - 1 day]. *)
Definition month_end_of (month_start : Z) : Z := add_month month_start - 1.

(** Months counted from year 0: the index of (y, m) is [12 * y + (m - 1)]. *)
Definition month_index (t : Z) : Z := 12 * year_of t + (month_of t - 1).

Definition month_start_of_index (i : Z) : Z := ymd2ord (i / 12) (i mod 12 + 1) 1.

(** [pd.date_range(start, stop, freq="MS")]: the first days of month
    within [start, stop], in ascending order. *)
Definition date_range_MS (start stop : Z) : list Z :=
  let first := if day_of start =? 1 then month_index start else month_index start + 1 in
  let last := month_index stop in
  (fun k => month_start_of_index k) <$> seqZ first (last - first + 1).

End Calendar.

(** ** Python values: strings, exceptions, numbers *)

Module Py.

(** A [str] is the sequence of its code points. *)
Definition str : Type := list Z.

(** Code points of a literal given in UTF-8. *)
Fixpoint utf8_decode (bs : list Z) : str :=
  match bs with
  | [] => []
  | b :: rest =>
      if b <? 128 then b :: utf8_decode rest
      else if b <? 224 then
        match rest with
        | b1 :: rest1 => ((b - 192) * 64 + (b1 - 128)) :: utf8_decode rest1
        | _ => []
        end
      else if b <? 240 then
        match rest with
        | b1 :: b2 :: rest2 =>
            ((b - 224) * 4096 + (b1 - 128) * 64 + (b2 - 128)) :: utf8_decode rest2
        | _ => []
        end
      else
        match rest with
        | b1 :: b2 :: b3 :: rest3 =>
            ((b - 240) * 262144 + (b1 - 128) * 4096 + (b2 - 128) * 64 + (b3 - 128))
              :: utf8_decode rest3
        | _ => []
        end
  end.

Definition lit (s : string) : str :=
  utf8_decode (map (fun a => Z.of_N (N_of_ascii a)) (list_ascii_of_string s)).

Definition str_eqb (a b : str) : bool := bool_decide (a = b).

(** [str.isspace] of one character. *)
Definition is_space (c : Z) : bool :=
  ((9 <=? c) && (c <=? 13)) || ((28 <=? c) && (c <=? 32)) || (c =? 133) ||
  (c =? 160) || (c =? 5760) || ((8192 <=? c) && (c <=? 8202)) ||
  (c =? 8232) || (c =? 8233) || (c =? 8239) || (c =? 8287) || (c =? 12288).

Fixpoint lstrip_by (f : Z -> bool) (s : str) : str :=
  match s with
  | c :: rest => if f c then lstrip_by f rest else s
  | [] => []
  end.

Definition rstrip_by (f : Z -> bool) (s : str) : str :=
  rev (lstrip_by f (rev s)).

(** [s.strip()] *)
Definition strip (s : str) : str := rstrip_by is_space (lstrip_by is_space s).

(** The code points of the digit zero of every script (Unicode 14.0); the
    nine code points after each are its digits one to nine. *)
Definition DECIMAL_ZEROS : list Z :=
  [48; 1632; 1776; 1984; 2406; 2534; 2662; 2790; 2918; 3046; 3174; 3302; 3430;
   3558; 3664; 3792; 3872; 4160; 4240; 6112; 6160; 6470; 6608; 6784; 6800;
   6992; 7088; 7232; 7248; 42528; 43216; 43264; 43472; 43504; 43600; 44016;
   65296; 66720; 68912; 69734; 69872; 69942; 70096; 70384; 70736; 70864;
   71248; 71360; 71472; 71904; 72016; 72784; 73040; 73120; 92768; 92864;
   93008; 120782; 120792; 120802; 120812; 120822; 123200; 123632; 125264;
   130032].

(** [Py_UNICODE_TODECIMAL] *)
Definition to_decimal (c : Z) : option Z :=
  (fun zero => c - zero) <$>
    List.find (fun zero => (zero <=? c) && (c <=? zero + 9)) DECIMAL_ZEROS.

(** What [int] makes of one character before it reads the literal: a blank
    of any script becomes a space, a decimal digit of any script its ASCII
    digit, any other character that is not ASCII a question mark. *)
Definition to_ascii (c : Z) : Z :=
  if c <? 127 then c
  else if is_space c then 32
  else match to_decimal c with
       | Some d => 48 + d
       | None => 63
       end.

(** [Py_ISSPACE] *)
Definition isspace_ascii (c : Z) : bool :=
  ((9 <=? c) && (c <=? 13)) || (c =? 32).

(** [_PyLong_DigitValue] *)
Definition digit_value (c : Z) : option Z :=
  if (48 <=? c) && (c <=? 57) then Some (c - 48)
  else if (97 <=? c) && (c <=? 122) then Some (c - 87)
  else if (65 <=? c) && (c <=? 90) then Some (c - 55)
  else None.

(** The digits of a literal, single underscores between them allowed:
    the value read, the number of digits and the rest of the string.
    [prev] is the character before. *)
Fixpoint scan_digits (base : Z) (s : str) (prev : Z) (acc : Z) (count : nat)
    : option (Z * nat * str) :=
  let stop := if prev =? 95 then None else Some (acc, count, s) in
  match s with
  | c :: rest =>
      if c =? 95 then
        if prev =? 95 then None else scan_digits base rest c acc count
      else
        match digit_value c with
        | Some d =>
            if d <? base then scan_digits base rest c (acc * base + d) (S count)
            else stop
        | None => stop
        end
  | [] => stop
  end.

(** The sign of a literal and what follows it. *)
Definition read_sign (s : str) : Z * str :=
  match s with
  | c :: rest =>
      if c =? 43 then (1, rest)
      else if c =? 45 then (-1, rest)
      else (1, s)
  | [] => (1, s)
  end.

(** The prefix of the base ([0x] for 16, [0o] for 8, [0b] for 2) is
    skipped, and one underscore after it. *)
Definition skip_prefix (base : Z) (s : str) : str :=
  match s with
  | c :: x :: rest =>
      if (c =? 48) &&
         (((base =? 16) && ((x =? 120) || (x =? 88)))
          || ((base =? 8) && ((x =? 111) || (x =? 79)))
          || ((base =? 2) && ((x =? 98) || (x =? 66))))
      then match rest with
           | u :: rest' => if u =? 95 then rest' else rest
           | [] => rest
           end
      else s
  | _ => s
  end.

(** [int(s, base)] of a string, for a base from 2 to 36; [None] is
    [ValueError]. *)
Definition int_ (s : str) (base : Z) : option Z :=
  let s := lstrip_by isspace_ascii (to_ascii <$> s) in
  let '(sign, s) := read_sign s in
  let s := skip_prefix base s in
  if bool_decide (head s = Some 95) then None
  else
    '(value, count, rest) ← scan_digits base s 0 0 0;
    if (count =? 0)%nat then None
    else match lstrip_by isspace_ascii rest with
         | [] => Some (sign * value)
         | _ :: _ => None
         end.

(** [sep.join(parts)] *)
Fixpoint join (sep : str) (parts : list str) : str :=
  match parts with
  | [] => []
  | [p] => p
  | p :: rest => p ++ sep ++ join sep rest
  end.

(** [list(dict.fromkeys(l))]: duplicates removed, first occurrences kept in
    order. *)
Fixpoint fromkeys (seen : list str) (l : list str) : list str :=
  match l with
  | [] => []
  | x :: rest =>
      if bool_decide (x ∈ seen) then fromkeys seen rest
      else x :: fromkeys (x :: seen) rest
  end.

(** [str(n)] of an integer. *)
Definition str_of_Z (n : Z) : str :=
  lit (NilZero.string_of_int (Z.to_int n)).

(** [int(x)] of a float: truncation towards zero. *)
Definition int_of_float (x : Q) : Z := Z.quot (Qnum x) (Z.pos (Qden x)).

Inductive exn : Type :=
  | ValueError (msg : str)
  | ZeroDivisionError
  | KeyError (key : str).

Inductive result (A : Type) : Type :=
  | Ok (a : A)
  | Raise (e : exn).
Arguments Ok {A} a.
Arguments Raise {A} e.

#[global] Instance result_ret : MRet result := fun A a => Ok a.

#[global] Instance result_bind : MBind result := fun A B k r =>
  match r with
  | Ok a => k a
  | Raise e => Raise e
  end.

(** [a / b] on Python numbers. *)
Definition truediv (a b : Q) : result Q :=
  if Qeq_bool b 0 then Raise ZeroDivisionError else Ok (a / b)%Q.

(** The arithmetic of [float] that the proration is written in. A Python
    [float] is a binary64 number: [binary64] is the arithmetic CPython
    computes with, in the formulation of the standard library ([SpecFloat]
    with precision 53 and maximal exponent 1024: every operation rounds to
    the nearest number, ties to even). [exact] is the arithmetic of the
    rationals, in which no operation rounds; it is the arithmetic of every
    amount whose type is [Q], and the one meant where no type is given. *)
Class Float (F : Type) : Type := mkFloat {
  fzero : F;                          (* [0.0] *)
  fadd : F -> F -> F;                 (* [a + b] *)
  fmul : F -> F -> F;                 (* [a * b] *)
  int_truediv : Z -> Z -> result F    (* [a / b] of two [int] *)
}.

#[global] Instance exact : Float Q | 0 := {|
  fzero := 0%Q;
  fadd := Qplus;
  fmul := Qmult;
  int_truediv a b := truediv (inject_Z a) (inject_Z b)
|}.

Definition float64 : Type := SpecFloat.spec_float.

(** [float(n)] of an [int]: the nearest binary64 number, which is [n]
    itself below 2^53. *)
Definition float_of_int (n : Z) : float64 :=
  SpecFloat.binary_normalize 53 1024 n 0 false.

(** The quotient of two [int] is the rounded quotient of the two numbers;
    below 2^53 the operands are binary64 numbers themselves. *)
#[global] Instance binary64 : Float float64 | 1 := {|
  fzero := SpecFloat.S754_zero false;
  fadd := SpecFloat.SFadd 53 1024;
  fmul := SpecFloat.SFmul 53 1024;
  int_truediv a b :=
    if b =? 0 then Raise ZeroDivisionError
    else Ok (SpecFloat.SFdiv 53 1024 (float_of_int a) (float_of_int b))
|}.

(** Truth value of a float. *)
Definition truthy (x : Q) : bool := negb (Qeq_bool x 0).

(** [max(a, b)] and [min(a, b)] return their first argument on a tie. *)
Definition max (a b : Q) : Q := if Qlt_le_dec a b then b else a.
Definition min (a b : Q) : Q := if Qlt_le_dec b a then b else a.

(** [a <= b], [a < b] as booleans. *)
Definition Qleb (a b : Q) : bool := Qle_bool a b.
Definition Qltb (a b : Q) : bool := negb (Qle_bool b a).

End Py.

(** ** [app.py]: rows, proration and the monthly aggregation *)

Module App.
Import Calendar Py.

Definition FISCAL_START_MONTH : Z := 7.

(** A date cell of the project table: a [date] object, [NaT], or nothing
    ([None] or the empty string). *)
Inductive cell : Type :=
  | Absent
  | NaT
  | Date (d : Z).

(** Truth value of a cell, for [a or b]: [None] and the empty string are
    false, any other object is true. *)
Definition cell_truthy (c : cell) : bool :=
  match c with
  | Absent => false
  | _ => true
  end.

Definition cell_or (a b : cell) : cell := if cell_truthy a then a else b.

(** A text cell of the project table: a string, [None], or the float NaN
    that [pandas.read_csv] leaves in a blank cell. *)
Inductive text : Type :=
  | Str (s : str)
  | NoText
  | NaN.

(** Truth value of a text cell: [None] and the empty string are false,
    NaN and every other string are true. *)
Definition text_truthy (t : text) : bool :=
  match t with
  | Str [] | NoText => false
  | Str (_ :: _) | NaN => true
  end.

(** [str(t)] of a text cell. *)
Definition str_of_text (t : text) : str :=
  match t with
  | Str s => s
  | NoText => lit "None"
  | NaN => lit "nan"
  end.

(** One row of the project table, with the columns the core reads. The
    status, the stage and the manual risk level are held as the strings
    the core makes of them ([str(...)], a blank cell being the string of
    NaN); the risk memo is read as the cell itself. *)
Record Row : Type := mkRow {
  order_amount : Q;          (* 受注金額 *)
  planned_cost : Q;          (* 予定原価 *)
  order_planned_amount : Q;  (* 受注予定額 *)
  budget_cost : Q;           (* 予算原価 *)
  progress_pct : Q;          (* 進捗率 *)
  actual_cost : Q;           (* 実績原価 *)
  headcount : Q;             (* 月平均必要人数 *)
  planned_start : cell;      (* 着工日 *)
  planned_end : cell;        (* 竣工日 *)
  actual_start : cell;       (* 実際着工日 *)
  actual_end : cell;         (* 実際竣工日 *)
  collection_start : cell;   (* 回収開始日 *)
  collection_end : cell;     (* 回収終了日 *)
  payment_start : cell;      (* 支払開始日 *)
  payment_end : cell;        (* 支払終了日 *)
  status : str;              (* ステータス *)
  value_chain : str;         (* バリューチェーン工程 *)
  manual_risk : str;         (* リスク度合い *)
  risk_memo : text           (* リスクメモ *)
}.

Definition coerce_date (value : cell) : option Z :=
  match value with
  | Date d => Some d
  | Absent | NaT => None
  end.

(** [start + relativedelta(years=1)] *)
Definition add_year (t : Z) : Z :=
  let '(y, m, d) := ord2ymd t in
  ymd2ord (y + 1) m (Z.min d (days_in_month (y + 1) m)).

Definition get_fiscal_year_range (year : Z) : Z * Z :=
  let start := ymd2ord year FISCAL_START_MONTH 1 in
  let stop := add_year start - 1 in
  (start, stop).

(** The value is a [float] already, so that [float(value)] is the value;
    the two day counts are [int]. *)
Definition allocate_value {F : Type} `{Float F} (value : F) (start stop : cell)
    (month_start month_end : Z) : result F :=
  match coerce_date start, coerce_date stop with
  | Some total_start, Some total_end =>
      if (total_start >? month_end) || (total_end <? month_start) then Ok fzero
      else
        let overlap_start := Z.max total_start month_start in
        let overlap_end := Z.min total_end month_end in
        if overlap_start >? overlap_end then Ok fzero
        else
          let total_days := total_end - total_start + 1 in
          if total_days <=? 0 then Ok fzero
          else
            let overlap_days := overlap_end - overlap_start + 1 in
            ratio ← int_truediv overlap_days total_days;
            Ok (fmul value ratio)
  | _, _ => Ok fzero
  end.

(** One record of the monthly table. *)
Record Bucket : Type := mkBucket {
  month : Z;             (* 年月 *)
  revenue : Q;           (* 受注金額 *)
  cost : Q;              (* 予定原価 *)
  gross : Q;             (* 粗利 *)
  gross_margin : Q;      (* 粗利率 *)
  manpower : Q;          (* 延べ人数 *)
  cash_in : Q;           (* キャッシュイン *)
  cash_out : Q;          (* キャッシュアウト *)
  cash_flow : Q;         (* キャッシュフロー *)
  cum_cash_flow : Q      (* 累計キャッシュフロー *)
}.

(** [acc += f(row)] over the rows of the table. *)
Fixpoint sum_rows (f : Row -> result Q) (df : list Row) (acc : Q) : result Q :=
  match df with
  | [] => Ok acc
  | row :: rest => x ← f row; sum_rows f rest (acc + x)%Q
  end.

(** The record of one month, before the cash-flow columns are added. *)
Definition month_record (df : list Row) (month_start : Z) : result Bucket :=
  let month_end := month_end_of month_start in
  month_revenue ← sum_rows (fun row =>
    allocate_value (order_amount row) (planned_start row) (planned_end row)
      month_start month_end) df 0%Q;
  month_cost ← sum_rows (fun row =>
    allocate_value (planned_cost row) (planned_start row) (planned_end row)
      month_start month_end) df 0%Q;
  month_manpower ← sum_rows (fun row =>
    allocate_value (headcount row) (planned_start row) (planned_end row)
      month_start month_end) df 0%Q;
  month_cash_in ← sum_rows (fun row =>
    allocate_value (order_amount row)
      (cell_or (collection_start row) (planned_start row))
      (cell_or (collection_end row) (planned_end row))
      month_start month_end) df 0%Q;
  month_cash_out ← sum_rows (fun row =>
    allocate_value (planned_cost row)
      (cell_or (payment_start row) (planned_start row))
      (cell_or (payment_end row) (planned_end row))
      month_start month_end) df 0%Q;
  let gross := (month_revenue - month_cost)%Q in
  gross_margin ←
    (if truthy month_revenue
     then q ← truediv gross month_revenue; Ok (q * 100)%Q
     else Ok 0%Q);
  Ok (mkBucket month_start month_revenue month_cost gross gross_margin
        month_manpower month_cash_in month_cash_out 0 0).

Fixpoint month_records (df : list Row) (months : list Z) : result (list Bucket) :=
  match months with
  | [] => Ok []
  | month_start :: rest =>
      b ← month_record df month_start;
      bs ← month_records df rest;
      Ok (b :: bs)
  end.

(** The two cash-flow columns: the difference, and its running sum. *)
Fixpoint add_cash_flow (acc : Q) (records : list Bucket) : list Bucket :=
  match records with
  | [] => []
  | b :: rest =>
      let flow := (cash_in b - cash_out b)%Q in
      let total := (acc + flow)%Q in
      mkBucket (month b) (revenue b) (cost b) (gross b) (gross_margin b)
        (manpower b) (cash_in b) (cash_out b) flow total
        :: add_cash_flow total rest
  end.

Definition compute_monthly_aggregation (df : list Row) (fiscal_range : Z * Z)
    : result (list Bucket) :=
  let '(start, stop) := fiscal_range in
  let months := date_range_MS start stop in
  match df with
  | [] => Ok ((fun m => mkBucket m 0 0 0 0 0 0 0 0 0) <$> months)
  | _ =>
      records ← month_records df months;
      match records with
      | [] =>
          (* [pd.DataFrame([])] has no column: the subscript raises *)
          Raise (KeyError (lit "キャッシュイン"))
      | _ => Ok (add_cash_flow 0 records)
      end
  end.

(** *** Expected progress and risk *)

Definition option_or {A : Type} (a b : option A) : option A :=
  match a with
  | Some _ => a
  | None => b
  end.

Definition calculate_expected_progress (row : Row) (today : Z) : result Q :=
  let start := option_or (coerce_date (planned_start row))
                         (coerce_date (actual_start row)) in
  let stop := coerce_date (planned_end row) in
  match start, stop with
  | Some start, Some stop =>
      if start >=? stop then Ok 0%Q
      else if today <=? start then Ok 0%Q
      else if today >=? stop then Ok 100%Q
      else
        let total_days := stop - start in
        let elapsed_days := today - start in
        q ← truediv (inject_Z elapsed_days) (inject_Z total_days);
        Ok (max 0 (min 100 (q * 100)))%Q
  | _, _ => Ok 0%Q
  end.

Definition LOW : str := lit "低".
Definition MID : str := lit "中".
Definition HIGH : str := lit "高".

(** [risk_order = {"低": 0, "中": 1, "高": 2}] *)
Definition risk_order (level : str) : option Z :=
  if str_eqb level LOW then Some 0
  else if str_eqb level MID then Some 1
  else if str_eqb level HIGH then Some 2
  else None.

(** [risk_order[level]] for a level that is one of the three keys. *)
Definition risk_rank (level : str) : Z := default 0 (risk_order level).

(** The columns of an enriched row that [determine_risk_level] reads. *)
Record RiskRow : Type := mkRiskRow {
  over_budget : bool;     (* 予算超過 *)
  progress_gap : Q;       (* 進捗差異 *)
  delay_days : Q;         (* 遅延日数 *)
  manual_level_raw : str; (* [str(row.get("リスク度合い", ""))] *)
  memo : text             (* リスクメモ *)
}.

(** The state of the two local variables [level] and [reasons]. *)
Definition risk_state : Type := str * list str.

Definition rule_budget (row : RiskRow) (st : risk_state) : risk_state :=
  let '(level, reasons) := st in
  if over_budget row then (HIGH, reasons ++ [lit "予算超過"]) else st.

Definition rule_progress (row : RiskRow) (st : risk_state) : risk_state :=
  let '(level, reasons) := st in
  if Qltb (progress_gap row) (-30) then (HIGH, reasons ++ [lit "進捗大幅遅れ"])
  else if Qltb (progress_gap row) (-10) && (risk_rank level <? risk_rank MID)
       then (MID, reasons ++ [lit "進捗遅れ"])
       else st.

Definition rule_delay (row : RiskRow) (st : risk_state) : risk_state :=
  let '(level, reasons) := st in
  if Qltb 0 (delay_days row)
  then (HIGH, reasons ++ [lit "遅延" ++ str_of_Z (int_of_float (delay_days row)) ++ lit "日"])
  else st.

Definition rule_manual (row : RiskRow) (st : risk_state) : risk_state :=
  let '(level, reasons) := st in
  let manual_level := strip (manual_level_raw row) in
  match risk_order manual_level with
  | Some rank =>
      let level := if rank >? risk_rank level then manual_level else level in
      if negb (str_eqb manual_level []) && negb (str_eqb manual_level LOW)
      then (level, reasons ++ [lit "手動評価:" ++ manual_level])
      else (level, reasons)
  | None => st
  end.

Definition rule_memo (row : RiskRow) (st : risk_state) : risk_state :=
  let '(level, reasons) := st in
  match reasons with
  | [] =>
      if text_truthy (memo row)
      then (MID, reasons ++ [str_of_text (memo row)])
      else st
  | _ :: _ => st
  end.

Definition risk_comment (reasons : list str) : str :=
  let joined :=
    join (lit "、") (fromkeys [] (filter (fun r => r ≠ []) reasons)) in
  match joined with
  | [] => lit "安定"
  | _ => joined
  end.

(** The rules in the order of the source; the last component of the list
    is the state after the last rule. *)
Definition risk_trace (row : RiskRow) : list risk_state :=
  let s0 : risk_state := (LOW, []) in
  let s1 := rule_budget row s0 in
  let s2 := rule_progress row s1 in
  let s3 := rule_delay row s2 in
  let s4 := rule_manual row s3 in
  let s5 := rule_memo row s4 in
  [s0; s1; s2; s3; s4; s5].

Definition determine_risk_level (row : RiskRow) : str * str :=
  let '(level, reasons) :=
    rule_memo row (rule_manual row (rule_delay row (rule_progress row
      (rule_budget row (LOW, []))))) in
  (level, risk_comment reasons).

(** *** Enrichment of the project table *)

(** The system clock, as far as the core reads it. *)
Record Clock : Type := mkClock {
  clock_today : Z;    (* the date [date.today()] returns *)
  clock_seconds : Z   (* the time of day, which the core never reads *)
}.

Definition date_today (clock : Clock) : Z := clock_today clock.

(** [STATUS_VALUE_CHAIN_MAP] *)
Definition STATUS_VALUE_CHAIN_MAP (status : str) : option str :=
  if str_eqb status (lit "見積") then Some (lit "原材料調達")
  else if str_eqb status (lit "受注") then Some (lit "施工準備")
  else if str_eqb status (lit "施工中") then Some (lit "施工")
  else if str_eqb status (lit "完了") then Some (lit "引き渡し")
  else None.

(** Element-wise division of numpy with the warnings silenced: a zero
    denominator gives a value that is not finite, here [None]. *)
Definition np_truediv (a b : Q) : option Q :=
  if Qeq_bool b 0 then None else Some (a / b)%Q.

Definition np_where {A : Type} (c : bool) (x y : A) : A := if c then x else y.

(** [pd.to_datetime(value, errors="coerce")] of a date cell. *)
Definition to_datetime (value : cell) : option Z :=
  match value with
  | Date d => Some d
  | Absent | NaT => None
  end.

(** A row of the enriched table: the input row, with the stage of the
    value chain filled in, and the derived columns. *)
Record Enriched : Type := mkEnriched {
  source_row : Row;
  value_chain_stage : str;      (* バリューチェーン工程 *)
  gross_profit : Q;             (* 粗利額 *)
  cost_ratio : option Q;        (* 原価率; [None] stands for inf or NaN *)
  order_variance : Q;           (* 受注差異 *)
  budget_variance : Q;          (* 予算乖離額 *)
  is_over_budget : bool;        (* 予算超過 *)
  completed_value : Q;          (* 完成工事高 *)
  realized_gross_profit : Q;    (* 実行粗利 *)
  expected_progress : Q;        (* 想定進捗率 *)
  progress_variance : Q;        (* 進捗差異 *)
  delay : Q;                    (* 遅延日数 *)
  risk_level : str;             (* リスクレベル *)
  risk_comment_text : str       (* リスクコメント *)
}.

Definition enrich_row (today : Z) (row : Row) : result Enriched :=
  let chain :=
    if str_eqb (strip (value_chain row)) []
    then default (lit "施工") (STATUS_VALUE_CHAIN_MAP (status row))
    else value_chain row in
  let gross_profit := (order_amount row - planned_cost row)%Q in
  let cost_ratio :=
    np_where (negb (Qeq_bool (order_amount row) 0))
      ((fun q => q * 100)%Q <$> np_truediv (planned_cost row) (order_amount row))
      (Some 0%Q) in
  let order_variance := (order_amount row - order_planned_amount row)%Q in
  let budget_variance := (planned_cost row - budget_cost row)%Q in
  let is_over_budget := Qltb 0 budget_variance in
  let completed_value := (order_amount row * (progress_pct row / 100))%Q in
  let realized := (order_amount row - actual_cost row)%Q in
  expected ← calculate_expected_progress row today;
  let variance := (progress_pct row - expected)%Q in
  let delay :=
    match to_datetime (actual_end row), to_datetime (planned_end row) with
    | Some a, Some p => if a - p >? 0 then inject_Z (a - p) else 0%Q
    | _, _ => 0%Q
    end in
  let '(level, comment) :=
    determine_risk_level
      (mkRiskRow is_over_budget variance delay (manual_risk row) (risk_memo row)) in
  Ok (mkEnriched row chain gross_profit cost_ratio order_variance
        budget_variance is_over_budget completed_value realized expected
        variance delay level comment).

Fixpoint enrich_rows (today : Z) (df : list Row) : result (list Enriched) :=
  match df with
  | [] => Ok []
  | row :: rest =>
      e ← enrich_row today row;
      es ← enrich_rows today rest;
      Ok (e :: es)
  end.

(** [enrich_projects(df)]: its only parameter is the table; the current
    date is read from the clock by [date.today()] in its body. *)
Definition enrich_projects (clock : Clock) (df : list Row) : result (list Enriched) :=
  let today := date_today clock in
  enrich_rows today df.

(** *** Axis marks of the timeline *)

(** [series.dropna()] of a column of converted dates. *)
Definition dropna (series : list (option Z)) : list Z := omap (fun x => x) series.

(** [series.min()] and [series.max()] of a column without missing values
    ([None] on an empty column). *)
Definition series_min (l : list Z) : option Z :=
  match l with
  | [] => None
  | x :: rest => Some (foldl Z.min x rest)
  end.

Definition series_max (l : list Z) : option Z :=
  match l with
  | [] => None
  | x :: rest => Some (foldl Z.max x rest)
  end.

(** The domain of the time axis: the range of the data and of the fallback
    range, three more days on both sides, widened to whole months. *)
Definition time_domain (tasks : list Row) (fallback_range : Z * Z) : Z * Z :=
  let '(fallback_start, fallback_end) := fallback_range in
  let start_ts := fallback_start in
  let end_ts := fallback_end in
  let start_series := (fun row => to_datetime (planned_start row)) <$> tasks in
  let end_series := (fun row => to_datetime (planned_end row)) <$> tasks in
  let start_ts :=
    match tasks, series_min (dropna start_series) with
    | _ :: _, Some m => Z.min start_ts m
    | _, _ => start_ts
    end in
  let end_ts :=
    match tasks, series_max (dropna end_series) with
    | _ :: _, Some m => Z.max end_ts m
    | _, _ => end_ts
    end in
  let end_ts := if start_ts >? end_ts then start_ts else end_ts in
  let start_buffer := start_ts - 3 in
  let end_buffer := end_ts + 3 in
  let domain_start := month_floor start_buffer in
  let domain_end_month_start := month_floor end_buffer in
  let domain_end := add_month domain_end_month_start - 1 in
  (domain_start, domain_end).

(** The minor marks one iteration of the loop over the months appends,
    with their labels, in the order of the appends. *)
Definition month_minor_marks (domain_start domain_end month_start : Z)
    : list (Z * str) :=
  let month_end := month_end_of month_start in
  flat_map (fun day =>
      let candidate := month_start + (day - 1) in
      if (candidate <? domain_start) || (candidate >? domain_end)
         || (candidate >? month_end)
      then []
      else [(candidate, str_of_Z day ++ lit "日")])
    [6; 12; 18; 24]
  ++ (if (month_end >=? domain_start) && (month_end <=? domain_end)
      then [(month_end, lit "月末")]
      else []).

(** [for mark, label in zip(...): dedup_minor[mark] = label] *)
Definition dedup_marks (generated : list (Z * str)) : gmap Z str :=
  foldl (fun (acc : gmap Z str) '(mark, label) => <[mark := label]> acc) ∅ generated.

(** [sorted(d.keys())] *)
Definition sorted_keys (d : gmap Z str) : list Z :=
  merge_sort Z.le (map_to_list d).*1.

Record TimeMarks : Type := mkTimeMarks {
  major_marks : list Z;
  minor_marks : list Z;
  domain : Z * Z;
  major_labels : list str;
  minor_labels : list str
}.

(** The minor marks with their labels as generated, before the
    duplicates are removed. *)
Definition generated_minor_marks (tasks : list Row) (fallback_range : Z * Z)
    : list (Z * str) :=
  let '(domain_start, domain_end) := time_domain tasks fallback_range in
  flat_map (month_minor_marks domain_start domain_end)
    (date_range_MS domain_start domain_end).

Definition gen_time_marks (tasks : list Row) (fallback_range : Z * Z) : TimeMarks :=
  let '(domain_start, domain_end) := time_domain tasks fallback_range in
  let months := date_range_MS domain_start domain_end in
  let major_marks := months in
  let major_labels := (fun month_start => str_of_Z (month_of month_start) ++ lit "月") <$> months in
  let dedup_minor := dedup_marks (generated_minor_marks tasks fallback_range) in
  let minor_marks := sorted_keys dedup_minor in
  let minor_labels := (fun mark => default [] (dedup_minor !! mark)) <$> minor_marks in
  mkTimeMarks major_marks minor_marks (domain_start, domain_end)
    major_labels minor_labels.

(*APP_END*)
End App.

(** ** [gantt_chart.py]: the project Gantt chart *)

Module Gantt.
Import Calendar Py.
Import App (cell, Absent, NaT, Date, to_datetime).

(** One row of the input table; a cell of a column the table does not have
    is never read. *)
Record GRow : Type := mkGRow {
  name_cell : str;     (* 案件名, as [str] *)
  start_cell : cell;   (* 開始日 *)
  end_cell : cell      (* 終了日 *)
}.

Record DataFrame : Type := mkDataFrame {
  columns : list str;
  rows : list GRow
}.

Definition COL_NAME : str := lit "案件名".
Definition COL_START : str := lit "開始日".
Definition COL_END : str := lit "終了日".

Record AxisMarks : Type := mkAxisMarks {
  tick_positions : list Z;
  tick_labels : list str;
  major_marks : list Z;
  minor_marks : list Z;
  domain_start : Z;
  domain_end : Z
}.

(** [series.isna().all()] *)
Definition all_na (series : list (option Z)) : bool :=
  forallb (fun v => bool_decide (v = None)) series.

Definition _ensure_datetime (series : list cell) (label : str)
    : result (list (option Z)) :=
  let converted := to_datetime <$> series in
  if all_na converted
  then Raise (ValueError (lit "列 '" ++ label ++ lit "' の有効な日付が見つかりません。"))
  else Ok converted.

(** Decimal digits of [n], padded with zeros on the left to [width]. *)
Definition zero_pad (width : nat) (n : Z) : str :=
  let digits := str_of_Z n in
  replicate (width - length digits) 48 ++ digits.

(** [t.strftime("%Y/%m")] *)
Definition strftime_Ym (t : Z) : str :=
  zero_pad 4 (year_of t) ++ lit "/" ++ zero_pad 2 (month_of t).

(** The state of the loop over the months in [_build_axis_marks]. *)
Record loop_state : Type := mkLoop {
  loop_major : list Z;
  loop_labels : list str;
  loop_minor : list Z
}.

Definition axis_loop_body (st : loop_state) (month_start : Z) : loop_state :=
  let month_end := month_end_of month_start in
  let major := loop_major st ++ [month_start] in
  let labels := loop_labels st ++ [strftime_Ym month_start] in
  let minor :=
    loop_minor st ++
    flat_map (fun day =>
        let candidate := month_start + (day - 1) in
        if candidate <=? month_end then [candidate] else [])
      [6; 12; 18; 24] in
  let minor :=
    if bool_decide (month_end ∈ major) then minor else minor ++ [month_end] in
  mkLoop major labels minor.

(** [_deduplicate]: first occurrences, in order. *)
Fixpoint _deduplicate (seen : list Z) (values : list Z) : list Z :=
  match values with
  | [] => []
  | v :: rest =>
      if bool_decide (v ∈ seen) then _deduplicate seen rest
      else v :: _deduplicate (v :: seen) rest
  end.

(** [label_map.get(position, "")] for the map built from
    [zip(major_marks, major_labels)]; a later pair overwrites an earlier one. *)
Fixpoint label_get (pairs : list (Z * str)) (position : Z) : str :=
  match pairs with
  | [] => []
  | (mark, label) :: rest =>
      if bool_decide (position ∈ rest.*1) then label_get rest position
      else if mark =? position then label else []
  end.

Definition _build_axis_marks (starts ends : list (option Z)) : result AxisMarks :=
  match App.series_min (App.dropna starts), App.series_max (App.dropna ends) with
  | Some start_value, Some end_value =>
      let domain_start := month_floor start_value in
      let end_month_start := month_floor end_value in
      let domain_end := add_month end_month_start - 1 in
      let months := date_range_MS domain_start domain_end in
      let st := foldl axis_loop_body (mkLoop [] [] []) months in
      let minor_marks := _deduplicate [] (merge_sort Z.le (loop_minor st)) in
      let tick_positions :=
        _deduplicate [] (merge_sort Z.le (loop_major st ++ minor_marks)) in
      let pairs := zip (loop_major st) (loop_labels st) in
      let tick_labels := label_get pairs <$> tick_positions in
      Ok (mkAxisMarks tick_positions tick_labels (loop_major st) minor_marks
            domain_start domain_end)
  | _, _ => Raise (ValueError (lit "開始日または終了日に有効な値が必要です。"))
  end.

(** One bar of the figure. *)
Record Bar : Type := mkBar {
  bar_project : str;
  bar_base : Z;
  bar_duration : Z;
  bar_showlegend : bool
}.

(** What the figure consists of, without the styling constants. *)
Record Figure : Type := mkFigure {
  fig_bars : list Bar;
  fig_height : Z;
  fig_xrange : Z * Z;
  fig_tickvals : list Z;
  fig_ticktext : list str;
  fig_major_lines : list Z;
  fig_minor_lines : list Z
}.

(** The loop that adds one bar per row; [legend_drawn] holds the projects
    that already have a legend entry. *)
Fixpoint add_bars (legend_drawn : list str) (filtered : list (str * Z * Z))
    : list Bar :=
  match filtered with
  | [] => []
  | (project, start, stop) :: rest =>
      let duration := stop - start + 1 in
      if duration <=? 0 then add_bars legend_drawn rest
      else
        mkBar project start duration (negb (bool_decide (project ∈ legend_drawn)))
          :: add_bars (project :: legend_drawn) rest
  end.

(** Names of the required columns the table lacks, sorted. *)
Definition missing_columns (df : DataFrame) : list str :=
  filter (fun c => c ∉ columns df) [COL_NAME; COL_END; COL_START].

(** The rows with both dates, the end not before the start: their
    project, start and end. *)
Definition valid_rows (names : list str) (starts ends : list (option Z))
    : list (str * Z * Z) :=
  omap (fun r : str * (option Z * option Z) =>
          match r with
          | (project, (Some s, Some e)) =>
              if e >=? s then Some (project, s, e) else None
          | _ => None
          end)
       (zip names (zip starts ends)).

Definition row_start (r : str * Z * Z) : Z := r.1.2.
Definition row_end (r : str * Z * Z) : Z := r.2.

Definition create_project_gantt_chart (df : DataFrame) : result Figure :=
  match missing_columns df with
  | (_ :: _) as missing =>
      Raise (ValueError (lit "DataFrame に必要な列がありません: " ++ join (lit ", ") missing))
  | [] =>
      starts ← _ensure_datetime (start_cell <$> rows df) COL_START;
      ends ← _ensure_datetime (end_cell <$> rows df) COL_END;
      let filtered := valid_rows (name_cell <$> rows df) starts ends in
      match filtered with
      | [] => Raise (ValueError (lit "開始日と終了日が正しく設定された行が存在しません。"))
      | _ =>
          axis_marks ← _build_axis_marks (Some <$> (row_start <$> filtered))
                                         (Some <$> (row_end <$> filtered));
          let bars := add_bars [] filtered in
          let y_categories := fromkeys [] (bar_project <$> bars) in
          let chart_height := Z.max 360 (40 * Z.of_nat (length y_categories) + 120) in
          let major_set := major_marks axis_marks in
          Ok (mkFigure bars chart_height
                (domain_start axis_marks, domain_end axis_marks + 1)
                (tick_positions axis_marks) (tick_labels axis_marks)
                (major_marks axis_marks)
                (filter (fun mark => mark ∉ major_set) (minor_marks axis_marks)))
      end
  end.

End Gantt.

(** ** [app.py]: contrast colour of a bar label *)

Module Colour.
Import Py.

Definition NAVY : str := lit "#0B1F3A".    (* BRAND_COLORS["navy"] *)
Definition WHITE : str := lit "#FFFFFF".

Definition hex_to_rgb (color : str) : option (Z * Z * Z) :=
  let cleaned := lstrip_by (fun c => c =? 35) (strip color) in
  let cleaned :=
    if (length cleaned =? 3)%nat then flat_map (fun ch => [ch; ch]) cleaned
    else cleaned in
  match cleaned with
  | [c0; c1; c2; c3; c4; c5] =>
      (* [except ValueError: return None] *)
      match int_ [c0; c1] 16, int_ [c2; c3] 16, int_ [c4; c5] 16 with
      | Some r, Some g, Some b => Some (r, g, b)
      | _, _, _ => None
      end
  | _ => None
  end.

Local Open Scope R_scope.

Definition to_linear (channel : R) : R :=
  let channel := channel / 255 in
  if Rle_dec channel 0.03928 then channel / 12.92
  else Rpower ((channel + 0.055) / 1.055) 2.4.

Definition luminance (rgb : Z * Z * Z) : R :=
  let '(r, g, b) := rgb in
  0.2126 * to_linear (IZR r) + 0.7152 * to_linear (IZR g)
  + 0.0722 * to_linear (IZR b).

Definition get_contrasting_text_color (color : str) : str :=
  match hex_to_rgb color with
  | None => NAVY
  | Some rgb => if Rlt_dec (luminance rgb) 0.55 then WHITE else NAVY
  end.

(** The transfer function and the luminance in the words of the
    specification, for a channel already scaled to the unit interval. *)
Definition srgb_linear_spec (c : R) : R :=
  if Rle_dec c 0.03928 then c / 12.92 else Rpower ((c + 0.055) / 1.055) 2.4.

Definition relative_luminance_spec (r g b : R) : R :=
  0.2126 * srgb_linear_spec r + 0.7152 * srgb_linear_spec g
  + 0.0722 * srgb_linear_spec b.

End Colour.

(** ** Notions used to state the properties *)

Module Notions.
Import Calendar Py App.

(** Number of days of the range [s, e] that fall within [a, b]. *)
Definition overlap_days (s e a b : Z) : Z :=
  Z.max 0 (Z.min e b - Z.max s a + 1).

(** Sum of some day counts. *)
Definition sum_days (days : list Z) : Z := foldr Z.add 0 days.

(** The rational number a finite binary64 number is ([0] for the others). *)
Definition float_value (x : float64) : Q :=
  match x with
  | SpecFloat.S754_finite sign m e =>
      let magnitude :=
        if 0 <=? e then inject_Z (Z.pos m * 2 ^ e)
        else (inject_Z (Z.pos m) / inject_Z (2 ^ (- e)))%Q in
      if sign then (- magnitude)%Q else magnitude
  | _ => 0%Q
  end.

(** Sum of a sequence of computed amounts. *)
Fixpoint sum_results {F : Type} `{Float F} (l : list (result F)) : result F :=
  match l with
  | [] => Ok fzero
  | r :: rest => x ← r; total ← sum_results rest; Ok (fadd x total)
  end.

(** The same sum from the left, as [sum(...)] adds. *)
Fixpoint sum_from {F : Type} `{Float F} (acc : F) (l : list (result F))
    : result F :=
  match l with
  | [] => Ok acc
  | r :: rest => x ← r; sum_from (fadd acc x) rest
  end.

(** What a project is allocated in each of the given months, summed. *)
Definition allocated_in_months {F : Type} `{Float F} (value : F)
    (start stop : cell) (months : list Z) : result F :=
  sum_results
    ((fun month_start =>
        allocate_value value start stop month_start (month_end_of month_start))
     <$> months).

(** The expected progress of a row with start [s] and end [e], [s < e],
    as a function of the day alone. *)
Definition progress_at (s e today : Z) : Q :=
  if today <=? s then 0%Q
  else if today >=? e then 100%Q
  else max 0 (min 100 (inject_Z (today - s) / inject_Z (e - s) * 100))%Q.

(** A record of the monthly table for month [m] whose numeric columns are all 0. *)
Definition zero_bucket (m : Z) (b : Bucket) : Prop :=
  month b = m /\ revenue b = 0%Q /\ cost b = 0%Q /\ gross b = 0%Q /\
  gross_margin b = 0%Q /\ manpower b = 0%Q /\ cash_in b = 0%Q /\
  cash_out b = 0%Q /\ cash_flow b = 0%Q /\ cum_cash_flow b = 0%Q.

Definition valid_level (level : str) : Prop :=
  level = LOW \/ level = MID \/ level = HIGH.

(** What every rule preserves: the level is one of the three, and it is
    still the lowest as long as no reason has been recorded. *)
Definition risk_inv (st : risk_state) : Prop :=
  valid_level st.1 /\ (st.2 = [] -> st.1 = LOW).

(** One rule applied: the invariant holds again and the severity has not
    decreased. *)
Definition risk_step (st st' : risk_state) : Prop :=
  risk_inv st' /\ risk_rank st.1 <= risk_rank st'.1.

(** A date is the first, or the last, day of its month. *)
Definition first_of_month (t : Z) : Prop := day_of t = 1.

Definition last_of_month (t : Z) : Prop :=
  day_of t = days_in_month (year_of t) (month_of t).

(** The table has the three columns the Gantt chart requires. *)
Definition has_required_columns (df : Gantt.DataFrame) : Prop :=
  Gantt.COL_NAME ∈ Gantt.columns df /\ Gantt.COL_START ∈ Gantt.columns df /\
  Gantt.COL_END ∈ Gantt.columns df.

(** Some cell of the column converts to a date. *)
Definition some_parseable (cells : list cell) : Prop :=
  exists c d, c ∈ cells /\ to_datetime c = Some d.

(** Some row has both dates, the end not before the start. *)
Definition some_valid_row (df : Gantt.DataFrame) : Prop :=
  exists r s e,
    r ∈ Gantt.rows df /\ to_datetime (Gantt.start_cell r) = Some s /\
    to_datetime (Gantt.end_cell r) = Some e /\ s <= e.

(** The filter of the rows, as a function of the rows. *)
Definition valid_row (r : Gantt.GRow) : option (str * Z * Z) :=
  match to_datetime (Gantt.start_cell r), to_datetime (Gantt.end_cell r) with
  | Some s, Some e => if e >=? s then Some (Gantt.name_cell r, s, e) else None
  | _, _ => None
  end.

(** A project of ten days in October 2025. *)
Definition C3_row : Row :=
  mkRow 25000000 19000000 25000000 18000000 55 13500000 4
    (Date (ymd2ord 2025 10 1)) (Date (ymd2ord 2025 10 11))
    Absent Absent Absent Absent Absent Absent
    (lit "施工中") [] [] (Str []).

(** Sum of the cash-flow column of some records. *)
Definition total_cash_flow (l : list Bucket) : Q :=
  foldr (fun b acc => (cash_flow b + acc)%Q) 0%Q l.

(** Value of an ASCII hexadecimal digit. *)
Definition hex_digit (c : Z) : option Z :=
  if (48 <=? c) && (c <=? 57) then Some (c - 48)
  else if (65 <=? c) && (c <=? 70) then Some (c - 55)
  else if (97 <=? c) && (c <=? 102) then Some (c - 87)
  else None.

(** The characters [hex_to_rgb] reads as digits: the colour without the
    blanks around it and the [#] before it, each character doubled when
    there are three. *)
Definition hex_chars (color : str) : str :=
  let cleaned := lstrip_by (fun c => c =? 35) (strip color) in
  if (length cleaned =? 3)%nat then flat_map (fun ch => [ch; ch]) cleaned
  else cleaned.

(** A character that a literal of two characters accepted by [int(., 16)]
    can hold: a hexadecimal digit (the decimal digits of any script
    included), a blank, or a sign. *)
Definition hex_value (c : Z) : bool :=
  match digit_value c with
  | Some d => d <? 16
  | None => false
  end.

Definition literal_char (c : Z) : bool :=
  let a := to_ascii c in
  isspace_ascii a || (a =? 43) || (a =? 45) || hex_value a.

(** What [int(., 16)] makes of a literal after its sign. *)
Definition unsigned16 (sign : Z) (s : str) : option Z :=
  if bool_decide (head (skip_prefix 16 s) = Some 95) then None
  else
    '(value, count, rest) ← scan_digits 16 (skip_prefix 16 s) 0 0 0;
    if (count =? 0)%nat then None
    else match lstrip_by isspace_ascii rest with
         | [] => Some (sign * value)
         | _ :: _ => None
         end.

(** No signal of the row asks for more than the lowest level: the row is
    calm, and its memo is empty. *)
Definition calm (row : RiskRow) : Prop :=
  over_budget row = false /\ (-10 <= progress_gap row)%Q /\
  (delay_days row <= 0)%Q /\
  strip (manual_level_raw row) <> MID /\ strip (manual_level_raw row) <> HIGH.

Definition quiet (row : RiskRow) : Prop :=
  calm row /\ text_truthy (memo row) = false.

(** The second half of the invariant: a reason has been recorded as soon
    as the level is above the lowest. *)
Definition reasons_inv (st : risk_state) : Prop := st.1 = LOW -> st.2 = [].

End Notions.

(* ================================================================== *)
(** * Properties *)
(* ================================================================== *)

(** ** Calendar facts *)

Module CalendarFacts.
Import Calendar.

Ltac split_leap y :=
  unfold is_leap;
  destruct (y mod 4 =? 0) eqn:?E4; destruct (y mod 100 =? 0) eqn:?E100;
  destruct (y mod 400 =? 0) eqn:?E400; cbn [andb orb negb];
  rewrite ?Z.eqb_eq, ?Z.eqb_neq in *.

Lemma days_before_year_succ y :
  days_before_year (y + 1) = days_before_year y + year_length y.
Proof.
  unfold days_before_year, year_length. cbv zeta.
  replace (y + 1 - 1) with y by lia.
  split_leap y; Z.div_mod_to_equations; lia.
Qed.

Lemma year_length_pos y : 365 <= year_length y <= 366.
Proof. unfold year_length. destruct (is_leap y); lia. Qed.

Lemma days_before_year_mono y y' :
  y <= y' -> days_before_year y + 365 * (y' - y) <= days_before_year y'.
Proof.
  intros Hle. replace y' with (y + Z.of_nat (Z.to_nat (y' - y))) by lia.
  induction (Z.to_nat (y' - y)) as [|k IH].
  - rewrite Z.add_0_r. lia.
  - rewrite Nat2Z.inj_succ.
    replace (y + Z.succ (Z.of_nat k)) with (y + Z.of_nat k + 1) by lia.
    rewrite days_before_year_succ.
    pose proof (year_length_pos (y + Z.of_nat k)). lia.
Qed.

Lemma ord2year_spec n :
  days_before_year (fst (ord2year n)) + snd (ord2year n) = n - 1 /\
  0 <= snd (ord2year n) < year_length (fst (ord2year n)).
Proof.
  unfold ord2year. cbv zeta.
  set (a := n - 1).
  set (n400 := a / 146097). set (r1 := a mod 146097).
  set (n100 := r1 / 36524). set (r2 := r1 mod 36524).
  set (n4 := r2 / 1461). set (r3 := r2 mod 1461).
  set (n1 := r3 / 365). set (r4 := r3 mod 365).
  assert (Ha : a = 146097 * n400 + r1 /\ 0 <= r1 < 146097)
    by (subst n400 r1; Z.div_mod_to_equations; lia).
  assert (H1 : r1 = 36524 * n100 + r2 /\ 0 <= r2 < 36524)
    by (subst n100 r2; Z.div_mod_to_equations; lia).
  assert (H2 : r2 = 1461 * n4 + r3 /\ 0 <= r3 < 1461)
    by (subst n4 r3; Z.div_mod_to_equations; lia).
  assert (H3 : r3 = 365 * n1 + r4 /\ 0 <= r4 < 365)
    by (subst n1 r4; Z.div_mod_to_equations; lia).
  clearbody n400 r1 n100 r2 n4 r3 n1 r4 a.
  assert (0 <= n100 <= 4) by lia.
  assert (0 <= n4 <= 24) by lia.
  assert (0 <= n1 <= 4) by lia.
  unfold year_length, days_before_year, is_leap; cbv zeta.
  destruct (n1 =? 4) eqn:E1; destruct (n100 =? 4) eqn:E100; cbn [orb fst snd];
    rewrite ?Z.eqb_eq, ?Z.eqb_neq in *.
  all: repeat match goal with
         | |- context [Z.eqb (Z.modulo ?x ?k) 0] =>
             let E := fresh "E" in
             destruct (Z.eqb (Z.modulo x k) 0) eqn:E;
             rewrite ?Z.eqb_eq, ?Z.eqb_neq in E
         end; cbn [andb orb negb].
  all: Z.div_mod_to_equations; lia.
Qed.

Lemma find_month_spec y doy :
  0 <= doy < year_length y ->
  let '(m, d) := find_month y [1;2;3;4;5;6;7;8;9;10;11] doy in
  valid_ymd y m d /\ days_before_month y m + d = doy + 1.
Proof.
  unfold year_length, valid_ymd, days_before_month, find_month.
  unfold days_in_month.
  destruct (is_leap y); cbn; intros Hd;
    repeat (match goal with
            | |- context [?a <? ?b] => destruct (Z.ltb_spec a b)
            end; cbn; [lia|]); lia.
Qed.

(** Every ordinal denotes a valid date, and converting that date back gives
    the ordinal. *)
Lemma ord2ymd_valid n :
  valid_ymd (year_of n) (month_of n) (day_of n).
Proof.
  unfold year_of, month_of, day_of, ord2ymd.
  pose proof (ord2year_spec n) as [_ Hr].
  destruct (ord2year n) as [y doy]; cbn [fst snd] in *.
  pose proof (find_month_spec y doy Hr) as Hm.
  destruct (find_month y _ doy) as [m d]. cbn. tauto.
Qed.

Lemma ymd2ord_ord2ymd n :
  ymd2ord (year_of n) (month_of n) (day_of n) = n.
Proof.
  unfold year_of, month_of, day_of, ord2ymd, ymd2ord.
  pose proof (ord2year_spec n) as [He Hr].
  destruct (ord2year n) as [y doy]; cbn [fst snd] in *.
  pose proof (find_month_spec y doy Hr) as Hm.
  destruct (find_month y _ doy) as [m d]. cbn. lia.
Qed.

Lemma day_of_year_bounds y m d :
  valid_ymd y m d -> 1 <= days_before_month y m + d <= year_length y.
Proof.
  unfold valid_ymd, days_before_month, days_in_month, year_length.
  intros [Hm Hd].
  assert (m = 1 \/ m = 2 \/ m = 3 \/ m = 4 \/ m = 5 \/ m = 6 \/ m = 7 \/
          m = 8 \/ m = 9 \/ m = 10 \/ m = 11 \/ m = 12) as Hc by lia.
  destruct (is_leap y);
    repeat (destruct Hc as [-> | Hc]; [cbn in *; lia|]); subst; cbn in *; lia.
Qed.

Lemma ymd2ord_inj y m d y' m' d' :
  valid_ymd y m d -> valid_ymd y' m' d' ->
  ymd2ord y m d = ymd2ord y' m' d' -> y = y' /\ m = m' /\ d = d'.
Proof.
  intros Hv Hv' He. unfold ymd2ord in He.
  pose proof (day_of_year_bounds _ _ _ Hv) as Hb.
  pose proof (day_of_year_bounds _ _ _ Hv') as Hb'.
  assert (y = y') as <-.
  { destruct (Z.lt_trichotomy y y') as [Hlt | [-> | Hgt]]; [exfalso| reflexivity | exfalso].
    - pose proof (days_before_year_mono (y + 1) y' ltac:(lia)).
      rewrite days_before_year_succ in *. lia.
    - pose proof (days_before_year_mono (y' + 1) y ltac:(lia)).
      rewrite days_before_year_succ in *. lia. }
  split; [reflexivity|].
  assert (days_before_month y m + d = days_before_month y m' + d') as He' by lia.
  clear He Hb Hb'. destruct Hv as [Hm Hd], Hv' as [Hm' Hd'].
  unfold days_before_month, days_in_month in *.
  assert (m = 1 \/ m = 2 \/ m = 3 \/ m = 4 \/ m = 5 \/ m = 6 \/ m = 7 \/
          m = 8 \/ m = 9 \/ m = 10 \/ m = 11 \/ m = 12) as Hc by lia.
  assert (m' = 1 \/ m' = 2 \/ m' = 3 \/ m' = 4 \/ m' = 5 \/ m' = 6 \/ m' = 7 \/
          m' = 8 \/ m' = 9 \/ m' = 10 \/ m' = 11 \/ m' = 12) as Hc' by lia.
  destruct (is_leap y);
    repeat (destruct Hc as [-> | Hc]); try subst m;
    repeat (destruct Hc' as [-> | Hc']); try subst m'; cbn in *; lia.
Qed.

Lemma ord2ymd_ymd2ord y m d :
  valid_ymd y m d -> ord2ymd (ymd2ord y m d) = (y, m, d).
Proof.
  intros Hv. set (n := ymd2ord y m d).
  pose proof (ord2ymd_valid n) as Hv'.
  pose proof (ymd2ord_ord2ymd n) as He.
  destruct (ymd2ord_inj _ _ _ _ _ _ Hv' Hv He) as (Hy & Hm & Hd).
  unfold year_of, month_of, day_of in *.
  destruct (ord2ymd n) as [[y0 m0] d0]. cbn in *. congruence.
Qed.

End CalendarFacts.

(** ** Months *)

Module MonthFacts.
Import Calendar CalendarFacts.

Ltac month_cases m H :=
  assert (m = 1 \/ m = 2 \/ m = 3 \/ m = 4 \/ m = 5 \/ m = 6 \/ m = 7 \/
          m = 8 \/ m = 9 \/ m = 10 \/ m = 11 \/ m = 12) as H by lia.

Lemma days_in_month_bounds y m :
  1 <= m <= 12 -> 28 <= days_in_month y m <= 31.
Proof.
  intros Hm. month_cases m Hc. unfold days_in_month.
  destruct (is_leap y);
    repeat (destruct Hc as [-> | Hc]; [vm_compute; split; discriminate|]);
    subst; vm_compute; split; discriminate.
Qed.

Lemma valid_first y m : 1 <= m <= 12 -> valid_ymd y m 1.
Proof.
  intros Hm. pose proof (days_in_month_bounds y m Hm). unfold valid_ymd. lia.
Qed.

Lemma valid_last y m : 1 <= m <= 12 -> valid_ymd y m (days_in_month y m).
Proof.
  intros Hm. pose proof (days_in_month_bounds y m Hm). unfold valid_ymd. lia.
Qed.

Lemma ymd2ord_day y m d : ymd2ord y m d = ymd2ord y m 1 + (d - 1).
Proof. unfold ymd2ord. lia. Qed.

Lemma days_before_month_succ (leap : bool) m :
  1 <= m <= 11 ->
  DAYS_BEFORE_MONTH (m + 1) + (if (2 <? m + 1) && leap then 1 else 0)
  = DAYS_BEFORE_MONTH m + (if (2 <? m) && leap then 1 else 0)
    + (if (m =? 2) && leap then 29 else DAYS_IN_MONTH m).
Proof.
  intros Hm. month_cases m Hc.
  destruct leap;
    repeat (destruct Hc as [-> | Hc]; [first [reflexivity | lia]|]); lia.
Qed.

Lemma ymd2ord_next_month y m :
  1 <= m <= 12 ->
  ymd2ord (next_month y m).1 (next_month y m).2 1
  = ymd2ord y m 1 + days_in_month y m.
Proof.
  intros Hm. unfold next_month, ymd2ord.
  destruct (Z.eqb_spec m 12) as [-> | Hne]; cbn [fst snd].
  - rewrite days_before_year_succ.
    unfold year_length, days_before_month, days_in_month.
    change (DAYS_BEFORE_MONTH 1) with 0. change (DAYS_BEFORE_MONTH 12) with 334.
    change (DAYS_IN_MONTH 12) with 31. change (2 <? 1) with false.
    change (2 <? 12) with true. change (12 =? 2) with false.
    destruct (is_leap y), (is_leap (y + 1)); cbn [andb]; lia.
  - unfold days_before_month, days_in_month.
    pose proof (days_before_month_succ (is_leap y) m ltac:(lia)). lia.
Qed.

Lemma add_month_first y m :
  1 <= m <= 12 ->
  add_month (ymd2ord y m 1) = ymd2ord y m 1 + days_in_month y m.
Proof.
  intros Hm. unfold add_month.
  rewrite (ord2ymd_ymd2ord y m 1) by (apply valid_first; exact Hm).
  rewrite <- (ymd2ord_next_month y m Hm).
  destruct (next_month y m) as [y' m'] eqn:En. cbn [fst snd].
  assert (1 <= m' <= 12) as Hm'.
  { unfold next_month in En. destruct (Z.eqb_spec m 12); inversion En; lia. }
  pose proof (days_in_month_bounds y' m' Hm').
  rewrite Z.min_l by lia. reflexivity.
Qed.

(** The last day of a month, computed as the sources do, is the day
    numbered [days_in_month]. *)
Lemma month_end_of_first y m :
  1 <= m <= 12 ->
  month_end_of (ymd2ord y m 1) = ymd2ord y m (days_in_month y m).
Proof.
  intros Hm. unfold month_end_of. rewrite add_month_first by exact Hm.
  rewrite (ymd2ord_day y m (days_in_month y m)). lia.
Qed.

Lemma month_end_of_unfold x : add_month x - 1 = month_end_of x.
Proof. reflexivity. Qed.

Lemma index_month_range i : 1 <= i mod 12 + 1 <= 12.
Proof. pose proof (Z.mod_pos_bound i 12 ltac:(lia)). lia. Qed.

Lemma month_start_of_index_succ i :
  month_start_of_index (i + 1)
  = month_start_of_index i + days_in_month (i / 12) (i mod 12 + 1).
Proof.
  unfold month_start_of_index.
  rewrite <- (ymd2ord_next_month (i / 12) (i mod 12 + 1) (index_month_range i)).
  unfold next_month.
  destruct (Z.eqb_spec (i mod 12 + 1) 12) as [He | Hne]; cbn [fst snd].
  - replace ((i + 1) / 12) with (i / 12 + 1) by (Z.div_mod_to_equations; lia).
    replace ((i + 1) mod 12) with 0 by (Z.div_mod_to_equations; lia).
    reflexivity.
  - pose proof (index_month_range i).
    replace ((i + 1) / 12) with (i / 12) by (Z.div_mod_to_equations; lia).
    replace ((i + 1) mod 12) with (i mod 12 + 1) by (Z.div_mod_to_equations; lia).
    reflexivity.
Qed.

Lemma month_end_of_index i :
  month_end_of (month_start_of_index i) = month_start_of_index (i + 1) - 1.
Proof.
  rewrite month_start_of_index_succ. unfold month_end_of, month_start_of_index.
  rewrite add_month_first by apply index_month_range. reflexivity.
Qed.

Lemma month_length_index i :
  28 <= month_start_of_index (i + 1) - month_start_of_index i <= 31.
Proof.
  rewrite month_start_of_index_succ.
  pose proof (days_in_month_bounds (i / 12) (i mod 12 + 1) (index_month_range i)).
  lia.
Qed.

Lemma month_start_of_index_mono i j :
  i <= j -> month_start_of_index i + 28 * (j - i) <= month_start_of_index j.
Proof.
  intros Hle. replace j with (i + Z.of_nat (Z.to_nat (j - i))) by lia.
  induction (Z.to_nat (j - i)) as [|k IH].
  - rewrite Z.add_0_r. lia.
  - rewrite Nat2Z.inj_succ.
    replace (i + Z.succ (Z.of_nat k)) with (i + Z.of_nat k + 1) by lia.
    pose proof (month_length_index (i + Z.of_nat k)). lia.
Qed.

Lemma month_start_of_index_lt i j :
  i < j -> month_start_of_index i < month_start_of_index j.
Proof. intros H. pose proof (month_start_of_index_mono i j). lia. Qed.

Lemma month_start_of_index_inj i j :
  month_start_of_index i = month_start_of_index j -> i = j.
Proof.
  intros He. destruct (Z.lt_trichotomy i j) as [H | [H | H]]; [|exact H|];
    apply month_start_of_index_lt in H; lia.
Qed.

Lemma index_of_ymd y m :
  1 <= m <= 12 -> month_start_of_index (12 * y + (m - 1)) = ymd2ord y m 1.
Proof.
  intros Hm. unfold month_start_of_index.
  replace ((12 * y + (m - 1)) / 12) with y by (Z.div_mod_to_equations; lia).
  replace ((12 * y + (m - 1)) mod 12 + 1) with m by (Z.div_mod_to_equations; lia).
  reflexivity.
Qed.

Lemma month_floor_index t : month_floor t = month_start_of_index (month_index t).
Proof.
  unfold month_floor, month_index. symmetry. apply index_of_ymd.
  apply (ord2ymd_valid t).
Qed.

Lemma month_index_of_start i : month_index (month_start_of_index i) = i.
Proof.
  unfold month_index, year_of, month_of, month_start_of_index.
  rewrite ord2ymd_ymd2ord by (apply valid_first, index_month_range).
  cbn [fst snd]. Z.div_mod_to_equations; lia.
Qed.

Lemma day_of_month_start i : day_of (month_start_of_index i) = 1.
Proof.
  unfold day_of, month_start_of_index.
  rewrite ord2ymd_ymd2ord by (apply valid_first, index_month_range).
  reflexivity.
Qed.

(** A date lies between the first and the last day of its month. *)
Lemma month_floor_le t : month_floor t <= t.
Proof.
  pose proof (ymd2ord_ord2ymd t) as He. pose proof (ord2ymd_valid t) as [_ Hd].
  unfold month_floor. rewrite ymd2ord_day in He. lia.
Qed.

Lemma month_end_ge t : t <= month_end_of (month_floor t).
Proof.
  pose proof (ymd2ord_ord2ymd t) as He. pose proof (ord2ymd_valid t) as [Hm Hd].
  unfold month_floor. rewrite month_end_of_first by exact Hm.
  rewrite ymd2ord_day in He. rewrite (ymd2ord_day _ _ (days_in_month _ _)). lia.
Qed.

(** The month index is monotone in the date. *)
Lemma month_index_mono s t : s <= t -> month_index s <= month_index t.
Proof.
  intros Hle. destruct (Z.le_gt_cases (month_index s) (month_index t)) as [H | H];
    [exact H | exfalso].
  pose proof (month_floor_le s) as Hs. pose proof (month_end_ge t) as Ht.
  rewrite month_floor_index in Hs, Ht. rewrite month_end_of_index in Ht.
  pose proof (month_start_of_index_mono (month_index t + 1) (month_index s) ltac:(lia)).
  lia.
Qed.

(** The months of a range that starts on the first day of a month. *)
Lemma date_range_MS_from_start i stop :
  date_range_MS (month_start_of_index i) stop
  = month_start_of_index <$> seqZ i (month_index stop - i + 1).
Proof.
  unfold date_range_MS. rewrite day_of_month_start, month_index_of_start.
  reflexivity.
Qed.

End MonthFacts.

(** ** Proration over the months of a fiscal year *)

Module ProrationFacts.
Import Calendar CalendarFacts MonthFacts Py App Notions.

Lemma month_index_between j t :
  month_start_of_index j <= t < month_start_of_index (j + 1) ->
  month_index t = j.
Proof.
  intros [Hlo Hhi].
  pose proof (month_index_mono _ _ Hlo) as H1.
  rewrite month_index_of_start in H1.
  pose proof (month_floor_le t) as H2. rewrite month_floor_index in H2.
  destruct (Z.le_gt_cases (month_index t) j) as [H | H]; [lia | exfalso].
  pose proof (month_start_of_index_mono (j + 1) (month_index t) ltac:(lia)). lia.
Qed.

Lemma add_year_first y m :
  1 <= m <= 12 -> add_year (ymd2ord y m 1) = ymd2ord (y + 1) m 1.
Proof.
  intros Hm. unfold add_year.
  rewrite ord2ymd_ymd2ord by (apply valid_first; exact Hm).
  pose proof (days_in_month_bounds (y + 1) m Hm).
  rewrite Z.min_l by lia. reflexivity.
Qed.

(** The fiscal year is the twelve months from July. *)
Lemma fiscal_year_range_index year :
  get_fiscal_year_range year
  = (month_start_of_index (12 * year + 6),
     month_start_of_index (12 * year + 6 + 12) - 1).
Proof.
  unfold get_fiscal_year_range, FISCAL_START_MONTH.
  rewrite add_year_first by lia.
  rewrite <- (index_of_ymd year 7) by lia.
  rewrite <- (index_of_ymd (year + 1) 7) by lia.
  replace (12 * year + (7 - 1)) with (12 * year + 6) by lia.
  replace (12 * (year + 1) + (7 - 1)) with (12 * year + 6 + 12) by lia.
  reflexivity.
Qed.

Lemma fiscal_year_months year :
  date_range_MS (get_fiscal_year_range year).1 (get_fiscal_year_range year).2
  = month_start_of_index <$> seqZ (12 * year + 6) 12.
Proof.
  rewrite fiscal_year_range_index. cbn [fst snd].
  rewrite date_range_MS_from_start.
  rewrite (month_index_between (12 * year + 6 + 11)).
  - do 2 f_equal. lia.
  - replace (12 * year + 6 + 11 + 1) with (12 * year + 6 + 12) by lia.
    pose proof (month_length_index (12 * year + 6 + 11)).
    replace (12 * year + 6 + 11 + 1) with (12 * year + 6 + 12) in * by lia. lia.
Qed.

Lemma overlap_days_split s e a b c :
  a <= b -> b <= c ->
  overlap_days s e a (b - 1) + overlap_days s e b (c - 1)
  = overlap_days s e a (c - 1).
Proof. unfold overlap_days. lia. Qed.

Lemma overlap_days_empty s e a : overlap_days s e a (a - 1) = 0.
Proof. unfold overlap_days. lia. Qed.

Lemma overlap_days_inside s e a b :
  a <= s -> s <= e -> e <= b -> overlap_days s e a b = e - s + 1.
Proof. unfold overlap_days. lia. Qed.

Lemma inject_Z_nonzero z : z <> 0 -> Qeq_bool (inject_Z z) 0 = false.
Proof.
  intros Hz. destruct (Qeq_bool (inject_Z z) 0) eqn:E; [|reflexivity].
  apply Qeq_bool_iff in E. unfold Qeq in E. cbn in E. lia.
Qed.

(** The amount allocated to a window, for a range with both dates, the
    end not before the start. *)
Lemma allocate_value_dates (value : Q) s e a b :
  s <= e ->
  exists q, allocate_value value (Date s) (Date e) a b = Ok q /\
    (q == value * (inject_Z (overlap_days s e a b) / inject_Z (e - s + 1)))%Q.
Proof.
  intros Hse. unfold allocate_value, overlap_days. cbn [fzero fmul int_truediv exact]. cbn [coerce_date].
  destruct (Z.gtb_spec s b) as [H1 | H1]; cbn [orb].
  { exists 0%Q. split; [reflexivity|]. rewrite Z.max_l by lia.
    unfold Qdiv. rewrite Qmult_0_l, Qmult_0_r. reflexivity. }
  destruct (Z.ltb_spec e a) as [H2 | H2].
  { exists 0%Q. split; [reflexivity|]. rewrite Z.max_l by lia.
    unfold Qdiv. rewrite Qmult_0_l, Qmult_0_r. reflexivity. }
  destruct (Z.gtb_spec (Z.max s a) (Z.min e b)) as [H3 | H3].
  { exists 0%Q. split; [reflexivity|]. rewrite Z.max_l by lia.
    unfold Qdiv. rewrite Qmult_0_l, Qmult_0_r. reflexivity. }
  destruct (Z.leb_spec (e - s + 1) 0) as [H4 | H4]; [lia|].
  unfold truediv. rewrite inject_Z_nonzero by lia. cbn.
  eexists. split; [reflexivity|]. rewrite (Z.max_r 0) by lia. reflexivity.
Qed.

(** The same in any arithmetic: the amount is made of the two day counts. *)
Lemma allocate_value_days {F : Type} `{Float F} (value : F) s e a b :
  s <= e ->
  allocate_value value (Date s) (Date e) a b
  = if overlap_days s e a b =? 0 then Ok fzero
    else ratio ← int_truediv (overlap_days s e a b) (e - s + 1);
         Ok (fmul value ratio).
Proof.
  intros Hse. unfold allocate_value, overlap_days. cbn [coerce_date].
  destruct (Z.gtb_spec s b) as [H1 | H1]; cbn [orb].
  { rewrite Z.max_l by lia. reflexivity. }
  destruct (Z.ltb_spec e a) as [H2 | H2].
  { rewrite Z.max_l by lia. reflexivity. }
  destruct (Z.gtb_spec (Z.max s a) (Z.min e b)) as [H3 | H3].
  { rewrite Z.max_l by lia. reflexivity. }
  destruct (Z.leb_spec (e - s + 1) 0) as [H4 | H4]; [lia|].
  rewrite (Z.max_r 0) by lia.
  destruct (Z.eqb_spec (Z.min e b - Z.max s a + 1) 0) as [H5 | H5]; [lia|].
  reflexivity.
Qed.

(** The days of a project in a run of months, month by month. *)
Lemma sum_days_run s e k (n : nat) :
  sum_days ((fun m => overlap_days s e m (month_end_of m))
            <$> (month_start_of_index <$> seqZ k (Z.of_nat n)))
  = overlap_days s e (month_start_of_index k)
      (month_start_of_index (k + Z.of_nat n) - 1).
Proof.
  revert k. induction n as [|n IH]; intros k.
  - rewrite Z.add_0_r, overlap_days_empty. reflexivity.
  - rewrite seqZ_cons by lia.
    replace (Z.pred (Z.of_nat (S n))) with (Z.of_nat n) by lia.
    rewrite !fmap_cons. unfold sum_days in *. cbn [foldr]. rewrite IH.
    rewrite month_end_of_index.
    replace (Z.succ k + Z.of_nat n) with (k + Z.of_nat (S n)) by lia.
    replace (Z.succ k) with (k + 1) by lia.
    apply overlap_days_split.
    + pose proof (month_length_index k). lia.
    + pose proof (month_start_of_index_mono (k + 1) (k + Z.of_nat (S n)) ltac:(lia)).
      lia.
Qed.

Lemma allocated_in_months_run (value : Q) s e k (n : nat) :
  s <= e ->
  exists total,
    allocated_in_months value (Date s) (Date e)
      (month_start_of_index <$> seqZ k (Z.of_nat n)) = Ok total /\
    (total == value *
       (inject_Z (overlap_days s e (month_start_of_index k)
                    (month_start_of_index (k + Z.of_nat n) - 1))
        / inject_Z (e - s + 1)))%Q.
Proof.
  intros Hse. revert k. induction n as [|n IH]; intros k.
  - exists 0%Q. split; [reflexivity|].
    rewrite Z.add_0_r, overlap_days_empty.
    unfold Qdiv. rewrite Qmult_0_l, Qmult_0_r. reflexivity.
  - rewrite seqZ_cons by lia.
    replace (Z.pred (Z.of_nat (S n))) with (Z.of_nat n) by lia.
    destruct (IH (Z.succ k)) as (rest & Hrest & Hq).
    destruct (allocate_value_dates value s e (month_start_of_index k)
                (month_end_of (month_start_of_index k)) Hse) as (q & Hal & Hqq).
    unfold allocated_in_months in *. rewrite !fmap_cons. cbn [sum_results]. cbn [fzero fadd exact].
    rewrite Hal. cbn [mbind result_bind]. rewrite Hrest. cbn [mbind result_bind].
    eexists. split; [reflexivity|].
    rewrite Hqq, Hq. rewrite month_end_of_index.
    replace (Z.succ k + Z.of_nat n) with (k + Z.of_nat (S n)) by lia.
    replace (Z.succ k) with (k + 1) by lia.
    rewrite <- (overlap_days_split s e (month_start_of_index k)
                  (month_start_of_index (k + 1))
                  (month_start_of_index (k + Z.of_nat (S n)))).
    + assert (~ inject_Z (e - s + 1) == 0)%Q as HT
        by (intros Hz; unfold Qeq in Hz; cbn in Hz; lia).
      set (T := inject_Z (e - s + 1)) in *.
      rewrite inject_Z_plus. field. exact HT.
    + pose proof (month_length_index k). lia.
    + pose proof (month_start_of_index_mono (k + 1) (k + Z.of_nat (S n)) ltac:(lia)).
      lia.
Qed.

End ProrationFacts.

(** ** No computation of the core raises *)

Module TotalityFacts.
Import Calendar Py App Notions.

Lemma allocate_value_total (value : Q) start stop month_start month_end :
  exists q, allocate_value value start stop month_start month_end = Ok q.
Proof.
  unfold allocate_value. cbn [fzero fmul int_truediv exact].
  destruct (coerce_date start) as [s|]; [|eauto].
  destruct (coerce_date stop) as [e|]; [|eauto].
  destruct (_ || _); [eauto|].
  destruct (_ >? _); [eauto|].
  destruct (Z.leb_spec (e - s + 1) 0) as [H | H]; [eauto|].
  unfold truediv. rewrite ProrationFacts.inject_Z_nonzero by lia.
  cbn [mbind result_bind]. eauto.
Qed.

Lemma sum_rows_total (f : Row -> result Q) df acc :
  (forall row, exists q, f row = Ok q) ->
  exists total, sum_rows f df acc = Ok total.
Proof.
  intros Hf. revert acc. induction df as [|row rest IH]; intros acc; cbn [sum_rows].
  - eauto.
  - destruct (Hf row) as [q ->]. cbn [mbind result_bind]. apply IH.
Qed.

Lemma truthy_zero x : (x == 0)%Q -> truthy x = false.
Proof.
  intros Hx. unfold truthy. apply Qeq_bool_iff in Hx. rewrite Hx. reflexivity.
Qed.

Lemma truthy_nonzero x : truthy x = true -> Qeq_bool x 0 = false.
Proof. unfold truthy. destruct (Qeq_bool x 0); [discriminate | reflexivity]. Qed.

(** The record of a month is always computed; its margin is 0 when its
    revenue is zero. *)
Lemma month_record_total df month_start :
  exists bucket,
    month_record df month_start = Ok bucket /\
    month bucket = month_start /\
    ((revenue bucket == 0)%Q -> gross_margin bucket = 0%Q).
Proof.
  unfold month_record.
  repeat match goal with
    | |- context [sum_rows ?f df ?acc] =>
        let H := fresh "H" in
        let x := fresh "x" in
        destruct (sum_rows_total f df acc) as [x H];
        [intros row; apply allocate_value_total |];
        rewrite H; cbn [mbind result_bind]; clear H
    end.
  match goal with |- context [truthy ?r] => destruct (truthy r) eqn:Et end.
  - unfold truediv. rewrite (truthy_nonzero _ Et). cbn [mbind result_bind].
    eexists. split; [reflexivity|]. split; [reflexivity|]. cbn [revenue gross_margin].
    intros Hx. rewrite (truthy_zero _ Hx) in Et. discriminate.
  - cbn [mbind result_bind].
    eexists. split; [reflexivity|]. split; [reflexivity|]. cbn [revenue gross_margin].
    reflexivity.
Qed.

Lemma month_records_total df months :
  exists records,
    month_records df months = Ok records /\ month <$> records = months.
Proof.
  induction months as [|m rest IH]; cbn [month_records].
  - exists []. split; reflexivity.
  - destruct (month_record_total df m) as (b & -> & Hm & _).
    destruct IH as (bs & -> & Hbs). cbn [mbind result_bind].
    exists (b :: bs). split; [reflexivity|]. rewrite fmap_cons, Hm, Hbs. reflexivity.
Qed.

Lemma calculate_expected_progress_total row today :
  exists q, calculate_expected_progress row today = Ok q.
Proof.
  unfold calculate_expected_progress.
  destruct (option_or _ _) as [s|]; [|eauto].
  destruct (coerce_date (planned_end row)) as [e|]; [|eauto].
  destruct (Z.geb_spec s e) as [H | H]; [eauto|].
  destruct (_ <=? _); [eauto|].
  destruct (_ >=? _); [eauto|].
  unfold truediv. rewrite ProrationFacts.inject_Z_nonzero by lia.
  cbn [mbind result_bind]. eauto.
Qed.

Lemma enrich_row_total today row :
  exists e, enrich_row today row = Ok e /\ source_row e = row /\
    cost_ratio e =
      np_where (negb (Qeq_bool (order_amount row) 0))
        ((fun q => q * 100)%Q <$> np_truediv (planned_cost row) (order_amount row))
        (Some 0%Q).
Proof.
  unfold enrich_row.
  destruct (calculate_expected_progress_total row today) as [q ->].
  cbn [mbind result_bind].
  destruct (determine_risk_level _) as [level comment].
  eexists. split; [reflexivity|]. split; reflexivity.
Qed.

Lemma enrich_rows_total today df :
  exists es, enrich_rows today df = Ok es /\
    Forall2 (fun row e => enrich_row today row = Ok e) df es.
Proof.
  induction df as [|row rest IH]; cbn [enrich_rows].
  - exists []. split; [reflexivity | constructor].
  - destruct (enrich_row_total today row) as (e & He & _).
    destruct IH as (es & -> & Hes). rewrite He. cbn [mbind result_bind].
    exists (e :: es). split; [reflexivity|]. constructor; assumption.
Qed.

Lemma cost_ratio_zero today row e :
  enrich_row today row = Ok e ->
  (order_amount row == 0)%Q -> cost_ratio e = Some 0%Q.
Proof.
  intros He Hz. destruct (enrich_row_total today row) as (e' & He' & _ & Hc).
  rewrite He in He'. injection He' as <-. rewrite Hc.
  apply Qeq_bool_iff in Hz. rewrite Hz. reflexivity.
Qed.

End TotalityFacts.

(** ** Expected progress *)

Module ProgressFacts.
Import Calendar Py App Notions.

Local Open Scope Q_scope.

Lemma clamp_in_range x : 0 <= x -> x <= 100 -> max 0 (min 100 x) == x.
Proof.
  intros H0 H100. unfold max, min.
  destruct (Qlt_le_dec x 100); destruct (Qlt_le_dec 0 _); Lqa.lra.
Qed.

Lemma clamp_bounds x : 0 <= max 0 (min 100 x) <= 100.
Proof.
  unfold max, min.
  destruct (Qlt_le_dec x 100); destruct (Qlt_le_dec 0 _); Lqa.lra.
Qed.

Lemma ratio_bounds (a k : Z) :
  (0 <= a <= k)%Z -> (0 < k)%Z ->
  0 <= inject_Z a / inject_Z k * 100 <= 100.
Proof.
  intros Ha Hk.
  assert (0 < inject_Z k) as Hk' by (rewrite <- (Zlt_Qlt 0); exact Hk).
  assert (0 <= inject_Z a) as Ha0 by (rewrite <- (Zle_Qle 0); lia).
  assert (inject_Z a <= inject_Z k) as Hak by (rewrite <- Zle_Qle; lia).
  assert (0 <= inject_Z a / inject_Z k).
  { apply Qle_shift_div_l; [exact Hk'|]. Lqa.lra. }
  assert (inject_Z a / inject_Z k <= 1).
  { apply Qle_shift_div_r; [exact Hk'|]. Lqa.lra. }
  Lqa.lra.
Qed.

Lemma ratio_mono (a b k : Z) :
  (a <= b)%Z -> (0 < k)%Z ->
  inject_Z a / inject_Z k * 100 <= inject_Z b / inject_Z k * 100.
Proof.
  intros Hab Hk.
  assert (0 < inject_Z k) as Hk' by (rewrite <- (Zlt_Qlt 0); exact Hk).
  assert (inject_Z a <= inject_Z b) as Hab' by (rewrite <- Zle_Qle; exact Hab).
  assert (inject_Z a / inject_Z k <= inject_Z b / inject_Z k).
  { unfold Qdiv. apply Qmult_le_compat_r; [exact Hab'|].
    apply Qinv_le_0_compat. Lqa.lra. }
  Lqa.lra.
Qed.

Lemma progress_at_bounds s e today :
  (s < e)%Z -> 0 <= progress_at s e today <= 100.
Proof.
  intros Hse. unfold progress_at.
  destruct (_ <=? _)%Z; [Lqa.lra|]. destruct (_ >=? _)%Z; [Lqa.lra|].
  apply clamp_bounds.
Qed.

Lemma progress_at_mono s e t1 t2 :
  (s < e)%Z -> (t1 <= t2)%Z -> progress_at s e t1 <= progress_at s e t2.
Proof.
  intros Hse Ht.
  pose proof (progress_at_bounds s e t1 Hse) as B1.
  pose proof (progress_at_bounds s e t2 Hse) as B2.
  unfold progress_at in *.
  destruct (Z.leb_spec t1 s) as [H1 | H1]; [Lqa.lra|].
  destruct (Z.leb_spec t2 s) as [H2 | H2]; [lia|].
  destruct (Z.geb_spec t2 e) as [H3 | H3]; [Lqa.lra|].
  destruct (Z.geb_spec t1 e) as [H4 | H4]; [lia|].
  rewrite !clamp_in_range; try (apply ratio_bounds; lia).
  apply ratio_mono; lia.
Qed.

Lemma calculate_expected_progress_dates row today s e :
  option_or (coerce_date (planned_start row)) (coerce_date (actual_start row)) = Some s ->
  coerce_date (planned_end row) = Some e ->
  (s < e)%Z ->
  calculate_expected_progress row today = Ok (progress_at s e today).
Proof.
  intros Hs He Hse. unfold calculate_expected_progress, progress_at.
  rewrite Hs, He.
  destruct (Z.geb_spec s e) as [H | H]; [lia|].
  destruct (_ <=? _)%Z; [reflexivity|].
  destruct (_ >=? _)%Z; [reflexivity|].
  unfold truediv. rewrite ProrationFacts.inject_Z_nonzero by lia.
  reflexivity.
Qed.

Lemma calculate_expected_progress_no_span row today :
  match option_or (coerce_date (planned_start row)) (coerce_date (actual_start row)),
        coerce_date (planned_end row) with
  | Some s, Some e => (s >= e)%Z
  | _, _ => True
  end ->
  calculate_expected_progress row today = Ok 0.
Proof.
  unfold calculate_expected_progress.
  destruct (option_or _ _) as [s|]; [|reflexivity].
  destruct (coerce_date (planned_end row)) as [e|]; [|reflexivity].
  intros H. destruct (Z.geb_spec s e); [reflexivity | lia].
Qed.

End ProgressFacts.

(** ** Risk classification *)

Module RiskFacts.
Import Py App Notions.

Lemma rank_LOW : risk_rank LOW = 0. Proof. reflexivity. Qed.
Lemma rank_MID : risk_rank MID = 1. Proof. reflexivity. Qed.
Lemma rank_HIGH : risk_rank HIGH = 2. Proof. reflexivity. Qed.

Lemma rank_bounds level : valid_level level -> 0 <= risk_rank level <= 2.
Proof. intros [-> | [-> | ->]]; vm_compute; split; discriminate. Qed.

Lemma risk_order_valid level rank :
  risk_order level = Some rank -> valid_level level /\ risk_rank level = rank.
Proof.
  unfold risk_rank, risk_order, valid_level, str_eqb.
  repeat case_bool_decide; intros Heq; inversion Heq; subst; cbn; auto.
Qed.

Lemma snoc_not_nil {A} (l : list A) x : l ++ [x] = [] -> False.
Proof. destruct l; discriminate. Qed.

Ltac solve_step :=
  repeat split; cbn [fst snd];
  first
    [ solve [unfold valid_level; auto]
    | solve [intros Hnil; exfalso; exact (snoc_not_nil _ _ Hnil)]
    | solve [auto]
    | idtac ].

Lemma rule_budget_step row st : risk_inv st -> risk_step st (rule_budget row st).
Proof.
  destruct st as [level reasons]. intros [Hv Hn]. unfold rule_budget, risk_step, risk_inv.
  destruct (over_budget row); solve_step.
  - rewrite rank_HIGH. pose proof (rank_bounds level Hv). cbn in *. lia.
  - lia.
Qed.

Lemma rule_progress_step row st : risk_inv st -> risk_step st (rule_progress row st).
Proof.
  destruct st as [level reasons]. intros [Hv Hn]. unfold rule_progress, risk_step, risk_inv.
  destruct (Qltb (progress_gap row) (-30)); [|destruct (_ && _) eqn:E]; solve_step.
  - rewrite rank_HIGH. pose proof (rank_bounds level Hv). cbn in *. lia.
  - apply andb_true_iff in E as [_ E]. apply Z.ltb_lt in E. lia.
  - lia.
Qed.

Lemma rule_delay_step row st : risk_inv st -> risk_step st (rule_delay row st).
Proof.
  destruct st as [level reasons]. intros [Hv Hn]. unfold rule_delay, risk_step, risk_inv.
  destruct (Qltb 0 (delay_days row)); solve_step.
  - rewrite rank_HIGH. pose proof (rank_bounds level Hv). cbn in *. lia.
  - lia.
Qed.

Lemma rule_manual_step row st : risk_inv st -> risk_step st (rule_manual row st).
Proof.
  destruct st as [level reasons]. intros [Hv Hn]. unfold rule_manual, risk_step, risk_inv.
  destruct (risk_order (strip (manual_level_raw row))) as [rank|] eqn:Eo;
    [|solve_step; lia].
  apply risk_order_valid in Eo as [Hm Hr].
  set (manual := strip (manual_level_raw row)) in *.
  destruct (Z.gtb_spec rank (risk_rank level)) as [Hgt | Hle].
  - assert (manual <> [] /\ manual <> LOW) as [Hne Hnl].
    { pose proof (rank_bounds level Hv).
      destruct Hm as [-> | [-> | ->]]; vm_compute in Hr; subst rank;
        split; try discriminate; lia. }
    unfold str_eqb. rewrite !bool_decide_eq_false_2 by assumption.
    cbn [negb andb]. solve_step. cbn in *. lia.
  - destruct (_ && _); solve_step; lia.
Qed.

Lemma rule_memo_step row st : risk_inv st -> risk_step st (rule_memo row st).
Proof.
  destruct st as [level reasons]. intros [Hv Hn]. unfold rule_memo, risk_step, risk_inv.
  destruct reasons as [|r rs]; [destruct (text_truthy (memo row))|]; solve_step;
    try lia.
  cbn [fst snd] in Hn. rewrite (Hn eq_refl), rank_LOW, rank_MID. lia.
Qed.

Lemma risk_inv_init : risk_inv (LOW, []).
Proof. split; cbn; [left|]; reflexivity. Qed.

(** The level after the last rule is the level [determine_risk_level]
    returns. *)
Lemma determine_risk_level_final row :
  (determine_risk_level row).1
  = (rule_memo row (rule_manual row (rule_delay row (rule_progress row
       (rule_budget row (LOW, [])))))).1.
Proof.
  unfold determine_risk_level. destruct (rule_memo _ _) as [level reasons].
  reflexivity.
Qed.

Lemma Qltb_true a b : (a < b)%Q -> Qltb a b = true.
Proof.
  intros H. unfold Qltb. destruct (Qle_bool b a) eqn:E; [|reflexivity].
  apply Qle_bool_iff in E. exfalso. exact (Qlt_not_le _ _ H E).
Qed.

Lemma rank_top level : valid_level level -> 2 <= risk_rank level -> level = HIGH.
Proof.
  intros [-> | [-> | ->]]; rewrite ?rank_LOW, ?rank_MID; intros H;
    first [reflexivity | lia].
Qed.

(** The five rules in order: each keeps the invariant and does not lower
    the severity. *)
Lemma risk_chain row :
  let s1 := rule_budget row (LOW, []) in
  let s2 := rule_progress row s1 in
  let s3 := rule_delay row s2 in
  let s4 := rule_manual row s3 in
  let s5 := rule_memo row s4 in
  risk_step (LOW, []) s1 /\ risk_step s1 s2 /\ risk_step s2 s3 /\
  risk_step s3 s4 /\ risk_step s4 s5.
Proof.
  intros s1 s2 s3 s4 s5.
  pose proof (rule_budget_step row _ risk_inv_init) as H1.
  pose proof (rule_progress_step row _ (proj1 H1)) as H2.
  pose proof (rule_delay_step row _ (proj1 H2)) as H3.
  pose proof (rule_manual_step row _ (proj1 H3)) as H4.
  pose proof (rule_memo_step row _ (proj1 H4)) as H5.
  repeat split; first [apply H1 | apply H2 | apply H3 | apply H4 | apply H5].
Qed.

(** A rule that sets the level to the highest. *)
Lemma budget_sets_high row st :
  over_budget row = true -> (rule_budget row st).1 = HIGH.
Proof. destruct st. unfold rule_budget. intros ->. reflexivity. Qed.

Lemma progress_sets_high row st :
  (progress_gap row < -30)%Q -> (rule_progress row st).1 = HIGH.
Proof.
  destruct st. unfold rule_progress. intros H. rewrite (Qltb_true _ _ H). reflexivity.
Qed.

Lemma delay_sets_high row st :
  (0 < delay_days row)%Q -> (rule_delay row st).1 = HIGH.
Proof.
  destruct st. unfold rule_delay. intros H. rewrite (Qltb_true _ _ H). reflexivity.
Qed.

Lemma manual_sets_high row st :
  manual_level_raw row = HIGH -> valid_level st.1 ->
  (rule_manual row st).1 = HIGH.
Proof.
  destruct st as [l r]. unfold rule_manual. intros -> Hv.
  change (strip HIGH) with HIGH. change (risk_order HIGH) with (Some 2).
  change (negb (str_eqb HIGH []) && negb (str_eqb HIGH LOW)) with true.
  cbn [fst snd] in *.
  destruct (Z.gtb_spec 2 (risk_rank l)); cbn [fst]; [reflexivity|].
  apply rank_top; assumption.
Qed.

(** Adjacent components of a list of six. *)
Lemma adjacent_six {A} (a0 a1 a2 a3 a4 a5 : A) (P : A -> A -> Prop) i x y :
  P a0 a1 -> P a1 a2 -> P a2 a3 -> P a3 a4 -> P a4 a5 ->
  [a0; a1; a2; a3; a4; a5] !! i = Some x ->
  [a0; a1; a2; a3; a4; a5] !! S i = Some y -> P x y.
Proof.
  intros H0 H1 H2 H3 H4 Hi Hi'.
  destruct i as [|[|[|[|[|i]]]]]; cbn in Hi, Hi'; try discriminate;
    injection Hi as <-; injection Hi' as <-; assumption.
Qed.

Lemma Qltb_false a b : (b <= a)%Q -> Qltb a b = false.
Proof.
  intros H. unfold Qltb. apply Qle_bool_iff in H. rewrite H. reflexivity.
Qed.

Lemma Qltb_spec a b : (Qltb a b = true <-> (a < b)%Q) /\ (Qltb a b = false <-> (b <= a)%Q).
Proof.
  unfold Qltb. destruct (Qle_bool b a) eqn:E; cbn [negb].
  - apply Qle_bool_iff in E. repeat split; try discriminate; auto.
    intros H. exfalso. exact (Qlt_not_le _ _ H E).
  - assert (~ (b <= a)%Q) as Hn
      by (intros H; apply Qle_bool_iff in H; congruence).
    apply Qnot_le_lt in Hn. repeat split; auto; try discriminate.
    intros H. exfalso. exact (Qlt_not_le _ _ Hn H).
Qed.

Lemma high_not_low : HIGH <> LOW. Proof. vm_compute. discriminate. Qed.
Lemma mid_not_low : MID <> LOW. Proof. vm_compute. discriminate. Qed.
Lemma mid_not_high : MID <> HIGH. Proof. vm_compute. discriminate. Qed.

Lemma budget_quiet row st :
  reasons_inv st ->
  reasons_inv (rule_budget row st) /\
  ((rule_budget row st).2 = [] <-> st.2 = [] /\ over_budget row = false).
Proof.
  destruct st as [level reasons]. unfold reasons_inv, rule_budget. cbn [fst snd].
  intros Hinv. destruct (over_budget row); cbn [fst snd].
  - split; [intros H; destruct (high_not_low H)|]. split.
    + intros H. destruct (snoc_not_nil _ _ H).
    + intros [_ H]. discriminate.
  - tauto.
Qed.

Lemma progress_quiet row st :
  risk_inv st -> reasons_inv st ->
  reasons_inv (rule_progress row st) /\
  ((rule_progress row st).2 = [] <-> st.2 = [] /\ (-10 <= progress_gap row)%Q).
Proof.
  destruct st as [level reasons]. unfold reasons_inv, risk_inv, rule_progress.
  cbn [fst snd]. intros [Hv Hlow] Hinv.
  destruct (Qltb_spec (progress_gap row) (-30)) as [T30 F30].
  destruct (Qltb_spec (progress_gap row) (-10)) as [T10 F10].
  destruct (Qltb (progress_gap row) (-30)) eqn:E30; cbn [fst snd].
  { assert (progress_gap row < -30)%Q as H30 by (apply T30; reflexivity).
    split; [intros H; destruct (high_not_low H)|]. split.
    - intros H. destruct (snoc_not_nil _ _ H).
    - intros [_ H]. exfalso. Lqa.lra. }
  destruct (Qltb (progress_gap row) (-10)) eqn:E10; cbn [andb fst snd].
  - assert (progress_gap row < -10)%Q as H10 by (apply T10; reflexivity).
    destruct (Z.ltb_spec (risk_rank level) (risk_rank MID)) as [Hr | Hr]; cbn [fst snd].
    + split; [intros H; destruct (mid_not_low H)|]. split.
      * intros H. destruct (snoc_not_nil _ _ H).
      * intros [_ H]. exfalso. Lqa.lra.
    + split; [exact Hinv|]. split.
      * intros H. specialize (Hlow H). subst level.
        rewrite rank_LOW, rank_MID in Hr. lia.
      * intros [_ H]. exfalso. Lqa.lra.
  - assert (-10 <= progress_gap row)%Q as H10 by (apply F10; reflexivity).
    split; [exact Hinv|]. tauto.
Qed.

Lemma delay_quiet row st :
  reasons_inv st ->
  reasons_inv (rule_delay row st) /\
  ((rule_delay row st).2 = [] <-> st.2 = [] /\ (delay_days row <= 0)%Q).
Proof.
  destruct st as [level reasons]. unfold reasons_inv, rule_delay. cbn [fst snd].
  intros Hinv. destruct (Qltb_spec 0 (delay_days row)) as [T F].
  destruct (Qltb 0 (delay_days row)) eqn:E; cbn [fst snd].
  - assert (0 < delay_days row)%Q as H by (apply T; reflexivity).
    split; [intros H'; destruct (high_not_low H')|]. split.
    + intros H'. destruct (snoc_not_nil _ _ H').
    + intros [_ H']. exfalso. Lqa.lra.
  - assert (delay_days row <= 0)%Q as H by (apply F; reflexivity).
    split; [exact Hinv|]. tauto.
Qed.

Lemma manual_quiet row st :
  risk_inv st -> reasons_inv st ->
  reasons_inv (rule_manual row st) /\
  ((rule_manual row st).2 = [] <->
   st.2 = [] /\ strip (manual_level_raw row) <> MID /\
   strip (manual_level_raw row) <> HIGH) /\
  (forall rank, risk_order (strip (manual_level_raw row)) = Some rank ->
     rank <= risk_rank (rule_manual row st).1).
Proof.
  destruct st as [level reasons]. unfold reasons_inv, risk_inv, rule_manual.
  cbn [fst snd]. intros [Hv Hlow] Hinv.
  set (manual := strip (manual_level_raw row)).
  destruct (risk_order manual) as [rank|] eqn:Eo.
  2: { cbn [fst snd]. split; [exact Hinv|]. split; [|intros rank H; discriminate].
       split; [|tauto]. intros H. split; [exact H|].
       split; intros ->; vm_compute in Eo; discriminate. }
  apply risk_order_valid in Eo as [Hm Hr].
  pose proof (rank_bounds level Hv) as Hb.
  destruct Hm as [Em | [Em | Em]]; rewrite Em in *;
    [rewrite rank_LOW in Hr | rewrite rank_MID in Hr | rewrite rank_HIGH in Hr];
    subst rank.
  - (* the manual level is the lowest *)
    change (negb (str_eqb LOW []) && negb (str_eqb LOW LOW)) with false. cbv iota.
    destruct (Z.gtb_spec 0 (risk_rank level)) as [Hgt | Hle]; [lia|]. cbn [fst snd].
    split; [exact Hinv|]. split; [|intros rank [= <-]; lia].
    split; [|tauto]. intros Hnil. split; [exact Hnil|].
    split; [intros H'; symmetry in H'; destruct (mid_not_low H')
           |intros H'; symmetry in H'; destruct (high_not_low H')].
  - change (negb (str_eqb MID []) && negb (str_eqb MID LOW)) with true. cbv iota.
    destruct (Z.gtb_spec 1 (risk_rank level)) as [Hgt | Hle]; cbn [fst snd].
    + split; [intros H; destruct (mid_not_low H)|]. split.
      * split; [intros H; destruct (snoc_not_nil _ _ H) | tauto].
      * intros rank [= <-]. rewrite rank_MID. lia.
    + split.
      * intros ->. rewrite rank_LOW in Hle. lia.
      * split; [split; [intros H; destruct (snoc_not_nil _ _ H) | tauto]|].
        intros rank [= <-]. lia.
  - change (negb (str_eqb HIGH []) && negb (str_eqb HIGH LOW)) with true. cbv iota.
    destruct (Z.gtb_spec 2 (risk_rank level)) as [Hgt | Hle]; cbn [fst snd].
    + split; [intros H; destruct (high_not_low H)|]. split.
      * split; [intros H; destruct (snoc_not_nil _ _ H) | tauto].
      * intros rank [= <-]. rewrite rank_HIGH. lia.
    + split.
      * intros ->. rewrite rank_LOW in Hle. lia.
      * split; [split; [intros H; destruct (snoc_not_nil _ _ H) | tauto]|].
        intros rank [= <-]. lia.
Qed.

Lemma memo_quiet row st :
  reasons_inv st ->
  ((rule_memo row st).1 = LOW <-> st.1 = LOW /\ text_truthy (memo row) = false) /\
  ((rule_memo row st).1 = LOW -> (rule_memo row st).2 = []).
Proof.
  destruct st as [level reasons]. unfold reasons_inv, rule_memo. cbn [fst snd].
  intros Hinv. destruct reasons as [|r rs].
  - destruct (text_truthy (memo row)); cbn [fst snd].
    + split; [|intros H; destruct (mid_not_low H)].
      split; [intros H; destruct (mid_not_low H) | intros [_ H]; discriminate].
    + tauto.
  - cbn [fst snd]. split; [|exact Hinv].
    split; [intros H; specialize (Hinv H); discriminate | tauto].
Qed.

Lemma risk_comment_single (reason : str) :
  reason <> [] -> risk_comment [reason] = reason.
Proof.
  intros Hne. unfold risk_comment.
  rewrite filter_cons_True by exact Hne. rewrite filter_nil.
  cbn [fromkeys]. rewrite bool_decide_eq_false_2 by apply not_elem_of_nil.
  cbn [join]. destruct reason; [contradiction | reflexivity].
Qed.

Lemma determine_risk_level_pair row :
  let final := rule_memo row (rule_manual row (rule_delay row (rule_progress row
                 (rule_budget row (LOW, []))))) in
  determine_risk_level row = (final.1, risk_comment final.2).
Proof.
  cbv zeta. unfold determine_risk_level.
  destruct (rule_memo _ _) as [level reasons]. reflexivity.
Qed.

Lemma risk_high_of_trigger row :
  over_budget row = true \/ (progress_gap row < -30)%Q \/ (0 < delay_days row)%Q ->
  (determine_risk_level row).1 = HIGH.
Proof.
  intros Htrigger. rewrite determine_risk_level_final.
  pose proof (risk_chain row) as Hchain. cbv zeta in Hchain.
  destruct Hchain as ([I1 R1] & [I2 R2] & [I3 R3] & [I4 R4] & [I5 R5]).
  apply rank_top; [apply I5|].
  destruct Htrigger as [Hb | [Hp | Hd]].
  - rewrite (budget_sets_high row _ Hb), rank_HIGH in R2. lia.
  - rewrite (progress_sets_high row _ Hp), rank_HIGH in R3. lia.
  - rewrite (delay_sets_high row _ Hd), rank_HIGH in R4. lia.
Qed.

End RiskFacts.

(** ** The domain of the time axes *)

Module AxisFacts.
Import Calendar CalendarFacts MonthFacts Py App Notions.

Lemma month_floor_first t : first_of_month (month_floor t).
Proof.
  unfold first_of_month. rewrite month_floor_index. apply day_of_month_start.
Qed.

Lemma month_end_last t : last_of_month (add_month (month_floor t) - 1).
Proof.
  rewrite month_end_of_unfold.
  pose proof (ord2ymd_valid t) as [Hm _].
  unfold month_floor. rewrite month_end_of_first by exact Hm.
  unfold last_of_month, day_of, year_of, month_of.
  rewrite ord2ymd_ymd2ord by (apply valid_last; exact Hm). reflexivity.
Qed.

Lemma foldl_min_le x l : foldl Z.min x l <= x /\ forall y, y ∈ l -> foldl Z.min x l <= y.
Proof.
  revert x. induction l as [|a l IH]; intros x; cbn [foldl].
  - split; [lia|]. intros y Hy. inversion Hy.
  - destruct (IH (Z.min x a)) as [H1 H2]. split; [lia|].
    intros y Hy. apply elem_of_cons in Hy as [-> | Hy]; [lia | auto].
Qed.

Lemma foldl_max_ge x l : x <= foldl Z.max x l /\ forall y, y ∈ l -> y <= foldl Z.max x l.
Proof.
  revert x. induction l as [|a l IH]; intros x; cbn [foldl].
  - split; [lia|]. intros y Hy. inversion Hy.
  - destruct (IH (Z.max x a)) as [H1 H2]. split; [lia|].
    intros y Hy. apply elem_of_cons in Hy as [-> | Hy]; [lia | auto].
Qed.

Lemma series_min_spec l :
  match series_min l with
  | Some m => forall y, y ∈ l -> m <= y
  | None => l = []
  end.
Proof.
  destruct l as [|x l]; cbn [series_min]; [reflexivity|].
  destruct (foldl_min_le x l) as [H1 H2].
  intros y Hy. apply elem_of_cons in Hy as [-> | Hy]; auto.
Qed.

Lemma series_max_spec l :
  match series_max l with
  | Some m => forall y, y ∈ l -> y <= m
  | None => l = []
  end.
Proof.
  destruct l as [|x l]; cbn [series_max]; [reflexivity|].
  destruct (foldl_max_ge x l) as [H1 H2].
  intros y Hy. apply elem_of_cons in Hy as [-> | Hy]; auto.
Qed.

Lemma elem_of_dropna (series : list (option Z)) y :
  y ∈ dropna series <-> Some y ∈ series.
Proof.
  unfold dropna. rewrite list_elem_of_omap. split.
  - intros (o & Ho & ->). exact Ho.
  - intros H. exists (Some y). split; [exact H | reflexivity].
Qed.

(** The first and the last day the axis has to show, before the buffer. *)
Lemma time_domain_spec tasks fallback_start fallback_end :
  exists start_ts end_ts,
    time_domain tasks (fallback_start, fallback_end)
    = (month_floor (start_ts - 3), add_month (month_floor (end_ts + 3)) - 1) /\
    start_ts <= end_ts /\
    start_ts <= fallback_start /\ fallback_end <= end_ts /\
    forall row, row ∈ tasks ->
      (forall s, to_datetime (planned_start row) = Some s -> start_ts <= s) /\
      (forall e, to_datetime (planned_end row) = Some e -> e <= end_ts).
Proof.
  unfold time_domain.
  set (starts := dropna ((fun row => to_datetime (planned_start row)) <$> tasks)).
  set (ends := dropna ((fun row => to_datetime (planned_end row)) <$> tasks)).
  set (start_ts := match tasks, series_min starts with
                   | _ :: _, Some m => Z.min fallback_start m
                   | _, _ => fallback_start
                   end).
  set (end_ts := match tasks, series_max ends with
                 | _ :: _, Some m => Z.max fallback_end m
                 | _, _ => fallback_end
                 end).
  exists start_ts, (if start_ts >? end_ts then start_ts else end_ts).
  split; [reflexivity|].
  assert (start_ts <= fallback_start) as Hs0.
  { subst start_ts. destruct tasks; [lia|]. destruct (series_min starts); lia. }
  assert (fallback_end <= end_ts) as He0.
  { subst end_ts. destruct tasks; [lia|]. destruct (series_max ends); lia. }
  assert (forall row, row ∈ tasks ->
            forall s, to_datetime (planned_start row) = Some s -> start_ts <= s) as Hs.
  { intros row Hrow s Hst.
    assert (s ∈ starts) as Hin.
    { subst starts. apply elem_of_dropna. rewrite <- Hst.
      apply (list_elem_of_fmap_2 (fun row => to_datetime (planned_start row))).
      exact Hrow. }
    subst start_ts. pose proof (series_min_spec starts) as Hmin.
    destruct tasks as [|r0 rest]; [inversion Hrow|].
    destruct (series_min starts) as [m|]; [specialize (Hmin s Hin); lia|].
    rewrite Hmin in Hin. inversion Hin. }
  assert (forall row, row ∈ tasks ->
            forall e, to_datetime (planned_end row) = Some e -> e <= end_ts) as He.
  { intros row Hrow e Hen.
    assert (e ∈ ends) as Hin.
    { subst ends. apply elem_of_dropna. rewrite <- Hen.
      apply (list_elem_of_fmap_2 (fun row => to_datetime (planned_end row))).
      exact Hrow. }
    subst end_ts. pose proof (series_max_spec ends) as Hmax.
    destruct tasks as [|r0 rest]; [inversion Hrow|].
    destruct (series_max ends) as [m|]; [specialize (Hmax e Hin); lia|].
    rewrite Hmax in Hin. inversion Hin. }
  destruct (Z.gtb_spec start_ts end_ts) as [Hgt | Hle].
  - repeat split; try lia.
    + intros s Hst. exact (Hs row H s Hst).
    + intros e Hen. pose proof (He row H e Hen). lia.
  - repeat split; try lia.
    + intros s Hst. exact (Hs row H s Hst).
    + intros e Hen. exact (He row H e Hen).
Qed.

Lemma gen_time_marks_domain tasks fallback :
  domain (gen_time_marks tasks fallback) = time_domain tasks fallback.
Proof.
  unfold gen_time_marks. destruct (time_domain tasks fallback) as [ds de].
  reflexivity.
Qed.

End AxisFacts.

(** ** The axis of the Gantt chart *)

Module GanttAxisFacts.
Import Calendar CalendarFacts MonthFacts Py App Notions Gantt.

Lemma build_axis_marks_spec starts ends :
  match series_min (dropna starts), series_max (dropna ends) with
  | Some s, Some e =>
      exists marks,
        _build_axis_marks starts ends = Ok marks /\
        domain_start marks = month_floor s /\
        domain_end marks = add_month (month_floor e) - 1
  | _, _ => exists msg, _build_axis_marks starts ends = Raise (ValueError msg)
  end.
Proof.
  unfold _build_axis_marks.
  destruct (series_min (dropna starts)) as [s|];
    [destruct (series_max (dropna ends)) as [e|]|]; eauto.
Qed.

End GanttAxisFacts.

(** ** Removal of duplicate marks *)

Module DedupFacts.
Import Py App Notions.

Lemma dedup_marks_snoc (generated : list (Z * str)) mark label :
  dedup_marks (generated ++ [(mark, label)])
  = <[mark := label]> (dedup_marks generated).
Proof. unfold dedup_marks. rewrite foldl_app. reflexivity. Qed.

(** The label kept for a position is the label of its last occurrence in
    the generated sequence. *)
Lemma dedup_marks_lookup (generated : list (Z * str)) mark label :
  dedup_marks generated !! mark = Some label <->
  exists before after,
    generated = before ++ (mark, label) :: after /\ mark ∉ after.*1.
Proof.
  revert label. induction generated as [|[m l] gen IH] using rev_ind; intros label.
  - unfold dedup_marks. cbn [foldl]. rewrite lookup_empty. split; [discriminate|].
    intros (before & after & H & _). destruct before; discriminate.
  - rewrite dedup_marks_snoc. destruct (decide (m = mark)) as [-> | Hne].
    + rewrite lookup_insert_eq. split.
      * intros [= ->]. exists gen, []. split; [reflexivity|]. cbn. apply not_elem_of_nil.
      * intros (before & after & Heq & Hnot).
        destruct after as [|p after] using rev_ind.
        -- apply app_inj_tail in Heq as [_ Heq]. congruence.
        -- clear IHafter. rewrite app_comm_cons, app_assoc in Heq.
           apply app_inj_tail in Heq as [_ <-].
           exfalso. apply Hnot. rewrite fmap_app. apply elem_of_app. right.
           cbn. apply list_elem_of_here.
    + rewrite lookup_insert_ne by exact Hne. rewrite IH. split.
      * intros (before & after & -> & Hnot).
        exists before, (after ++ [(m, l)]). split.
        -- rewrite <- app_assoc. reflexivity.
        -- rewrite fmap_app. intros Hin. apply elem_of_app in Hin as [Hin | Hin];
             [exact (Hnot Hin)|]. cbn in Hin. apply list_elem_of_singleton in Hin.
           congruence.
      * intros (before & after & Heq & Hnot).
        destruct after as [|p after] using rev_ind.
        -- apply app_inj_tail in Heq as [_ Heq]. congruence.
        -- clear IHafter. rewrite app_comm_cons, app_assoc in Heq.
           apply app_inj_tail in Heq as [-> <-].
           exists before, after. split; [reflexivity|].
           intros Hin. apply Hnot. rewrite fmap_app. apply elem_of_app. left. exact Hin.
Qed.

Lemma dedup_marks_dom (generated : list (Z * str)) mark :
  is_Some (dedup_marks generated !! mark) <-> mark ∈ generated.*1.
Proof.
  induction generated as [|[m l] gen IH] using rev_ind.
  - unfold dedup_marks. cbn. rewrite lookup_empty. split.
    + intros [x Hx]. discriminate.
    + intros H. inversion H.
  - rewrite dedup_marks_snoc, fmap_app, elem_of_app. cbn.
    rewrite list_elem_of_singleton.
    destruct (decide (m = mark)) as [-> | Hne].
    + rewrite lookup_insert_eq. split; [auto | eauto].
    + rewrite lookup_insert_ne by exact Hne. rewrite IH. split; [auto|].
      intros [H | H]; [exact H | congruence].
Qed.

Lemma sorted_keys_elem (d : gmap Z str) mark :
  mark ∈ sorted_keys d <-> is_Some (d !! mark).
Proof.
  unfold sorted_keys. rewrite merge_sort_Permutation.
  rewrite list_elem_of_fmap. split.
  - intros ([k v] & -> & Hin). apply elem_of_map_to_list in Hin. cbn. eauto.
  - intros [v Hv]. exists (mark, v). split; [reflexivity|].
    apply elem_of_map_to_list. exact Hv.
Qed.

Lemma sorted_keys_NoDup (d : gmap Z str) : NoDup (sorted_keys d).
Proof.
  unfold sorted_keys. rewrite merge_sort_Permutation.
  apply NoDup_fst_map_to_list.
Qed.

Lemma sorted_keys_Sorted (d : gmap Z str) : Sorted Z.le (sorted_keys d).
Proof. unfold sorted_keys. apply (Sorted_merge_sort Z.le). Qed.

End DedupFacts.

(** ** The minor marks of the timeline *)

Module MinorFacts.
Import Calendar CalendarFacts MonthFacts Py App Notions.

Lemma ymd_of_valid y m d :
  valid_ymd y m d ->
  year_of (ymd2ord y m d) = y /\ month_of (ymd2ord y m d) = m /\
  day_of (ymd2ord y m d) = d.
Proof.
  intros Hv. unfold year_of, month_of, day_of.
  rewrite (ord2ymd_ymd2ord y m d Hv). auto.
Qed.

(** A day of the month at index [i]. *)
Lemma day_in_month i d :
  1 <= d <= days_in_month (i / 12) (i mod 12 + 1) ->
  day_of (month_start_of_index i + (d - 1)) = d /\
  month_index (month_start_of_index i + (d - 1)) = i /\
  (last_of_month (month_start_of_index i + (d - 1)) <->
   d = days_in_month (i / 12) (i mod 12 + 1)).
Proof.
  intros Hd. unfold month_start_of_index. rewrite <- ymd2ord_day.
  assert (valid_ymd (i / 12) (i mod 12 + 1) d) as Hv
    by (split; [apply index_month_range | exact Hd]).
  destruct (ymd_of_valid _ _ _ Hv) as (Hy & Hm & Hday).
  unfold last_of_month, month_index. rewrite Hy, Hm, Hday.
  split; [reflexivity|]. split; [|reflexivity].
  Z.div_mod_to_equations; lia.
Qed.

Lemma date_decompose t :
  t = month_start_of_index (month_index t) + (day_of t - 1) /\
  1 <= day_of t <= days_in_month (month_index t / 12) (month_index t mod 12 + 1).
Proof.
  pose proof (ymd2ord_ord2ymd t) as He. pose proof (ord2ymd_valid t) as [Hm Hd].
  unfold month_index.
  rewrite (index_of_ymd (year_of t) (month_of t) Hm).
  replace ((12 * year_of t + (month_of t - 1)) / 12) with (year_of t)
    by (Z.div_mod_to_equations; lia).
  replace ((12 * year_of t + (month_of t - 1)) mod 12 + 1) with (month_of t)
    by (Z.div_mod_to_equations; lia).
  rewrite ymd2ord_day in He. split; [lia | exact Hd].
Qed.

Lemma month_end_of_index_day i :
  month_end_of (month_start_of_index i)
  = month_start_of_index i + (days_in_month (i / 12) (i mod 12 + 1) - 1).
Proof.
  rewrite month_end_of_index, month_start_of_index_succ. lia.
Qed.

(** The domain in terms of month indices. *)
Lemma time_domain_index tasks fallback :
  exists a b,
    a <= b /\
    time_domain tasks fallback
    = (month_start_of_index a, month_start_of_index (b + 1) - 1).
Proof.
  destruct fallback as [fs fe].
  destruct (AxisFacts.time_domain_spec tasks fs fe)
    as (start_ts & end_ts & -> & Hord & _).
  exists (month_index (start_ts - 3)), (month_index (end_ts + 3)).
  split; [apply month_index_mono; lia|].
  rewrite !month_floor_index.
  rewrite month_end_of_unfold.
  rewrite month_end_of_index. reflexivity.
Qed.

Lemma months_of_domain a b :
  a <= b ->
  date_range_MS (month_start_of_index a) (month_start_of_index (b + 1) - 1)
  = month_start_of_index <$> seqZ a (b - a + 1).
Proof.
  intros Hab. rewrite date_range_MS_from_start.
  rewrite (ProrationFacts.month_index_between b); [reflexivity|].
  pose proof (month_length_index b). lia.
Qed.

Lemma in_domain_index a b t :
  a <= b ->
  month_start_of_index a <= t <= month_start_of_index (b + 1) - 1 ->
  a <= month_index t <= b.
Proof.
  intros Hab [Hlo Hhi].
  pose proof (month_index_mono _ _ Hlo) as H1.
  rewrite month_index_of_start in H1.
  assert (t <= month_end_of (month_start_of_index b)) as Hhi'
    by (rewrite month_end_of_index; exact Hhi).
  pose proof (month_index_mono _ _ Hhi') as H2.
  rewrite month_end_of_index in H2.
  rewrite (ProrationFacts.month_index_between b (month_start_of_index (b + 1) - 1)) in H2; [lia|].
  pose proof (month_length_index b). lia.
Qed.

Lemma index_in_domain a b i :
  a <= i <= b ->
  month_start_of_index a <= month_start_of_index i /\
  month_start_of_index (i + 1) - 1 <= month_start_of_index (b + 1) - 1.
Proof.
  intros Hi.
  pose proof (month_start_of_index_mono a i ltac:(lia)).
  pose proof (month_start_of_index_mono (i + 1) (b + 1) ltac:(lia)). lia.
Qed.

Lemma candidate_elem ds de me c (lab : str) (p : Z * str) :
  p ∈ (if (c <? ds) || (c >? de) || (c >? me) then [] else [(c, lab)]) <->
  p = (c, lab) /\ ds <= c <= de /\ c <= me.
Proof.
  destruct (Z.ltb_spec c ds), (Z.gtb_spec c de), (Z.gtb_spec c me); cbn [orb];
    rewrite ?elem_of_nil, ?list_elem_of_singleton; split; try tauto; try lia;
    intros (_ & ? & ?); lia.
Qed.

Lemma month_end_elem ds de me (lab : str) (p : Z * str) :
  p ∈ (if (me >=? ds) && (me <=? de) then [(me, lab)] else []) <->
  p = (me, lab) /\ ds <= me <= de.
Proof.
  destruct (Z.geb_spec me ds), (Z.leb_spec me de); cbn [andb];
    rewrite ?elem_of_nil, ?list_elem_of_singleton; split; try tauto; try lia;
    intros (_ & ?); lia.
Qed.

(** What one iteration of the loop generates. *)
Lemma month_minor_marks_elem ds de ms (p : Z * str) :
  p ∈ month_minor_marks ds de ms <->
  (exists day, (day = 6 \/ day = 12 \/ day = 18 \/ day = 24) /\
     p = (ms + (day - 1), str_of_Z day ++ lit "日") /\
     ds <= ms + (day - 1) <= de /\ ms + (day - 1) <= month_end_of ms) \/
  (p = (month_end_of ms, lit "月末") /\ ds <= month_end_of ms <= de).
Proof.
  unfold month_minor_marks. cbn [flat_map]. rewrite app_nil_r.
  rewrite !elem_of_app, !candidate_elem, month_end_elem.
  split.
  - intros [[H | [H | [H | H]]] | H]; [left; eexists; split; [|exact H]; lia ..| right; exact H].
  - intros [(day & [-> | [-> | [-> | ->]]] & H) | H]; tauto.
Qed.

Lemma elem_of_flat_map {A B} (f : A -> list B) (l : list A) (y : B) :
  y ∈ flat_map f l <-> exists x, x ∈ l /\ y ∈ f x.
Proof.
  rewrite list_elem_of_In, in_flat_map. split.
  - intros (x & Hx & Hy). exists x. rewrite !list_elem_of_In. auto.
  - intros (x & Hx & Hy). exists x. rewrite <- !list_elem_of_In. auto.
Qed.

Lemma index_year_month t :
  month_index t / 12 = year_of t /\ month_index t mod 12 + 1 = month_of t.
Proof.
  pose proof (ord2ymd_valid t) as [Hm _]. unfold month_index.
  split; Z.div_mod_to_equations; lia.
Qed.

(** What the loop over the months of the domain generates. *)
Lemma generated_elem tasks fallback (p : Z * str) :
  p ∈ generated_minor_marks tasks fallback <->
  exists a b i,
    time_domain tasks fallback
    = (month_start_of_index a, month_start_of_index (b + 1) - 1) /\
    a <= i <= b /\
    p ∈ month_minor_marks (month_start_of_index a)
          (month_start_of_index (b + 1) - 1) (month_start_of_index i).
Proof.
  unfold generated_minor_marks.
  destruct (time_domain_index tasks fallback) as (a & b & Hab & ->).
  rewrite (months_of_domain a b Hab), elem_of_flat_map. split.
  - intros (ms & Hms & Hp). apply list_elem_of_fmap in Hms as (i & -> & Hi).
    apply elem_of_seqZ in Hi. exists a, b, i. split; [reflexivity|].
    split; [lia | exact Hp].
  - intros (a' & b' & i & Heq & Hi & Hp). injection Heq as Ha Hb.
    apply month_start_of_index_inj in Ha as <-.
    assert (b' = b) as -> by (apply (Z.add_cancel_r _ _ 1), month_start_of_index_inj; lia).
    exists (month_start_of_index i). split; [|exact Hp].
    apply list_elem_of_fmap. exists i. split; [reflexivity|].
    apply elem_of_seqZ. lia.
Qed.

Lemma generated_sound tasks fallback d (label : str) :
  (d, label) ∈ generated_minor_marks tasks fallback ->
  (time_domain tasks fallback).1 <= d <= (time_domain tasks fallback).2 /\
  ((exists day, (day = 6 \/ day = 12 \/ day = 18 \/ day = 24) /\
      day_of d = day /\ label = str_of_Z day ++ lit "日" /\ ~ last_of_month d) \/
   (last_of_month d /\ label = lit "月末")).
Proof.
  intros H. apply generated_elem in H as (a & b & i & -> & Hi & Hp).
  cbn [fst snd]. apply month_minor_marks_elem in Hp.
  pose proof (days_in_month_bounds (i / 12) (i mod 12 + 1) (index_month_range i)) as Hdim.
  destruct Hp as [(day & Hday & Heq & Hdom & _) | (Heq & Hdom)].
  - injection Heq as -> ->. split; [exact Hdom|]. left.
    destruct (day_in_month i day ltac:(lia)) as (Hd & _ & Hlast).
    exists day. split; [exact Hday|]. split; [exact Hd|]. split; [reflexivity|].
    rewrite Hlast. lia.
  - injection Heq as -> ->. split; [exact Hdom|]. right.
    rewrite month_end_of_index_day.
    destruct (day_in_month i (days_in_month (i / 12) (i mod 12 + 1)) ltac:(lia))
      as (_ & _ & Hlast).
    split; [apply Hlast; reflexivity | reflexivity].
Qed.

Lemma generated_complete tasks fallback d :
  (time_domain tasks fallback).1 <= d <= (time_domain tasks fallback).2 ->
  day_of d = 6 \/ day_of d = 12 \/ day_of d = 18 \/ day_of d = 24 \/
  last_of_month d ->
  exists label, (d, label) ∈ generated_minor_marks tasks fallback.
Proof.
  destruct (time_domain_index tasks fallback) as (a & b & Hab & Heq).
  rewrite Heq. cbn [fst snd]. intros Hdom Hkind.
  pose proof (in_domain_index a b d Hab Hdom) as Hi.
  destruct (date_decompose d) as [Hd Hday].
  set (i := month_index d) in *.
  assert (d <= month_end_of (month_start_of_index i)) as Hend
    by (rewrite month_end_of_index_day; lia).
  assert (forall day, day_of d = day -> day = 6 \/ day = 12 \/ day = 18 \/ day = 24 ->
            exists label, (d, label) ∈ generated_minor_marks tasks fallback) as Hcand.
  { intros day Hdd Hdays. exists (str_of_Z day ++ lit "日").
    apply generated_elem. exists a, b, i. split; [exact Heq|]. split; [exact Hi|].
    apply month_minor_marks_elem. left. exists day. split; [exact Hdays|].
    rewrite Hdd in Hd. rewrite <- Hd. auto. }
  destruct Hkind as [H | [H | [H | [H | H]]]]; try (apply (Hcand _ H); tauto).
  exists (lit "月末"). apply generated_elem. exists a, b, i.
  split; [exact Heq|]. split; [exact Hi|].
  apply month_minor_marks_elem. right.
  assert (d = month_end_of (month_start_of_index i)) as <-.
  { rewrite month_end_of_index_day. unfold last_of_month in H.
    destruct (index_year_month d) as [Hy Hm]. fold i in Hy, Hm.
    rewrite Hy, Hm, <- H. exact Hd. }
  auto.
Qed.

Lemma gen_time_marks_minor tasks fallback :
  let kept := dedup_marks (generated_minor_marks tasks fallback) in
  minor_marks (gen_time_marks tasks fallback) = sorted_keys kept /\
  minor_labels (gen_time_marks tasks fallback)
  = (fun mark => default [] (kept !! mark)) <$> sorted_keys kept.
Proof.
  unfold gen_time_marks. destruct (time_domain tasks fallback) as [ds de].
  split; reflexivity.
Qed.

Lemma minor_mark_generated tasks fallback d :
  d ∈ minor_marks (gen_time_marks tasks fallback) <->
  exists label, (d, label) ∈ generated_minor_marks tasks fallback.
Proof.
  destruct (gen_time_marks_minor tasks fallback) as [-> _].
  rewrite DedupFacts.sorted_keys_elem, DedupFacts.dedup_marks_dom.
  rewrite list_elem_of_fmap. split.
  - intros ([d' l] & -> & H). exists l. exact H.
  - intros [l H]. exists (d, l). split; [reflexivity | exact H].
Qed.

(** The label at the position of a mark is the label of the last pair
    generated for that mark. *)
Lemma minor_label_last tasks fallback i d (label : str) :
  minor_marks (gen_time_marks tasks fallback) !! i = Some d ->
  minor_labels (gen_time_marks tasks fallback) !! i = Some label ->
  exists before after,
    generated_minor_marks tasks fallback = before ++ (d, label) :: after /\
    d ∉ after.*1.
Proof.
  destruct (gen_time_marks_minor tasks fallback) as [-> ->].
  intros Hd Hl. rewrite list_lookup_fmap, Hd in Hl.
  cbn [fmap option_fmap option_map] in Hl. cbv beta in Hl.
  assert (d ∈ sorted_keys (dedup_marks (generated_minor_marks tasks fallback))) as Hin
    by (apply list_elem_of_lookup; eauto).
  apply DedupFacts.sorted_keys_elem in Hin as [l Hlook].
  assert (label = l) as ->.
  { injection Hl as <-. exact (f_equal (default []) Hlook). }
  apply DedupFacts.dedup_marks_lookup. exact Hlook.
Qed.

Lemma months_sorted k (n : nat) :
  Sorted Z.lt (month_start_of_index <$> seqZ k (Z.of_nat n)).
Proof.
  revert k. induction n as [|n IH]; intros k; [constructor|].
  rewrite seqZ_cons by lia. rewrite fmap_cons.
  replace (Z.pred (Z.of_nat (S n))) with (Z.of_nat n) by lia.
  constructor; [apply IH|].
  destruct n as [|n]; [constructor|].
  rewrite seqZ_cons by lia. rewrite fmap_cons. constructor.
  apply month_start_of_index_lt. lia.
Qed.

Lemma gen_time_marks_major tasks fallback :
  major_marks (gen_time_marks tasks fallback)
  = date_range_MS (time_domain tasks fallback).1 (time_domain tasks fallback).2 /\
  major_labels (gen_time_marks tasks fallback)
  = (fun month_start => str_of_Z (month_of month_start) ++ lit "月")
    <$> major_marks (gen_time_marks tasks fallback).
Proof.
  unfold gen_time_marks. destruct (time_domain tasks fallback) as [ds de].
  split; reflexivity.
Qed.

(** The major marks are the first days of the months of the domain. *)
Lemma major_marks_index tasks fallback :
  exists a b,
    a <= b /\
    time_domain tasks fallback
    = (month_start_of_index a, month_start_of_index (b + 1) - 1) /\
    major_marks (gen_time_marks tasks fallback)
    = month_start_of_index <$> seqZ a (b - a + 1).
Proof.
  destruct (time_domain_index tasks fallback) as (a & b & Hab & Hdom).
  exists a, b. split; [exact Hab|]. split; [exact Hdom|].
  destruct (gen_time_marks_major tasks fallback) as [-> _].
  rewrite Hdom. cbn [fst snd]. apply months_of_domain. exact Hab.
Qed.

End MinorFacts.

(** ** The Gantt chart *)

Module GanttFacts.
Import Calendar Py App Notions Gantt.

Lemma missing_columns_nil df :
  missing_columns df = [] <-> has_required_columns df.
Proof.
  unfold missing_columns, has_required_columns.
  rewrite !filter_cons, filter_nil.
  destruct (decide (COL_NAME ∉ columns df)) as [H1 | H1];
  destruct (decide (COL_END ∉ columns df)) as [H2 | H2];
  destruct (decide (COL_START ∉ columns df)) as [H3 | H3];
    split; try discriminate; try tauto; intros _;
    repeat split; apply dec_stable; assumption.
Qed.

Lemma all_na_spec (cells : list cell) :
  all_na (to_datetime <$> cells) = true <-> ~ some_parseable cells.
Proof.
  unfold all_na, some_parseable. rewrite forallb_forall. split.
  - intros Hall (c & d & Hc & Hd).
    assert (In (to_datetime c) (to_datetime <$> cells)) as Hin
      by (apply list_elem_of_In, list_elem_of_fmap_2; exact Hc).
    specialize (Hall _ Hin). apply bool_decide_eq_true in Hall. congruence.
  - intros Hno v Hv. apply bool_decide_eq_true.
    apply list_elem_of_In, list_elem_of_fmap in Hv as (c & -> & Hc).
    destruct (to_datetime c) as [d|] eqn:E; [|reflexivity].
    exfalso. apply Hno. eauto.
Qed.

Lemma valid_rows_omap (rs : list GRow) :
  valid_rows (name_cell <$> rs) (to_datetime <$> (start_cell <$> rs))
    (to_datetime <$> (end_cell <$> rs))
  = omap valid_row rs.
Proof.
  unfold valid_rows. induction rs as [|r rs IH]; [reflexivity|].
  cbn [fmap list_fmap zip zip_with omap list_omap]. cbn [fmap list_fmap] in IH.
  rewrite IH. unfold valid_row.
  destruct (to_datetime (start_cell r)), (to_datetime (end_cell r)); reflexivity.
Qed.

Lemma valid_rows_nil df :
  omap valid_row (rows df) = [] <-> ~ some_valid_row df.
Proof.
  unfold some_valid_row. split.
  - intros Hnil (r & s & e & Hr & Hs & He & Hse).
    assert ((name_cell r, s, e) ∈ omap valid_row (rows df)) as Hin.
    { apply list_elem_of_omap. exists r. split; [exact Hr|].
      unfold valid_row. rewrite Hs, He.
      destruct (Z.geb_spec e s); [reflexivity | lia]. }
    rewrite Hnil in Hin. inversion Hin.
  - intros Hno. destruct (omap valid_row (rows df)) as [|p l] eqn:E; [reflexivity|].
    exfalso. apply Hno.
    assert (p ∈ omap valid_row (rows df)) as Hin by (rewrite E; apply list_elem_of_here).
    apply list_elem_of_omap in Hin as (r & Hr & Hv). unfold valid_row in Hv.
    destruct (to_datetime (start_cell r)) as [s|] eqn:Es; [|discriminate].
    destruct (to_datetime (end_cell r)) as [e|] eqn:Ee; [|discriminate].
    destruct (Z.geb_spec e s); [|discriminate].
    exists r, s, e. auto.
Qed.

(** The axis of a non-empty set of rows is always built. *)
Lemma build_axis_marks_rows (filtered : list (str * Z * Z)) :
  filtered <> [] ->
  exists marks,
    _build_axis_marks (Some <$> (row_start <$> filtered))
                      (Some <$> (row_end <$> filtered)) = Ok marks.
Proof.
  intros Hne. destruct filtered as [|p rest]; [congruence|].
  unfold _build_axis_marks. cbn. eauto.
Qed.

Lemma all_na_false (cells : list cell) :
  all_na (to_datetime <$> cells) = false -> some_parseable cells.
Proof.
  unfold all_na, some_parseable. induction cells as [|c cells IH]; [discriminate|].
  cbn [fmap list_fmap forallb]. fold (to_datetime <$> cells).
  destruct (to_datetime c) as [d|] eqn:E.
  - intros _. exists c, d. split; [apply list_elem_of_here | exact E].
  - cbn [bool_decide andb]. rewrite bool_decide_eq_true_2 by reflexivity.
    cbn [andb]. intros H. destruct (IH H) as (c' & d & Hc & Hd).
    exists c', d. split; [apply list_elem_of_further; exact Hc | exact Hd].
Qed.

Lemma valid_rows_cons df p rest :
  omap valid_row (rows df) = p :: rest -> some_valid_row df.
Proof.
  intros E.
  assert (p ∈ omap valid_row (rows df)) as Hin by (rewrite E; apply list_elem_of_here).
  apply list_elem_of_omap in Hin as (r & Hr & Hv). unfold valid_row in Hv.
  destruct (to_datetime (start_cell r)) as [s|] eqn:Es; [|discriminate].
  destruct (to_datetime (end_cell r)) as [e|] eqn:Ee; [|discriminate].
  destruct (Z.geb_spec e s); [|discriminate].
  exists r, s, e. auto.
Qed.

(** The outcome of [create_project_gantt_chart], case by case. *)
Lemma create_project_gantt_chart_cases df :
  (~ has_required_columns df /\
   create_project_gantt_chart df
   = Raise (ValueError (lit "DataFrame に必要な列がありません: "
                        ++ join (lit ", ") (missing_columns df)))) \/
  (has_required_columns df /\
   ~ some_parseable (start_cell <$> rows df) /\
   create_project_gantt_chart df
   = Raise (ValueError (lit "列 '開始日' の有効な日付が見つかりません。"))) \/
  (has_required_columns df /\
   some_parseable (start_cell <$> rows df) /\
   ~ some_parseable (end_cell <$> rows df) /\
   create_project_gantt_chart df
   = Raise (ValueError (lit "列 '終了日' の有効な日付が見つかりません。"))) \/
  (has_required_columns df /\
   some_parseable (start_cell <$> rows df) /\
   some_parseable (end_cell <$> rows df) /\
   ~ some_valid_row df /\
   create_project_gantt_chart df
   = Raise (ValueError (lit "開始日と終了日が正しく設定された行が存在しません。"))) \/
  (has_required_columns df /\
   some_parseable (start_cell <$> rows df) /\
   some_parseable (end_cell <$> rows df) /\
   some_valid_row df /\
   exists fig, create_project_gantt_chart df = Ok fig).
Proof.
  unfold create_project_gantt_chart, _ensure_datetime.
  destruct (missing_columns df) as [|c0 missing] eqn:Emiss.
  2: { left. split; [|reflexivity].
       intros H. apply missing_columns_nil in H. rewrite H in Emiss. discriminate. }
  right.
  assert (has_required_columns df) as Hyes by (apply missing_columns_nil; exact Emiss).
  destruct (all_na (to_datetime <$> (start_cell <$> rows df))) eqn:Es.
  { left. split; [exact Hyes|]. split; [apply all_na_spec; exact Es|].
    cbn [mbind result_bind]. vm_compute. reflexivity. }
  right. apply all_na_false in Es. cbn [mbind result_bind].
  destruct (all_na (to_datetime <$> (end_cell <$> rows df))) eqn:Ee.
  { left. split; [exact Hyes|]. split; [exact Es|].
    split; [apply all_na_spec; exact Ee|].
    cbn [mbind result_bind]. vm_compute. reflexivity. }
  right. apply all_na_false in Ee. cbn [mbind result_bind].
  rewrite valid_rows_omap.
  destruct (omap valid_row (rows df)) as [|p rest] eqn:Ef.
  { left. split; [exact Hyes|]. split; [exact Es|]. split; [exact Ee|].
    split; [apply valid_rows_nil; exact Ef | reflexivity]. }
  right. split; [exact Hyes|]. split; [exact Es|]. split; [exact Ee|].
  split; [exact (valid_rows_cons df p rest Ef)|].
  destruct (build_axis_marks_rows (p :: rest) ltac:(discriminate)) as [marks ->].
  cbn [mbind result_bind]. eexists. reflexivity.
Qed.

Ltac outcome_case :=
  repeat split; intros;
  first
    [ tauto
    | reflexivity
    | (eexists; reflexivity)
    | match goal with
      | H : exists _, _ = _ |- _ => destruct H; discriminate
      end ].

(** The logic of the case table, apart from the chart. *)
Lemma outcome_logic {A : Type} (R : result A) (C S E V : Prop)
    (mC mS mE mV : str) :
  (V -> S /\ E) ->
  (~ C /\ R = Raise (ValueError mC)) \/
  (C /\ ~ S /\ R = Raise (ValueError mS)) \/
  (C /\ S /\ ~ E /\ R = Raise (ValueError mE)) \/
  (C /\ S /\ E /\ ~ V /\ R = Raise (ValueError mV)) \/
  (C /\ S /\ E /\ V /\ exists a, R = Ok a) ->
  ((exists msg, R = Raise (ValueError msg)) <-> ~ C \/ ~ S \/ ~ E \/ ~ V) /\
  ((exists a, R = Ok a) <-> C /\ V) /\
  (~ C -> R = Raise (ValueError mC)) /\
  (C -> ~ S -> R = Raise (ValueError mS)) /\
  (C -> S -> ~ E -> R = Raise (ValueError mE)) /\
  (C -> S -> E -> ~ V -> R = Raise (ValueError mV)).
Proof.
  intros HV [H | [H | [H | [H | H]]]].
  - destruct H as [HC ->]. outcome_case.
  - destruct H as (HC & HS & ->). outcome_case.
  - destruct H as (HC & HS & HE & ->). outcome_case.
  - destruct H as (HC & HS & HE & HnV & ->). outcome_case.
  - destruct H as (HC & HS & HE & HV' & a & ->). outcome_case.
Qed.

End GanttFacts.

(** ** Contrast colour *)

Module ColourFacts.
Import Py Colour Notions.

Lemma hex_digit_cases c v :
  hex_digit c = Some v ->
  (48 <= c <= 57 /\ v = c - 48) \/ (65 <= c <= 70 /\ v = c - 55) \/
  (97 <= c <= 102 /\ v = c - 87).
Proof.
  unfold hex_digit. intros H.
  destruct (Z.leb_spec 48 c), (Z.leb_spec c 57), (Z.leb_spec 65 c),
    (Z.leb_spec c 70), (Z.leb_spec 97 c), (Z.leb_spec c 102);
    cbn [andb] in H; try discriminate; injection H as <-; lia.
Qed.

Lemma hex_digit_range c v :
  hex_digit c = Some v ->
  0 <= v <= 15 /\ is_space c = false /\ (c =? 35) = false.
Proof.
  intros H. apply hex_digit_cases in H.
  split; [lia|]. split.
  - destruct (is_space c) eqn:E; [exfalso | reflexivity].
    unfold is_space in E.
    rewrite !orb_true_iff, !andb_true_iff, !Z.leb_le, !Z.eqb_eq in E. lia.
  - apply Z.eqb_neq. lia.
Qed.

(** An ASCII hexadecimal digit, as [int] reads it. *)
Lemma hex_digit_read c v :
  hex_digit c = Some v ->
  to_ascii c = c /\ isspace_ascii c = false /\ c <> 43 /\ c <> 45 /\ c <> 95 /\
  c <> 120 /\ c <> 88 /\ digit_value c = Some v /\ 0 <= v < 16.
Proof.
  intros H. apply hex_digit_cases in H.
  assert (to_ascii c = c) as Ha.
  { unfold to_ascii. destruct (Z.ltb_spec c 127); [reflexivity | lia]. }
  assert (isspace_ascii c = false) as Hs.
  { unfold isspace_ascii.
    destruct (Z.leb_spec 9 c), (Z.leb_spec c 13), (Z.eqb_spec c 32);
      cbn [andb orb]; first [reflexivity | lia]. }
  assert (digit_value c = Some v) as Hd.
  { unfold digit_value.
    destruct (Z.leb_spec 48 c), (Z.leb_spec c 57), (Z.leb_spec 97 c),
      (Z.leb_spec c 122), (Z.leb_spec 65 c), (Z.leb_spec c 90);
      cbn [andb]; first [f_equal; lia | lia]. }
  repeat split; first [assumption | lia].
Qed.

Lemma eqb_false a b : a <> b -> (a =? b) = false.
Proof. apply Z.eqb_neq. Qed.

(** Two ASCII hexadecimal digits are read as one byte. *)
Lemma int_hex_pair a b va vb :
  hex_digit a = Some va -> hex_digit b = Some vb ->
  int_ [a; b] 16 = Some (16 * va + vb).
Proof.
  intros Ha Hb.
  destruct (hex_digit_read _ _ Ha) as (Ta & Sa & Pa & Ma & Ua & _ & _ & Da & Ra).
  destruct (hex_digit_read _ _ Hb) as (Tb & Sb & Pb & Mb & Ub & Xb & XXb & Db & Rb).
  unfold int_. cbn [fmap list_fmap]. rewrite Ta, Tb.
  cbn [lstrip_by]. rewrite Sa.
  unfold read_sign. rewrite (eqb_false _ _ Pa), (eqb_false _ _ Ma).
  unfold skip_prefix. rewrite (eqb_false _ _ Xb), (eqb_false _ _ XXb).
  change (16 =? 16) with true. change (16 =? 8) with false.
  change (16 =? 2) with false. cbn [orb andb]. rewrite andb_false_r.
  cbn [head]. rewrite bool_decide_eq_false_2 by (intros [= E]; lia).
  cbn [scan_digits]. rewrite (eqb_false _ _ Ua), Da.
  destruct (Z.ltb_spec va 16); [|lia].
  rewrite (eqb_false _ _ Ub), Db.
  destruct (Z.ltb_spec vb 16); [|lia].
  cbn [mbind option_bind Nat.eqb lstrip_by].
  f_equal. lia.
Qed.

Lemma int_unsigned16 s :
  int_ s 16
  = let '(sign, rest) := read_sign (lstrip_by isspace_ascii (to_ascii <$> s)) in
    unsigned16 sign rest.
Proof. reflexivity. Qed.

Lemma unsigned16_nil sign : unsigned16 sign [] = None.
Proof. reflexivity. Qed.

Lemma unsigned16_one sign b v :
  unsigned16 sign [b] = Some v -> hex_value b = true.
Proof.
  unfold unsigned16, hex_value. cbn [skip_prefix head scan_digits].
  case_bool_decide as Hu; [discriminate|].
  destruct (Z.eqb_spec b 95) as [-> | _]; [contradiction Hu; reflexivity|].
  change (0 =? 95) with false. cbv iota.
  destruct (digit_value b) as [d|]; [|discriminate].
  destruct (d <? 16); [reflexivity | discriminate].
Qed.

Lemma unsigned16_two sign a b v :
  unsigned16 sign [a; b] = Some v ->
  hex_value a = true /\ (hex_value b = true \/ isspace_ascii b = true).
Proof.
  unfold unsigned16, hex_value. cbn [skip_prefix].
  change (16 =? 16) with true. change (16 =? 8) with false.
  change (16 =? 2) with false. cbn [orb andb].
  destruct ((a =? 48) && _); [cbn; discriminate|].
  cbn [head scan_digits].
  case_bool_decide as Hu; [discriminate|].
  destruct (Z.eqb_spec a 95) as [-> | Ha]; [contradiction Hu; reflexivity|].
  change (0 =? 95) with false. cbv iota.
  destruct (digit_value a) as [d|]; [|discriminate].
  destruct (d <? 16); [|discriminate].
  destruct (Z.eqb_spec b 95) as [-> | Hb].
  { change (95 =? 95) with true. cbv iota. discriminate. }
  destruct (digit_value b) as [e|].
  - destruct (e <? 16); [intros _; split; [reflexivity | left; reflexivity]|].
    cbn [mbind option_bind Nat.eqb lstrip_by].
    destruct (isspace_ascii b); [intros _; split; [reflexivity | right; reflexivity]|].
    discriminate.
  - cbn [mbind option_bind Nat.eqb lstrip_by].
    destruct (isspace_ascii b); [intros _; split; [reflexivity | right; reflexivity]|].
    discriminate.
Qed.

(** Two characters that [int(., 16)] accepts are digits, blanks or
    signs. *)
Lemma int_pair_chars a b v :
  int_ [a; b] 16 = Some v -> literal_char a = true /\ literal_char b = true.
Proof.
  rewrite int_unsigned16. unfold literal_char. cbn [fmap list_fmap].
  generalize (to_ascii a) (to_ascii b). clear a b. intros a b.
  cbv zeta. cbn [lstrip_by].
  destruct (isspace_ascii a) eqn:Sa; cbn [orb].
  - destruct (isspace_ascii b) eqn:Sb; cbn [orb]; [discriminate|].
    unfold read_sign.
    destruct (b =? 43); [discriminate|]. destruct (b =? 45); [discriminate|].
    cbn [orb]. intros H. apply unsigned16_one in H. rewrite H. split; reflexivity.
  - unfold read_sign.
    destruct (a =? 43); [|destruct (a =? 45)]; cbn [orb].
    + intros H. apply unsigned16_one in H. rewrite H, !orb_true_r. split; reflexivity.
    + intros H. apply unsigned16_one in H. rewrite H, !orb_true_r. split; reflexivity.
    + intros H. apply unsigned16_two in H as [Ha [Hb | Hb]]; rewrite Ha, Hb;
        rewrite ?orb_true_r; split; reflexivity.
Qed.

Lemma lstrip_by_head f c s : f c = false -> lstrip_by f (c :: s) = c :: s.
Proof. intros H. cbn [lstrip_by]. rewrite H. reflexivity. Qed.

Lemma rstrip_by_last f s c : f c = false -> rstrip_by f (s ++ [c]) = s ++ [c].
Proof.
  intros H. unfold rstrip_by. rewrite rev_unit, (lstrip_by_head f c _ H).
  cbn [rev]. rewrite rev_involutive. reflexivity.
Qed.

(** A string that neither starts nor ends with a blank is its own strip. *)
Lemma strip_id c s c' :
  is_space c = false -> is_space c' = false ->
  strip (c :: s ++ [c']) = c :: s ++ [c'].
Proof.
  intros H H'. unfold strip. rewrite (lstrip_by_head _ _ _ H).
  rewrite app_comm_cons. apply rstrip_by_last. exact H'.
Qed.

Lemma hex_to_rgb_six c0 c1 c2 c3 c4 c5 v0 v1 v2 v3 v4 v5 :
  hex_digit c0 = Some v0 -> hex_digit c1 = Some v1 -> hex_digit c2 = Some v2 ->
  hex_digit c3 = Some v3 -> hex_digit c4 = Some v4 -> hex_digit c5 = Some v5 ->
  hex_to_rgb [c0; c1; c2; c3; c4; c5]
  = Some (16 * v0 + v1, 16 * v2 + v3, 16 * v4 + v5) /\
  hex_to_rgb (35 :: [c0; c1; c2; c3; c4; c5])
  = Some (16 * v0 + v1, 16 * v2 + v3, 16 * v4 + v5).
Proof.
  intros H0 H1 H2 H3 H4 H5.
  destruct (hex_digit_range _ _ H0) as (_ & S0 & N0).
  destruct (hex_digit_range _ _ H5) as (_ & S5 & _).
  unfold hex_to_rgb.
  assert (strip [c0; c1; c2; c3; c4; c5] = [c0; c1; c2; c3; c4; c5]) as ->
    by exact (strip_id c0 [c1; c2; c3; c4] c5 S0 S5).
  assert (strip (35 :: [c0; c1; c2; c3; c4; c5]) = 35 :: [c0; c1; c2; c3; c4; c5]) as ->
    by exact (strip_id 35 [c0; c1; c2; c3; c4] c5 eq_refl S5).
  cbn [app lstrip_by]. change (35 =? 35) with true. cbv iota.
  rewrite N0. cbn [length Nat.eqb].
  rewrite (int_hex_pair _ _ _ _ H0 H1), (int_hex_pair _ _ _ _ H2 H3),
    (int_hex_pair _ _ _ _ H4 H5).
  split; reflexivity.
Qed.

Lemma hex_to_rgb_three c0 c1 c2 v0 v1 v2 :
  hex_digit c0 = Some v0 -> hex_digit c1 = Some v1 -> hex_digit c2 = Some v2 ->
  hex_to_rgb [c0; c1; c2] = Some (17 * v0, 17 * v1, 17 * v2) /\
  hex_to_rgb (35 :: [c0; c1; c2]) = Some (17 * v0, 17 * v1, 17 * v2).
Proof.
  intros H0 H1 H2.
  destruct (hex_digit_range _ _ H0) as (_ & S0 & N0).
  destruct (hex_digit_range _ _ H2) as (_ & S2 & _).
  unfold hex_to_rgb.
  assert (strip [c0; c1; c2] = [c0; c1; c2]) as ->
    by exact (strip_id c0 [c1] c2 S0 S2).
  assert (strip (35 :: [c0; c1; c2]) = 35 :: [c0; c1; c2]) as ->
    by exact (strip_id 35 [c0; c1] c2 eq_refl S2).
  cbn [app lstrip_by]. change (35 =? 35) with true. cbv iota.
  rewrite N0. cbn [length Nat.eqb flat_map app].
  rewrite (int_hex_pair _ _ _ _ H0 H0), (int_hex_pair _ _ _ _ H1 H1),
    (int_hex_pair _ _ _ _ H2 H2).
  split; do 2 f_equal; try f_equal; lia.
Qed.

(** [hex_to_rgb] in terms of the characters it reads. *)
Lemma hex_to_rgb_chars color :
  hex_to_rgb color
  = match hex_chars color with
    | [c0; c1; c2; c3; c4; c5] =>
        match int_ [c0; c1] 16, int_ [c2; c3] 16, int_ [c4; c5] 16 with
        | Some r, Some g, Some b => Some (r, g, b)
        | _, _, _ => None
        end
    | _ => None
    end.
Proof. reflexivity. Qed.

Lemma hex_to_rgb_some color r g b :
  hex_to_rgb color = Some (r, g, b) <->
  exists c0 c1 c2 c3 c4 c5,
    hex_chars color = [c0; c1; c2; c3; c4; c5] /\
    int_ [c0; c1] 16 = Some r /\ int_ [c2; c3] 16 = Some g /\
    int_ [c4; c5] 16 = Some b.
Proof.
  rewrite hex_to_rgb_chars. split.
  - destruct (hex_chars color) as [|c0 [|c1 [|c2 [|c3 [|c4 [|c5 [|c6 rest]]]]]]];
      try discriminate.
    destruct (int_ [c0; c1] 16) as [r'|] eqn:Er; [|discriminate].
    destruct (int_ [c2; c3] 16) as [g'|] eqn:Eg; [|discriminate].
    destruct (int_ [c4; c5] 16) as [b'|] eqn:Eb; [|discriminate].
    intros [= -> -> ->]. exists c0, c1, c2, c3, c4, c5. auto.
  - intros (c0 & c1 & c2 & c3 & c4 & c5 & -> & -> & -> & ->). reflexivity.
Qed.

Lemma hex_to_rgb_length color :
  length (hex_chars color) <> 6%nat -> hex_to_rgb color = None.
Proof.
  rewrite hex_to_rgb_chars.
  destruct (hex_chars color) as [|c0 [|c1 [|c2 [|c3 [|c4 [|c5 [|c6 rest]]]]]]];
    try reflexivity.
  intros H. contradiction H. reflexivity.
Qed.

(** A character that is no digit, blank or sign makes the parse fail. *)
Lemma hex_to_rgb_bad_char color c :
  c ∈ hex_chars color -> literal_char c = false -> hex_to_rgb color = None.
Proof.
  intros Hin Hbad.
  destruct (hex_to_rgb color) as [[[r g] b]|] eqn:E; [exfalso | reflexivity].
  apply hex_to_rgb_some in E as (c0 & c1 & c2 & c3 & c4 & c5 & Hc & Hr & Hg & Hb).
  apply int_pair_chars in Hr as [L0 L1].
  apply int_pair_chars in Hg as [L2 L3].
  apply int_pair_chars in Hb as [L4 L5].
  rewrite Hc in Hin.
  repeat (apply elem_of_cons in Hin as [-> | Hin]; [congruence|]).
  inversion Hin.
Qed.


Local Open Scope R_scope.

Lemma Rpower_lt_base x y : 0 < x < 1 -> 1 < y -> Rpower x y < x.
Proof.
  intros [H0 H1] Hy. unfold Rpower.
  rewrite <- (exp_ln x H0) at 2. apply exp_increasing.
  assert (ln x < 0) as Hln by (rewrite <- ln_1; apply ln_increasing; assumption).
  Lra.nra.
Qed.

Lemma Rpower_one y : Rpower 1 y = 1.
Proof. unfold Rpower. rewrite ln_1, Rmult_0_r. apply exp_0. Qed.

Lemma to_linear_spec channel :
  to_linear channel = srgb_linear_spec (channel / 255).
Proof. reflexivity. Qed.

Lemma luminance_spec r g b :
  luminance (r, g, b)
  = relative_luminance_spec (IZR r / 255) (IZR g / 255) (IZR b / 255).
Proof. reflexivity. Qed.

(** A channel in the upper branch is below the base of the power. *)
Lemma to_linear_upper channel :
  0.03928 < channel / 255 -> channel / 255 < 1 ->
  0 < to_linear channel < (channel / 255 + 0.055) / 1.055.
Proof.
  intros Hlo Hhi. unfold to_linear.
  destruct (Rle_dec (channel / 255) 0.03928) as [H | H]; [Lra.lra|].
  assert (0 < (channel / 255 + 0.055) / 1.055 < 1) as Hb by (split; Lra.lra).
  split.
  - unfold Rpower. apply exp_pos.
  - apply Rpower_lt_base; [exact Hb | Lra.lra].
Qed.

Lemma luminance_navy : luminance (11, 31, 58)%Z < 0.55.
Proof.
  unfold luminance.
  pose proof (to_linear_upper 11 ltac:(Lra.lra) ltac:(Lra.lra)).
  pose proof (to_linear_upper 31 ltac:(Lra.lra) ltac:(Lra.lra)).
  pose proof (to_linear_upper 58 ltac:(Lra.lra) ltac:(Lra.lra)).
  Lra.lra.
Qed.

Lemma luminance_dark_grey : luminance (15, 15, 15)%Z < 0.55.
Proof.
  unfold luminance.
  pose proof (to_linear_upper 15 ltac:(Lra.lra) ltac:(Lra.lra)).
  Lra.lra.
Qed.

Lemma luminance_white : luminance (255, 255, 255)%Z = 1.
Proof.
  unfold luminance, to_linear.
  destruct (Rle_dec (255 / 255) 0.03928) as [H | H]; [Lra.lra|].
  replace ((255 / 255 + 0.055) / 1.055) with 1 by Lra.lra.
  rewrite Rpower_one. Lra.lra.
Qed.

Lemma white_not_navy : WHITE <> NAVY.
Proof. vm_compute. discriminate. Qed.

End ColourFacts.

(** ** The monthly table *)

Module AggregationFacts.
Import Calendar Py App Notions.

Local Open Scope Q_scope.

Lemma add_cash_flow_months acc records :
  month <$> add_cash_flow acc records = month <$> records.
Proof.
  revert acc. induction records as [|r rest IH]; intros acc; [reflexivity|].
  cbn [add_cash_flow fmap list_fmap month]. f_equal. apply IH.
Qed.

Lemma add_cash_flow_columns acc records :
  Forall2 (fun r b =>
             month b = month r /\ revenue b = revenue r /\ cost b = cost r /\
             gross b = gross r /\ gross_margin b = gross_margin r /\
             manpower b = manpower r /\ cash_in b = cash_in r /\
             cash_out b = cash_out r /\
             cash_flow b = cash_in r - cash_out r)
    records (add_cash_flow acc records).
Proof.
  revert acc. induction records as [|r rest IH]; intros acc; cbn [add_cash_flow].
  - constructor.
  - constructor; [cbn; repeat split | apply IH].
Qed.

(** The cumulative column is the running sum of the cash-flow column. *)
Lemma total_cash_flow_cons b l :
  total_cash_flow (b :: l) = cash_flow b + total_cash_flow l.
Proof. reflexivity. Qed.

Lemma add_cash_flow_running acc records i b :
  add_cash_flow acc records !! i = Some b ->
  cum_cash_flow b == acc + total_cash_flow (take (S i) (add_cash_flow acc records)).
Proof.
  revert acc i b. induction records as [|r rest IH]; intros acc i b;
    cbn [add_cash_flow].
  - intros H. discriminate.
  - rewrite firstn_cons, total_cash_flow_cons. cbn [cash_flow].
    destruct i as [|i].
    + intros [= <-]. cbn [cum_cash_flow]. rewrite take_0.
      unfold total_cash_flow. cbn [foldr]. ring.
    + intros H.
      pose proof (IH (acc + (cash_in r - cash_out r)) i b H) as Hrec.
      rewrite Hrec. ring.
Qed.

Lemma month_record_gross df month_start b :
  month_record df month_start = Ok b -> gross b = revenue b - cost b.
Proof.
  unfold month_record.
  repeat match goal with
    | |- context [sum_rows ?f df ?acc] =>
        let H := fresh "H" in
        let x := fresh "x" in
        destruct (TotalityFacts.sum_rows_total f df acc) as [x H];
        [intros row; apply TotalityFacts.allocate_value_total |];
        rewrite H; cbn [mbind result_bind]; clear H
    end.
  match goal with |- context [truthy ?r] => destruct (truthy r) eqn:Et end.
  - unfold truediv. rewrite (TotalityFacts.truthy_nonzero _ Et).
    cbn [mbind result_bind]. intros [= <-]. reflexivity.
  - cbn [mbind result_bind]. intros [= <-]. reflexivity.
Qed.

Lemma month_records_gross df months records :
  month_records df months = Ok records ->
  Forall (fun b => gross b = revenue b - cost b) records.
Proof.
  revert records. induction months as [|m rest IH]; intros records; cbn [month_records].
  - intros [= <-]. constructor.
  - destruct (month_record df m) as [b|] eqn:Eb; [|discriminate].
    cbn [mbind result_bind].
    destruct (month_records df rest) as [bs|]; [|discriminate].
    cbn [mbind result_bind]. intros [= <-].
    constructor; [exact (month_record_gross _ _ _ Eb) | apply IH; reflexivity].
Qed.

(** The table of an empty project table: one record of zeros per month. *)
Lemma zero_table months :
  let zeros := (fun m => mkBucket m 0 0 0 0 0 0 0 0 0) <$> months in
  month <$> zeros = months /\
  Forall (fun b => gross b == revenue b - cost b /\
                   cash_flow b == cash_in b - cash_out b) zeros /\
  forall i b, zeros !! i = Some b ->
    cum_cash_flow b == total_cash_flow (take (S i) zeros).
Proof.
  cbv zeta. split; [|split].
  - induction months as [|m rest IH]; [reflexivity|].
    cbn [fmap list_fmap month] in *. f_equal. exact IH.
  - induction months as [|m rest IH]; [constructor|].
    constructor; [cbn; split; reflexivity | exact IH].
  - induction months as [|m rest IH]; intros i b Hb; [discriminate|].
    rewrite fmap_cons, firstn_cons, total_cash_flow_cons. cbn [cash_flow].
    destruct i as [|i].
    + injection Hb as <-. rewrite take_0. reflexivity.
    + rewrite fmap_cons in Hb.
      assert (((fun m => mkBucket m 0 0 0 0 0 0 0 0 0) <$> rest) !! i = Some b)
        as Hb' by exact Hb.
      rewrite <- (IH i b Hb'). ring.
Qed.

(** The monthly table, when the project table is empty or the range has
    a month. *)
Lemma monthly_table (df : list Row) (start stop : Z) :
  df = [] \/ date_range_MS start stop <> [] ->
  exists buckets,
    compute_monthly_aggregation df (start, stop) = Ok buckets /\
    month <$> buckets = date_range_MS start stop /\
    Forall (fun b =>
              (gross b == revenue b - cost b)%Q /\
              (cash_flow b == cash_in b - cash_out b)%Q) buckets /\
    forall i b, buckets !! i = Some b ->
      (cum_cash_flow b == total_cash_flow (take (S i) buckets))%Q.
Proof.
  intros Hcase. unfold compute_monthly_aggregation.
  destruct df as [|row rest].
  - destruct (zero_table (date_range_MS start stop))
      as (Hmonths & Hcols & Hrun).
    eexists. split; [reflexivity|]. split; [exact Hmonths|].
    split; [exact Hcols | exact Hrun].
  - destruct Hcase as [Hnil | Hmonth]; [discriminate Hnil|].
    set (table := row :: rest).
    destruct (TotalityFacts.month_records_total table (date_range_MS start stop))
      as (records & Hrec & Hmonths).
    rewrite Hrec. cbn [mbind result_bind].
    destruct records as [|r0 records'] eqn:Erec.
    { exfalso. apply Hmonth. rewrite <- Hmonths. reflexivity. }
    rewrite <- Erec in *. clear Erec r0 records'.
    eexists. split; [reflexivity|]. split.
    { rewrite add_cash_flow_months. exact Hmonths. }
    split.
    { pose proof (month_records_gross _ _ _ Hrec) as Hg.
      pose proof (add_cash_flow_columns 0 records) as Hc.
      apply Forall_forall. intros b Hb.
      apply list_elem_of_lookup in Hb as [i Hi].
      destruct (Forall2_lookup_r _ _ _ _ _ Hc Hi) as (r & Hr & Hcols).
      destruct Hcols as (_ & Hrev & Hcost & Hgross & _ & _ & Hin & Hout & Hflow).
      assert (gross r = (revenue r - cost r)%Q) as Hgr.
      { rewrite Forall_forall in Hg. apply Hg.
        apply list_elem_of_lookup. eauto. }
      rewrite Hgross, Hrev, Hcost, Hflow, Hin, Hout, Hgr. split; reflexivity. }
    intros i b Hb.
    rewrite (add_cash_flow_running 0 records i b Hb). ring.
Qed.

(** Without a month the table built from the records has no column. *)
Lemma monthly_table_no_month (df : list Row) (start stop : Z) :
  df <> [] -> date_range_MS start stop = [] ->
  compute_monthly_aggregation df (start, stop)
  = Raise (KeyError (lit "キャッシュイン")).
Proof.
  intros Hdf Hmonths. unfold compute_monthly_aggregation. rewrite Hmonths.
  destruct df as [|row rest]; [contradiction | reflexivity].
Qed.

End AggregationFacts.

(** ** The enriched table *)

Module EnrichFacts.
Import Calendar Py App Notions.

Lemma expected_progress_bounds row today p :
  calculate_expected_progress row today = Ok p -> (0 <= p <= 100)%Q.
Proof.
  intros Hp.
  destruct (option_or (coerce_date (planned_start row)) (coerce_date (actual_start row)))
    as [s|] eqn:Es.
  2: { rewrite ProgressFacts.calculate_expected_progress_no_span in Hp
         by (rewrite Es; exact I).
       injection Hp as <-. split; discriminate. }
  destruct (coerce_date (planned_end row)) as [e|] eqn:Ee.
  2: { rewrite ProgressFacts.calculate_expected_progress_no_span in Hp
         by (rewrite Es, Ee; exact I).
       injection Hp as <-. split; discriminate. }
  destruct (Z.lt_ge_cases s e) as [Hse | Hse].
  - rewrite (ProgressFacts.calculate_expected_progress_dates row today s e Es Ee Hse) in Hp.
    injection Hp as <-. apply ProgressFacts.progress_at_bounds. exact Hse.
  - rewrite ProgressFacts.calculate_expected_progress_no_span in Hp
      by (rewrite Es, Ee; lia).
    injection Hp as <-. split; discriminate.
Qed.

Lemma status_stage_not_blank status stage :
  STATUS_VALUE_CHAIN_MAP status = Some stage -> strip stage <> [].
Proof.
  unfold STATUS_VALUE_CHAIN_MAP.
  repeat (destruct (str_eqb status _); [intros [= <-]; vm_compute; discriminate|]).
  discriminate.
Qed.

(** What [enrich_row] guarantees for the row it returns. *)
Lemma enrich_row_spec today row e :
  enrich_row today row = Ok e ->
  source_row e = row /\
  strip (value_chain_stage e) <> [] /\
  (0 <= expected_progress e <= 100)%Q /\
  (progress_variance e == progress_pct row - expected_progress e)%Q /\
  (0 <= delay e)%Q /\
  (is_over_budget e = true <-> (budget_cost row < planned_cost row)%Q) /\
  (is_over_budget e = true \/ (progress_variance e < -30)%Q \/ (0 < delay e)%Q ->
   risk_level e = HIGH).
Proof.
  unfold enrich_row.
  destruct (calculate_expected_progress row today) as [p|] eqn:Ep; [|discriminate].
  cbn [mbind result_bind].
  destruct (determine_risk_level _) as [level comment] eqn:Er.
  intros [= <-].
  cbn [source_row value_chain_stage expected_progress progress_variance delay
       is_over_budget risk_level].
  split; [reflexivity|]. split.
  { unfold str_eqb. case_bool_decide as Hblank.
    - destruct (STATUS_VALUE_CHAIN_MAP (status row)) as [stage|] eqn:Es; cbn [default].
      + exact (status_stage_not_blank _ _ Es).
      + vm_compute. discriminate.
    - exact Hblank. }
  split; [exact (expected_progress_bounds _ _ _ Ep)|].
  split; [reflexivity|]. split.
  { destruct (to_datetime (actual_end row)) as [a|]; [|discriminate].
    destruct (to_datetime (planned_end row)) as [q|]; [|discriminate].
    destruct (Z.gtb_spec (a - q) 0); [|discriminate].
    rewrite <- (Zle_Qle 0). lia. }
  split.
  { destruct (RiskFacts.Qltb_spec 0 (planned_cost row - budget_cost row)) as [T F].
    rewrite T. split; intros H; Lqa.lra. }
  intros Htrigger.
  match type of Er with
  | determine_risk_level ?r = _ =>
      pose proof (RiskFacts.risk_high_of_trigger r Htrigger) as Hhigh
  end.
  rewrite Er in Hhigh. exact Hhigh.
Qed.

End EnrichFacts.

(** ** The claims *)

Import Calendar CalendarFacts MonthFacts Py App Notions.

(** C1, as stated, fails in the arithmetic of [float]. A project of 100
    from 2025-07-08 to 2025-08-12 lies within the fiscal year 2025; of its
    36 days 24 are in July and 12 in August. It is allocated
    66.66666666666666 in July, which is 100 * (24 / 36), 33.33333333333333
    in August and 0.0 in each of the ten other months. The sum of the
    twelve amounts, from either end, is 99.99999999999999 and not 100. *)
Lemma C1_rounded_sum_differs :
  let fy := get_fiscal_year_range 2025 in
  let months := date_range_MS fy.1 fy.2 in
  let s := ymd2ord 2025 7 8 in
  let e := ymd2ord 2025 8 12 in
  let value := float_of_int 100 in
  let july := SpecFloat.S754_finite false 4691249611844266 (-46) in
  let august := SpecFloat.S754_finite false 4691249611844266 (-47) in
  let total := SpecFloat.S754_finite false 7036874417766399 (-46) in
  (fy.1 <= s /\ s <= e /\ e <= fy.2) /\
  (fun m => allocate_value value (Date s) (Date e) m (month_end_of m)) <$> months
  = Ok july :: Ok august :: replicate 10 (Ok fzero) /\
  allocated_in_months value (Date s) (Date e) months = Ok total /\
  sum_from fzero
    ((fun m => allocate_value value (Date s) (Date e) m (month_end_of m)) <$> months)
  = Ok total /\
  SpecFloat.SFcompare total value = Some Lt /\
  (float_value value == 100)%Q /\
  (float_value total == 7036874417766399 # 70368744177664)%Q /\
  (100 - float_value total == 1 # 70368744177664)%Q.
Proof.
  cbv zeta. split; [vm_compute; repeat split; discriminate|].
  split; [vm_compute; reflexivity|].
  split; [vm_compute; reflexivity|].
  split; [vm_compute; reflexivity|].
  split; [vm_compute; reflexivity|].
  split; [vm_compute; reflexivity|].
  split; vm_compute; reflexivity.
Qed.

(** C1, amended. For a project with both dates present and the end not
    before the start, and for every fiscal year: the fiscal year has
    twelve months; the numbers of days of the project in these months add
    up to the number of its days within the fiscal year, and to the number
    of all its days when the project lies within the fiscal year. In a
    month without a day of the project [allocate_value] gives 0.0; in any
    other month it gives the value times the quotient of the days in the
    month by all the days, the quotient and the product each rounded to a
    binary64 number. Without rounding the twelve amounts add up to the
    value times the share of the days within the fiscal year, and to the
    value itself when the project lies within the fiscal year. *)
Theorem C1_proration_additivity (s e year : Z) :
  s <= e ->
  let fy := get_fiscal_year_range year in
  let months := date_range_MS fy.1 fy.2 in
  let days := fun m => overlap_days s e m (month_end_of m) in
  length months = 12%nat /\
  sum_days (days <$> months) = overlap_days s e fy.1 fy.2 /\
  (fy.1 <= s -> e <= fy.2 -> sum_days (days <$> months) = e - s + 1) /\
  (forall (value : float64) m,
     (days m = 0 ->
      allocate_value value (Date s) (Date e) m (month_end_of m)
      = Ok (SpecFloat.S754_zero false)) /\
     (days m <> 0 ->
      allocate_value value (Date s) (Date e) m (month_end_of m)
      = Ok (SpecFloat.SFmul 53 1024 value
              (SpecFloat.SFdiv 53 1024 (float_of_int (days m))
                 (float_of_int (e - s + 1)))))) /\
  (forall value : Q,
     exists total,
       allocated_in_months value (Date s) (Date e) months = Ok total /\
       (total == value * (inject_Z (overlap_days s e fy.1 fy.2)
                          / inject_Z (e - s + 1)))%Q /\
       (fy.1 <= s -> e <= fy.2 -> (total == value)%Q)).
Proof.
  intros Hse fy months days. subst months days fy.
  rewrite ProrationFacts.fiscal_year_months.
  rewrite ProrationFacts.fiscal_year_range_index. cbn [fst snd].
  split.
  { rewrite length_fmap, length_seqZ. reflexivity. }
  pose proof (ProrationFacts.sum_days_run s e (12 * year + 6) 12) as Hdays.
  change (Z.of_nat 12) with 12 in Hdays.
  split; [exact Hdays|].
  split.
  { intros Hlo Hhi. rewrite Hdays. apply ProrationFacts.overlap_days_inside; lia. }
  split.
  { intros value m.
    rewrite (ProrationFacts.allocate_value_days value s e m (month_end_of m) Hse).
    split.
    - intros ->. reflexivity.
    - intros Hd. destruct (Z.eqb_spec (overlap_days s e m (month_end_of m)) 0) as [E | _];
        [contradiction|].
      cbn [int_truediv binary64].
      destruct (Z.eqb_spec (e - s + 1) 0) as [E | _]; [lia|]. reflexivity. }
  intros value.
  destruct (ProrationFacts.allocated_in_months_run value s e (12 * year + 6) 12 Hse)
    as (total & Hsum & Htotal).
  change (Z.of_nat 12) with 12 in *.
  exists total. split; [exact Hsum|]. split; [exact Htotal|].
  intros Hlo Hhi. rewrite Htotal.
  rewrite ProrationFacts.overlap_days_inside by lia.
  field. intros Hz. unfold Qeq in Hz. cbn in Hz. lia.
Qed.

(** Witness of C1: the project of 36 days in July and August 2025. *)
Lemma C1_proration_additivity_witness :
  ymd2ord 2025 7 8 <= ymd2ord 2025 8 12 /\
  sum_days ((fun m => overlap_days (ymd2ord 2025 7 8) (ymd2ord 2025 8 12)
                        m (month_end_of m))
            <$> date_range_MS (get_fiscal_year_range 2025).1
                  (get_fiscal_year_range 2025).2) = 36.
Proof.
  assert (ymd2ord 2025 7 8 <= ymd2ord 2025 8 12) as Hle by (vm_compute; discriminate).
  split; [exact Hle|].
  destruct (C1_proration_additivity (ymd2ord 2025 7 8) (ymd2ord 2025 8 12) 2025 Hle)
    as (_ & _ & Hin & _).
  rewrite Hin; [reflexivity | vm_compute; discriminate | vm_compute; discriminate].
Defined.

(** C6. A ratio whose denominator is zero is 0, and nothing is raised:
    the cost ratio of an enriched row whose order amount is zero is the
    finite value 0; the gross margin of a month whose revenue is zero is 0;
    [allocate_value] returns 0 when the range has no day. The three
    computations return a value on every input. *)
Theorem C6_zero_denominator_guard :
  (forall clock df, exists enriched,
     enrich_projects clock df = Ok enriched /\
     forall row, row ∈ enriched ->
       (order_amount (source_row row) == 0)%Q -> cost_ratio row = Some 0%Q) /\
  (forall df month_start, exists bucket,
     month_record df month_start = Ok bucket /\
     ((revenue bucket == 0)%Q -> gross_margin bucket = 0%Q)) /\
  (forall value s e month_start month_end,
     e - s + 1 <= 0 ->
     allocate_value value (Date s) (Date e) month_start month_end = Ok 0%Q) /\
  (forall value start stop month_start month_end, exists q,
     allocate_value value start stop month_start month_end = Ok q).
Proof.
  split; [|split; [|split]].
  - intros clock df. unfold enrich_projects.
    destruct (TotalityFacts.enrich_rows_total (date_today clock) df)
      as (es & Hes & Hall).
    exists es. split; [exact Hes|].
    intros row Hin Hz.
    apply list_elem_of_lookup in Hin as [i Hi].
    destruct (Forall2_lookup_r _ _ _ _ _ Hall Hi) as (r & _ & Hr).
    destruct (TotalityFacts.enrich_row_total (date_today clock) r) as (e' & He' & Hsrc & _).
    assert (e' = row) as -> by congruence.
    rewrite Hsrc in Hz.
    exact (TotalityFacts.cost_ratio_zero _ _ _ Hr Hz).
  - intros df month_start.
    destruct (TotalityFacts.month_record_total df month_start) as (b & Hb & _ & Hz).
    exists b. split; assumption.
  - intros value s e month_start month_end Hdays.
    unfold allocate_value. cbn [fzero fmul int_truediv exact]. cbn [coerce_date].
    destruct (_ || _); [reflexivity|].
    destruct (_ >? _); [reflexivity|].
    destruct (Z.leb_spec (e - s + 1) 0) as [H | H]; [reflexivity | lia].
  - intros. apply TotalityFacts.allocate_value_total.
Qed.

(** Witness of C6: a project whose end is before its start. *)
Lemma C6_zero_denominator_guard_witness :
  allocate_value 100%Q (Date 739500) (Date 739400) 739433 739463 = Ok 0%Q.
Proof.
  apply (proj1 (proj2 (proj2 C6_zero_denominator_guard))). lia.
Defined.

(** C7. With the fiscal year starting in July, the aggregation of the
    empty table for the fiscal year 2025 is a table of twelve records, for
    the months from 2025-07-01 to 2026-06-01 in order, and every numeric
    column of every record, the cumulative cash flow included, is 0. *)
Theorem C7_empty_table_aggregation :
  FISCAL_START_MONTH = 7 /\
  exists buckets,
    compute_monthly_aggregation [] (get_fiscal_year_range 2025) = Ok buckets /\
    length buckets = 12%nat /\
    Forall2 zero_bucket
      [ymd2ord 2025 7 1; ymd2ord 2025 8 1; ymd2ord 2025 9 1; ymd2ord 2025 10 1;
       ymd2ord 2025 11 1; ymd2ord 2025 12 1; ymd2ord 2026 1 1; ymd2ord 2026 2 1;
       ymd2ord 2026 3 1; ymd2ord 2026 4 1; ymd2ord 2026 5 1; ymd2ord 2026 6 1]
      buckets.
Proof.
  split; [reflexivity|].
  eexists. split; [vm_compute; reflexivity|].
  split; [reflexivity|].
  repeat (constructor; [repeat split|]). constructor.
Qed.


(** C2. [determine_risk_level] does not return the level "低" (it returns
    "高") when the row is over budget, or its progress gap is below -30,
    or its delay is positive, or its manual level is "高". Two calls on the
    same row return the same pair. The level after each rule, in the order
    of the rules, is one of the three levels and its severity is at least
    the severity before the rule; the level returned is the level after
    the last rule. *)
Theorem C2_risk_monotonicity :
  (forall row,
     over_budget row = true \/ (progress_gap row < -30)%Q \/
     (0 < delay_days row)%Q \/ manual_level_raw row = HIGH ->
     (determine_risk_level row).1 <> LOW /\ (determine_risk_level row).1 = HIGH) /\
  (forall row r1 r2,
     r1 = determine_risk_level row -> r2 = determine_risk_level row -> r1 = r2) /\
  (forall row,
     (exists reasons,
        last (risk_trace row) = Some ((determine_risk_level row).1, reasons)) /\
     forall i st st',
       risk_trace row !! i = Some st -> risk_trace row !! S i = Some st' ->
       valid_level st.1 /\ valid_level st'.1 /\
       risk_rank st.1 <= risk_rank st'.1).
Proof.
  split; [|split].
  - intros row Htrigger.
    rewrite RiskFacts.determine_risk_level_final.
    pose proof (RiskFacts.risk_chain row) as Hchain. cbv zeta in Hchain.
    destruct Hchain as ([I1 R1] & [I2 R2] & [I3 R3] & [I4 R4] & [I5 R5]).
    assert (2 <= risk_rank
              (rule_manual row (rule_delay row (rule_progress row
                 (rule_budget row (LOW, []))))).1) as Hhigh.
    { destruct Htrigger as [Hb | [Hp | [Hd | Hm]]].
      - rewrite (RiskFacts.budget_sets_high row _ Hb), RiskFacts.rank_HIGH in R2. lia.
      - rewrite (RiskFacts.progress_sets_high row _ Hp), RiskFacts.rank_HIGH in R3. lia.
      - rewrite (RiskFacts.delay_sets_high row _ Hd), RiskFacts.rank_HIGH in R4. lia.
      - rewrite (RiskFacts.manual_sets_high row _ Hm (proj1 I3)), RiskFacts.rank_HIGH.
        lia. }
    rewrite (RiskFacts.rank_top _ (proj1 I5) ltac:(lia)).
    split; [vm_compute; discriminate | reflexivity].
  - intros row r1 r2 -> ->. reflexivity.
  - intros row. split.
    + rewrite RiskFacts.determine_risk_level_final. unfold risk_trace. cbn [last].
      destruct (rule_memo _ _) as [level reasons]. exists reasons. reflexivity.
    + pose proof (RiskFacts.risk_chain row) as Hchain. cbv zeta in Hchain.
      destruct Hchain as ([I1 R1] & [I2 R2] & [I3 R3] & [I4 R4] & [I5 R5]).
      pose proof RiskFacts.risk_inv_init as I0.
      intros i st st'. unfold risk_trace. cbv zeta.
      apply (RiskFacts.adjacent_six _ _ _ _ _ _
               (fun a b => valid_level a.1 /\ valid_level b.1 /\
                           risk_rank a.1 <= risk_rank b.1));
        repeat split;
        first [ apply I0 | apply I1 | apply I2 | apply I3 | apply I4 | apply I5
              | assumption ].
Qed.

(** Witness of C2: an over-budget row with no other signal. *)
Lemma C2_risk_monotonicity_witness :
  (determine_risk_level (mkRiskRow true 0 0 [] (Str []))).1 <> LOW.
Proof.
  apply (proj1 C2_risk_monotonicity (mkRiskRow true 0 0 [] (Str []))).
  left. reflexivity.
Defined.


(** C4. [calculate_expected_progress] always returns a number between 0
    and 100. It is 0 when the start or the end is missing or the start is
    not before the end; otherwise 0 when today is not after the start, 100
    when today is not before the end, and between the two the elapsed days
    over the total days times 100 (a value within [0, 100], so that the
    clamp leaves it unchanged). It does not decrease when today advances.
    With start 2025-10-01, end 2025-10-11 and today 2025-10-06 it is 50. *)
Theorem C4_expected_progress :
  (forall row today,
     let start := option_or (coerce_date (planned_start row))
                            (coerce_date (actual_start row)) in
     let stop := coerce_date (planned_end row) in
     exists p,
       calculate_expected_progress row today = Ok p /\
       (0 <= p <= 100)%Q /\
       (start = None \/ stop = None -> p = 0%Q) /\
       (forall s e, start = Some s -> stop = Some e ->
          (s >= e -> p = 0%Q) /\
          (s < e -> today <= s -> p = 0%Q) /\
          (s < e -> today >= e -> p = 100%Q) /\
          (s < today < e ->
             (p == inject_Z (today - s) / inject_Z (e - s) * 100)%Q /\
             p = Py.max 0 (Py.min 100
                   (inject_Z (today - s) / inject_Z (e - s) * 100))%Q)) /\
       (forall today' p',
          today <= today' ->
          calculate_expected_progress row today' = Ok p' -> (p <= p')%Q)) /\
  (forall row,
     planned_start row = Date (ymd2ord 2025 10 1) ->
     planned_end row = Date (ymd2ord 2025 10 11) ->
     exists p,
       calculate_expected_progress row (ymd2ord 2025 10 6) = Ok p /\
       (p == 50)%Q).
Proof.
  split.
  - intros row today start stop.
    destruct start as [s|] eqn:Es; [destruct stop as [e|] eqn:Ee|].
    1: destruct (Z.lt_ge_cases s e) as [Hse | Hse].
    + (* a span *)
      exists (progress_at s e today).
      pose proof (ProgressFacts.calculate_expected_progress_dates row) as Hcalc.
      split; [apply Hcalc; assumption|].
      split; [apply ProgressFacts.progress_at_bounds; exact Hse|].
      split; [intros [H | H]; discriminate|].
      split.
      * intros s' e' Hs' He'. injection Hs' as <-. injection He' as <-.
        unfold progress_at.
        split; [lia|]. split.
        { intros _ Ht. destruct (Z.leb_spec today s); [reflexivity | lia]. }
        split.
        { intros _ Ht. destruct (Z.leb_spec today s); [lia|].
          destruct (Z.geb_spec today e); [reflexivity | lia]. }
        intros [Hlo Hhi].
        destruct (Z.leb_spec today s); [lia|].
        destruct (Z.geb_spec today e); [lia|].
        split; [|reflexivity].
        apply ProgressFacts.clamp_in_range; apply ProgressFacts.ratio_bounds; lia.
      * intros today' p' Hle Hp'.
        rewrite (Hcalc today' s e Es Ee Hse) in Hp'. injection Hp' as <-.
        apply ProgressFacts.progress_at_mono; assumption.
    + (* the start is not before the end *)
      assert (forall t, calculate_expected_progress row t = Ok 0%Q) as Hzero.
      { intros t. apply ProgressFacts.calculate_expected_progress_no_span.
        fold start stop. rewrite Es, Ee. lia. }
      exists 0%Q. split; [apply Hzero|].
      split; [split; discriminate|].
      split; [reflexivity|].
      split.
      * intros s' e' Hs' He'. injection Hs' as <-. injection He' as <-.
        split; [reflexivity|]. repeat split; intros; lia.
      * intros today' p' _ Hp'. rewrite Hzero in Hp'. injection Hp' as <-.
        discriminate.
    + (* no end *)
      assert (forall t, calculate_expected_progress row t = Ok 0%Q) as Hzero.
      { intros t. apply ProgressFacts.calculate_expected_progress_no_span.
        fold start stop. rewrite Es, Ee. exact I. }
      exists 0%Q. split; [apply Hzero|].
      split; [split; discriminate|].
      split; [reflexivity|].
      split; [intros s' e' _ He'; discriminate|].
      intros today' p' _ Hp'. rewrite Hzero in Hp'. injection Hp' as <-.
      discriminate.
    + (* no start *)
      assert (forall t, calculate_expected_progress row t = Ok 0%Q) as Hzero.
      { intros t. apply ProgressFacts.calculate_expected_progress_no_span.
        fold start. rewrite Es. exact I. }
      exists 0%Q. split; [apply Hzero|].
      split; [split; discriminate|].
      split; [reflexivity|].
      split; [intros s' e' Hs'; discriminate|].
      intros today' p' _ Hp'. rewrite Hzero in Hp'. injection Hp' as <-.
      discriminate.
  - intros row Hs He. unfold calculate_expected_progress. rewrite Hs, He.
    eexists. split; [vm_compute; reflexivity|]. reflexivity.
Qed.

(** Witness of C4: a row from 2025-10-01 to 2025-10-11. *)
Lemma C4_expected_progress_witness :
  exists p,
    calculate_expected_progress
      (mkRow 0 0 0 0 0 0 0 (Date (ymd2ord 2025 10 1)) (Date (ymd2ord 2025 10 11))
         Absent Absent Absent Absent Absent Absent [] [] [] (Str []))
      (ymd2ord 2025 10 6) = Ok p /\ (p == 50)%Q.
Proof.
  apply (proj2 C4_expected_progress); reflexivity.
Defined.


(** C3, as stated, fails: the table is the only argument of
    [enrich_projects], and two calls on the same table return different
    tables when the clock shows 2025-10-06 for the first and 2025-10-08 for
    the second (expected progress 50 and 70). *)
Lemma C3_enrich_reads_clock :
  enrich_projects (mkClock (ymd2ord 2025 10 6) 0) [C3_row]
  <> enrich_projects (mkClock (ymd2ord 2025 10 8) 0) [C3_row].
Proof. intros H. vm_compute in H. discriminate H. Qed.

(** C3, amended. [enrich_projects] reads the current date from the clock
    and nothing else from it: it returns what the pure function
    [enrich_rows] returns for that date and the table, it always returns a
    table, and two calls on the same table under clocks that show the same
    date return equal tables. *)
Theorem C3_enrich_deterministic_in_date (clock1 clock2 : Clock) (df : list Row) :
  date_today clock1 = date_today clock2 ->
  enrich_projects clock1 df = enrich_projects clock2 df /\
  enrich_projects clock1 df = enrich_rows (date_today clock1) df /\
  exists enriched,
    enrich_projects clock1 df = Ok enriched /\ length enriched = length df.
Proof.
  intros Hdate. unfold enrich_projects. rewrite Hdate.
  split; [reflexivity|]. split; [reflexivity|].
  destruct (TotalityFacts.enrich_rows_total (date_today clock2) df) as (es & Hes & Hall).
  exists es. split; [exact Hes|]. symmetry. exact (Forall2_length _ _ _ Hall).
Qed.

Lemma C3_enrich_deterministic_in_date_witness :
  enrich_projects (mkClock (ymd2ord 2025 10 6) 0) [C3_row]
  = enrich_projects (mkClock (ymd2ord 2025 10 6) 43200) [C3_row].
Proof.
  apply (C3_enrich_deterministic_in_date
           (mkClock (ymd2ord 2025 10 6) 0) (mkClock (ymd2ord 2025 10 6) 43200)
           [C3_row]).
  reflexivity.
Defined.


(** C5. The domain of both axis builders starts on the first day of a
    month and ends on the last day of a month, for every input. Every date
    range of the input (a start and an end, the start not after the end)
    lies within the domain, both dates included; for [gen_time_marks] so
    does the fallback range. More precisely no start date of the input is
    before the start of the domain and no end date is after its end. *)
Theorem C5_axis_domain_containment :
  (forall tasks fallback_start fallback_end,
     let marks := gen_time_marks tasks (fallback_start, fallback_end) in
     let domain_start := (App.domain marks).1 in
     let domain_end := (App.domain marks).2 in
     first_of_month domain_start /\ last_of_month domain_end /\
     domain_start <= fallback_start /\ fallback_end <= domain_end /\
     forall row, row ∈ tasks ->
       (forall s, planned_start row = Date s -> domain_start <= s) /\
       (forall e, planned_end row = Date e -> e <= domain_end) /\
       (forall s e, planned_start row = Date s -> planned_end row = Date e ->
          s <= e ->
          domain_start <= s <= domain_end /\ domain_start <= e <= domain_end)) /\
  (forall starts ends,
     (forall marks, Gantt._build_axis_marks starts ends = Ok marks ->
        first_of_month (Gantt.domain_start marks) /\
        last_of_month (Gantt.domain_end marks) /\
        (forall s, Some s ∈ starts -> Gantt.domain_start marks <= s) /\
        (forall e, Some e ∈ ends -> e <= Gantt.domain_end marks) /\
        (forall i s e,
           starts !! i = Some (Some s) -> ends !! i = Some (Some e) -> s <= e ->
           Gantt.domain_start marks <= s <= Gantt.domain_end marks /\
           Gantt.domain_start marks <= e <= Gantt.domain_end marks)) /\
     (forall s e, Some s ∈ starts -> Some e ∈ ends ->
        exists marks, Gantt._build_axis_marks starts ends = Ok marks)).
Proof.
  split.
  - intros tasks fallback_start fallback_end marks domain_start domain_end.
    subst domain_start domain_end marks.
    rewrite AxisFacts.gen_time_marks_domain.
    destruct (AxisFacts.time_domain_spec tasks fallback_start fallback_end)
      as (start_ts & end_ts & -> & Hord & Hfs & Hfe & Hrows).
    cbn [fst snd].
    pose proof (month_floor_le (start_ts - 3)) as Hlo.
    pose proof (month_end_ge (end_ts + 3)) as Hhi.
    rewrite <- month_end_of_unfold in Hhi.
    split; [apply AxisFacts.month_floor_first|].
    split; [apply AxisFacts.month_end_last|].
    split; [lia|]. split; [lia|].
    intros row Hrow. destruct (Hrows row Hrow) as [Hs He].
    assert (forall s, planned_start row = Date s -> start_ts <= s) as Hs'
      by (intros s Es; apply Hs; rewrite Es; reflexivity).
    assert (forall e, planned_end row = Date e -> e <= end_ts) as He'
      by (intros e Ee; apply He; rewrite Ee; reflexivity).
    split; [intros s Es; specialize (Hs' s Es); lia|].
    split; [intros e Ee; specialize (He' e Ee); lia|].
    intros s e Es Ee Hse. specialize (Hs' s Es). specialize (He' e Ee). lia.
  - intros starts ends.
    pose proof (GanttAxisFacts.build_axis_marks_spec starts ends) as Hspec.
    pose proof (AxisFacts.series_min_spec (dropna starts)) as Hmin.
    pose proof (AxisFacts.series_max_spec (dropna ends)) as Hmax.
    split.
    + intros marks Hmarks.
      destruct (series_min (dropna starts)) as [s0|];
        [destruct (series_max (dropna ends)) as [e0|]|].
      * destruct Hspec as (marks' & Hm' & Hds & Hde).
        rewrite Hmarks in Hm'. injection Hm' as <-. rewrite Hds, Hde.
        split; [apply AxisFacts.month_floor_first|].
        split; [apply AxisFacts.month_end_last|].
        assert (forall s, Some s ∈ starts -> month_floor s0 <= s) as Hlo.
        { intros s Hs. apply AxisFacts.elem_of_dropna in Hs.
          specialize (Hmin s Hs). pose proof (month_floor_le s0). lia. }
        assert (forall e, Some e ∈ ends -> e <= add_month (month_floor e0) - 1) as Hhi.
        { intros e He. apply AxisFacts.elem_of_dropna in He.
          specialize (Hmax e He). pose proof (month_end_ge e0) as Hge.
          rewrite <- month_end_of_unfold in Hge. lia. }
        split; [exact Hlo|]. split; [exact Hhi|].
        intros i s e Hs He Hse.
        specialize (Hlo s (list_elem_of_lookup_2 _ _ _ Hs)).
        specialize (Hhi e (list_elem_of_lookup_2 _ _ _ He)). lia.
      * destruct Hspec as [msg Hmsg]. rewrite Hmarks in Hmsg. discriminate.
      * destruct Hspec as [msg Hmsg]. rewrite Hmarks in Hmsg. discriminate.
    + intros s e Hs He.
      apply AxisFacts.elem_of_dropna in Hs. apply AxisFacts.elem_of_dropna in He.
      destruct (series_min (dropna starts)) as [s0|];
        [destruct (series_max (dropna ends)) as [e0|]|].
      * destruct Hspec as (marks & Hm & _). eauto.
      * rewrite Hmax in He. inversion He.
      * rewrite Hmin in Hs. inversion Hs.
Qed.

(** Witness of C5: one task within the fiscal year 2025. *)
Lemma C5_axis_domain_containment_witness :
  let task := mkRow 0 0 0 0 0 0 0 (Date (ymd2ord 2025 7 10)) (Date (ymd2ord 2025 10 30))
                Absent Absent Absent Absent Absent Absent [] [] [] (Str []) in
  let marks := gen_time_marks [task] (ymd2ord 2025 7 1, ymd2ord 2026 6 30) in
  (App.domain marks).1 <= ymd2ord 2025 7 10 <= (App.domain marks).2.
Proof.
  intros task marks.
  pose proof (proj1 C5_axis_domain_containment [task]
                (ymd2ord 2025 7 1) (ymd2ord 2026 6 30)) as H.
  cbv zeta in H. destruct H as (_ & _ & _ & _ & Hrows).
  destruct (Hrows task (list_elem_of_here _ _)) as (_ & _ & Hboth).
  apply (Hboth (ymd2ord 2025 7 10) (ymd2ord 2025 10 30));
    [reflexivity | reflexivity | vm_compute; discriminate].
Defined.


(** C9. The minor marks of [gen_time_marks] are the days of the domain
    that are the 6th, 12th, 18th or 24th of their month or the last day of
    their month, each once, in ascending order, with one label each. When
    a position is generated more than once, the label kept is the one
    generated last (for any generated sequence, and so for the one of
    [gen_time_marks]). In every iteration the pair of the month end is
    generated after the pairs of the numbered days, and the label of a mark
    that is the last day of its month is "月末"; the label of any other
    mark is its day number followed by "日". *)
Theorem C9_minor_marks :
  (forall (generated before after : list (Z * str)) d label,
     generated = before ++ (d, label) :: after -> d ∉ after.*1 ->
     dedup_marks generated !! d = Some label) /\
  (forall ds de month_start,
     exists days,
       month_minor_marks ds de month_start
       = days ++ (if (month_end_of month_start >=? ds) && (month_end_of month_start <=? de)
                  then [(month_end_of month_start, lit "月末")] else []) /\
       forall p, p ∈ days ->
         exists day, (day = 6 \/ day = 12 \/ day = 18 \/ day = 24) /\
           p = (month_start + (day - 1), str_of_Z day ++ lit "日")) /\
  (forall tasks fallback,
     let marks := gen_time_marks tasks fallback in
     let generated := generated_minor_marks tasks fallback in
     (forall d, d ∈ App.minor_marks marks <->
        (App.domain marks).1 <= d <= (App.domain marks).2 /\
        (day_of d = 6 \/ day_of d = 12 \/ day_of d = 18 \/ day_of d = 24 \/
         last_of_month d)) /\
     NoDup (App.minor_marks marks) /\
     Sorted Z.le (App.minor_marks marks) /\
     length (App.minor_labels marks) = length (App.minor_marks marks) /\
     (forall i d label,
        App.minor_marks marks !! i = Some d ->
        App.minor_labels marks !! i = Some label ->
        (exists before after,
           generated = before ++ (d, label) :: after /\ d ∉ after.*1) /\
        (last_of_month d -> label = lit "月末") /\
        (~ last_of_month d -> label = str_of_Z (day_of d) ++ lit "日"))).
Proof.
  split; [|split].
  - intros generated before after d label Hgen Hnot.
    apply DedupFacts.dedup_marks_lookup. eauto.
  - intros ds de month_start. eexists. split; [reflexivity|].
    intros p Hp. cbn [flat_map] in Hp. rewrite app_nil_r in Hp.
    rewrite !elem_of_app, !MinorFacts.candidate_elem in Hp.
    destruct Hp as [H | [H | [H | H]]]; destruct H as [-> _];
      eexists; (split; [|reflexivity]); tauto.
  - intros tasks fallback marks generated. subst marks generated.
    rewrite AxisFacts.gen_time_marks_domain.
    split; [|split; [|split; [|split]]].
    + intros d. rewrite MinorFacts.minor_mark_generated. split.
      * intros [label H]. apply MinorFacts.generated_sound in H as [Hdom Hkind].
        split; [exact Hdom|].
        destruct Hkind as [(day & Hday & Hd & _) | [Hlast _]]; [|tauto].
        rewrite Hd. tauto.
      * intros [Hdom Hkind]. apply MinorFacts.generated_complete; assumption.
    + destruct (MinorFacts.gen_time_marks_minor tasks fallback) as [-> _].
      apply DedupFacts.sorted_keys_NoDup.
    + destruct (MinorFacts.gen_time_marks_minor tasks fallback) as [-> _].
      apply DedupFacts.sorted_keys_Sorted.
    + destruct (MinorFacts.gen_time_marks_minor tasks fallback) as [-> ->].
      apply length_fmap.
    + intros i d label Hd Hl.
      destruct (MinorFacts.minor_label_last tasks fallback i d label Hd Hl)
        as (before & after & Hgen & Hnot).
      split; [eauto|].
      assert ((d, label) ∈ generated_minor_marks tasks fallback) as Hin.
      { rewrite Hgen. apply elem_of_app. right. apply list_elem_of_here. }
      apply MinorFacts.generated_sound in Hin as [_ Hkind].
      destruct Hkind as [(day & _ & Hday & -> & Hnl) | [Hlast ->]].
      * split; [tauto|]. intros _. rewrite Hday. reflexivity.
      * split; [reflexivity | tauto].
Qed.

(** Witness of C9: a position generated twice, first for day 24 and then
    for the month end, keeps the label "月末". *)
Lemma C9_minor_marks_witness :
  dedup_marks [(739457, lit "24日"); (739463, lit "月末"); (739457, lit "月末")]
    !! 739457 = Some (lit "月末").
Proof.
  apply (proj1 C9_minor_marks _ [(739457, lit "24日"); (739463, lit "月末")] []).
  - reflexivity.
  - cbn. apply not_elem_of_nil.
Defined.


(** C10. [create_project_gantt_chart] returns a figure or raises
    [ValueError], nothing else. It raises when a required column is
    missing; else when no cell of the start column, or else of the end
    column, converts to a date; else when no row has both dates with the
    end not before the start. In every other case it returns a figure. *)
Theorem C10_gantt_chart_errors (df : Gantt.DataFrame) :
  ((exists msg, Gantt.create_project_gantt_chart df = Raise (ValueError msg)) <->
   ~ has_required_columns df \/
   ~ some_parseable (Gantt.start_cell <$> Gantt.rows df) \/
   ~ some_parseable (Gantt.end_cell <$> Gantt.rows df) \/
   ~ some_valid_row df) /\
  ((exists fig, Gantt.create_project_gantt_chart df = Ok fig) <->
   has_required_columns df /\ some_valid_row df) /\
  (~ has_required_columns df ->
   Gantt.create_project_gantt_chart df
   = Raise (ValueError (lit "DataFrame に必要な列がありません: "
                        ++ join (lit ", ") (Gantt.missing_columns df)))) /\
  (has_required_columns df ->
   ~ some_parseable (Gantt.start_cell <$> Gantt.rows df) ->
   Gantt.create_project_gantt_chart df
   = Raise (ValueError (lit "列 '開始日' の有効な日付が見つかりません。"))) /\
  (has_required_columns df ->
   some_parseable (Gantt.start_cell <$> Gantt.rows df) ->
   ~ some_parseable (Gantt.end_cell <$> Gantt.rows df) ->
   Gantt.create_project_gantt_chart df
   = Raise (ValueError (lit "列 '終了日' の有効な日付が見つかりません。"))) /\
  (has_required_columns df ->
   some_parseable (Gantt.start_cell <$> Gantt.rows df) ->
   some_parseable (Gantt.end_cell <$> Gantt.rows df) ->
   ~ some_valid_row df ->
   Gantt.create_project_gantt_chart df
   = Raise (ValueError (lit "開始日と終了日が正しく設定された行が存在しません。"))).
Proof.
  apply GanttFacts.outcome_logic.
  - intros (r & s & e & Hr & Hs & He & _). split.
    + exists (Gantt.start_cell r), s. split; [|exact Hs].
      apply list_elem_of_fmap_2. exact Hr.
    + exists (Gantt.end_cell r), e. split; [|exact He].
      apply list_elem_of_fmap_2. exact Hr.
  - apply GanttFacts.create_project_gantt_chart_cases.
Qed.

(** Witness of C10: a table without the end column. *)
Lemma C10_gantt_chart_errors_witness :
  exists msg,
    Gantt.create_project_gantt_chart
      (Gantt.mkDataFrame [Gantt.COL_NAME; Gantt.COL_START] []) = Raise (ValueError msg).
Proof.
  apply (proj2 (proj1 (C10_gantt_chart_errors
           (Gantt.mkDataFrame [Gantt.COL_NAME; Gantt.COL_START] [])))).
  left. intros (_ & _ & H). vm_compute in H.
  repeat (apply elem_of_cons in H as [H | H]; [discriminate H|]).
  inversion H.
Defined.


(** C8. [hex_to_rgb] reads six hexadecimal digits as three bytes and
    three digits as three doubled digits, with or without a leading [#].
    A string whose cleaned form has neither three nor six characters is
    not parsed. Otherwise the parse succeeds exactly when [int(., 16)]
    accepts each of the three pairs of characters (a [ValueError] is
    caught); so a string with a character that is no hexadecimal digit,
    blank or sign is not parsed. When the parse fails the colour is the
    dark brand colour; otherwise the colour is white exactly when the
    relative luminance (linear-light channels by the piecewise sRGB
    transform, weights 0.2126, 0.7152, 0.0722, over the reals) is below
    0.55, and the dark brand colour otherwise. "#0B1F3A" gives white and
    "#FFFFFF" the dark brand colour; "#12345G", which is no hexadecimal
    number, gives the dark brand colour, and "+f+f+f", three signed
    digits, white. *)
Theorem C8_contrasting_text_color :
  (forall c0 c1 c2 c3 c4 c5 v0 v1 v2 v3 v4 v5,
     hex_digit c0 = Some v0 -> hex_digit c1 = Some v1 ->
     hex_digit c2 = Some v2 -> hex_digit c3 = Some v3 ->
     hex_digit c4 = Some v4 -> hex_digit c5 = Some v5 ->
     Colour.hex_to_rgb [c0; c1; c2; c3; c4; c5]
     = Some (16 * v0 + v1, 16 * v2 + v3, 16 * v4 + v5) /\
     Colour.hex_to_rgb (35 :: [c0; c1; c2; c3; c4; c5])
     = Some (16 * v0 + v1, 16 * v2 + v3, 16 * v4 + v5)) /\
  (forall c0 c1 c2 v0 v1 v2,
     hex_digit c0 = Some v0 -> hex_digit c1 = Some v1 ->
     hex_digit c2 = Some v2 ->
     Colour.hex_to_rgb [c0; c1; c2] = Some (17 * v0, 17 * v1, 17 * v2) /\
     Colour.hex_to_rgb (35 :: [c0; c1; c2])
     = Some (17 * v0, 17 * v1, 17 * v2)) /\
  (forall color,
     let cleaned := lstrip_by (fun c => c =? 35) (strip color) in
     length cleaned <> 3%nat -> length cleaned <> 6%nat ->
     Colour.hex_to_rgb color = None) /\
  (forall color r g b,
     Colour.hex_to_rgb color = Some (r, g, b) <->
     exists c0 c1 c2 c3 c4 c5,
       hex_chars color = [c0; c1; c2; c3; c4; c5] /\
       int_ [c0; c1] 16 = Some r /\ int_ [c2; c3] 16 = Some g /\
       int_ [c4; c5] 16 = Some b) /\
  (forall color c,
     c ∈ hex_chars color -> literal_char c = false ->
     Colour.hex_to_rgb color = None) /\
  (forall color,
     Colour.hex_to_rgb color = None ->
     Colour.get_contrasting_text_color color = Colour.NAVY) /\
  (forall color,
     (Colour.get_contrasting_text_color color = Colour.WHITE <->
      exists r g b,
        Colour.hex_to_rgb color = Some (r, g, b) /\
        (Colour.relative_luminance_spec (IZR r / 255) (IZR g / 255) (IZR b / 255)
         < 0.55)%R) /\
     (Colour.get_contrasting_text_color color = Colour.WHITE \/
      Colour.get_contrasting_text_color color = Colour.NAVY)) /\
  Colour.get_contrasting_text_color (lit "#0B1F3A") = Colour.WHITE /\
  Colour.get_contrasting_text_color (lit "#FFFFFF") = Colour.NAVY /\
  Colour.get_contrasting_text_color (lit "#12345G") = Colour.NAVY /\
  Colour.get_contrasting_text_color (lit "+f+f+f") = Colour.WHITE.
Proof.
  split; [exact ColourFacts.hex_to_rgb_six|].
  split; [exact ColourFacts.hex_to_rgb_three|].
  split.
  { intros color cleaned H3 H6. unfold Colour.hex_to_rgb. fold cleaned.
    destruct (Nat.eqb_spec (length cleaned) 3) as [E | _]; [contradiction|].
    destruct cleaned as [|? [|? [|? [|? [|? [|? [|? ?]]]]]]];
      try reflexivity. exfalso. apply H6. reflexivity. }
  split; [exact ColourFacts.hex_to_rgb_some|].
  split; [exact ColourFacts.hex_to_rgb_bad_char|].
  assert (forall color,
            Colour.hex_to_rgb color = None ->
            Colour.get_contrasting_text_color color = Colour.NAVY) as Hnone.
  { intros color Hnone. unfold Colour.get_contrasting_text_color.
    rewrite Hnone. reflexivity. }
  split; [exact Hnone|].
  split.
  { intros color. unfold Colour.get_contrasting_text_color.
    destruct (Colour.hex_to_rgb color) as [[[r g] b]|].
    - rewrite ColourFacts.luminance_spec.
      destruct (Rlt_dec _ 0.55) as [Hlt | Hge].
      + split; [|left; reflexivity]. split; [|reflexivity].
        intros _. exists r, g, b. split; [reflexivity | exact Hlt].
      + split; [|right; reflexivity]. split.
        * intros H. symmetry in H. destruct (ColourFacts.white_not_navy H).
        * intros (r' & g' & b' & Heq & Hlt). injection Heq as <- <- <-.
          contradiction.
    - split; [|right; reflexivity]. split.
      + intros H. symmetry in H. destruct (ColourFacts.white_not_navy H).
      + intros (r & g & b & Heq & _). discriminate. }
  split; [|split; [|split]].
  - unfold Colour.get_contrasting_text_color.
    change (lit "#0B1F3A") with (35 :: [48; 66; 49; 70; 51; 65]).
    destruct (ColourFacts.hex_to_rgb_six 48 66 49 70 51 65
                0 11 1 15 3 10 eq_refl eq_refl eq_refl eq_refl eq_refl eq_refl)
      as [_ ->].
    change (16 * 0 + 11, 16 * 1 + 15, 16 * 3 + 10) with (11, 31, 58).
    destruct (Rlt_dec _ 0.55) as [Hlt | Hge]; [reflexivity|].
    destruct (Hge ColourFacts.luminance_navy).
  - unfold Colour.get_contrasting_text_color.
    change (lit "#FFFFFF") with (35 :: [70; 70; 70; 70; 70; 70]).
    destruct (ColourFacts.hex_to_rgb_six 70 70 70 70 70 70
                15 15 15 15 15 15 eq_refl eq_refl eq_refl eq_refl eq_refl eq_refl)
      as [_ ->].
    change (16 * 15 + 15, 16 * 15 + 15, 16 * 15 + 15) with (255, 255, 255).
    destruct (Rlt_dec _ 0.55) as [Hlt | Hge]; [|reflexivity].
    rewrite ColourFacts.luminance_white in Hlt. exfalso. Lra.lra.
  - apply Hnone. apply (ColourFacts.hex_to_rgb_bad_char _ 71).
    + change (hex_chars (lit "#12345G")) with [49; 50; 51; 52; 53; 71].
      do 5 apply list_elem_of_further. apply list_elem_of_here.
    + reflexivity.
  - unfold Colour.get_contrasting_text_color.
    assert (Colour.hex_to_rgb (lit "+f+f+f") = Some (15, 15, 15)) as ->
      by (vm_compute; reflexivity).
    destruct (Rlt_dec _ 0.55) as [Hlt | Hge]; [reflexivity|].
    destruct (Hge ColourFacts.luminance_dark_grey).
Qed.

(** Witness of C8: a colour with a letter that is no hexadecimal digit. *)
Lemma C8_contrasting_text_color_witness :
  Colour.hex_to_rgb (lit "#12345G") = None.
Proof.
  apply (proj1 (proj2 (proj2 (proj2 (proj2 C8_contrasting_text_color))))
           (lit "#12345G") 71).
  - change (hex_chars (lit "#12345G")) with [49; 50; 51; 52; 53; 71].
    do 5 apply list_elem_of_further. apply list_elem_of_here.
  - reflexivity.
Defined.


(** ** Further properties of the code *)

(** X1. The fiscal year of [get_fiscal_year_range] runs from July 1st of
    the year to June 30th of the next year, both included; it has 365
    days, or 366 when the next year is a leap year; and its months, as
    [pd.date_range(..., freq="MS")] lists them, are the first days of July
    to December of the year and of January to June of the next. *)
Theorem X1_fiscal_year_range (year : Z) :
  get_fiscal_year_range year = (ymd2ord year 7 1, ymd2ord (year + 1) 6 30) /\
  (get_fiscal_year_range year).2 - (get_fiscal_year_range year).1 + 1
  = (if is_leap (year + 1) then 366 else 365) /\
  date_range_MS (get_fiscal_year_range year).1 (get_fiscal_year_range year).2
  = [ymd2ord year 7 1; ymd2ord year 8 1; ymd2ord year 9 1; ymd2ord year 10 1;
     ymd2ord year 11 1; ymd2ord year 12 1; ymd2ord (year + 1) 1 1;
     ymd2ord (year + 1) 2 1; ymd2ord (year + 1) 3 1; ymd2ord (year + 1) 4 1;
     ymd2ord (year + 1) 5 1; ymd2ord (year + 1) 6 1].
Proof.
  assert (get_fiscal_year_range year
          = (ymd2ord year 7 1, ymd2ord (year + 1) 6 30)) as Hrange.
  { unfold get_fiscal_year_range, FISCAL_START_MONTH.
    rewrite ProrationFacts.add_year_first by lia. f_equal.
    unfold ymd2ord, days_before_month. cbn [DAYS_BEFORE_MONTH].
    change (2 <? 7) with true. change (2 <? 6) with true.
    destruct (is_leap (year + 1)); cbn [andb]; lia. }
  split; [exact Hrange|]. split.
  - rewrite Hrange. cbn [fst snd]. unfold ymd2ord, days_before_month.
    cbn [DAYS_BEFORE_MONTH]. change (2 <? 7) with true. change (2 <? 6) with true.
    rewrite days_before_year_succ. unfold year_length.
    destruct (is_leap year), (is_leap (year + 1)); cbn [andb]; lia.
  - rewrite ProrationFacts.fiscal_year_months.
    unfold seqZ. change (Z.to_nat 12) with 12%nat.
    cbn [seq fmap list_fmap].
    rewrite <- !index_of_ymd by lia.
    repeat (apply (f_equal2 cons); [apply (f_equal month_start_of_index); lia|]).
    reflexivity.
Qed.

(** X2. [allocate_value] gives nothing when a date is missing or when the
    range and the window do not meet, and for a value that is not negative
    it gives an amount between 0 and the value. *)
Theorem X2_allocate_value_bounds :
  (forall value start stop month_start month_end,
     coerce_date start = None \/ coerce_date stop = None ->
     allocate_value value start stop month_start month_end = Ok 0%Q) /\
  (forall value s e month_start month_end,
     month_end < s \/ e < month_start ->
     allocate_value value (Date s) (Date e) month_start month_end = Ok 0%Q) /\
  (forall value start stop month_start month_end,
     (0 <= value)%Q ->
     exists q,
       allocate_value value start stop month_start month_end = Ok q /\
       (0 <= q <= value)%Q).
Proof.
  split; [|split].
  - intros value start stop a b [H | H]; unfold allocate_value; cbn [fzero fmul int_truediv exact]; rewrite H;
      [reflexivity | destruct (coerce_date start); reflexivity].
  - intros value s e a b H. unfold allocate_value. cbn [fzero fmul int_truediv exact]. cbn [coerce_date].
    destruct (Z.gtb_spec s b), (Z.ltb_spec e a); cbn [orb]; try reflexivity; lia.
  - intros value start stop a b Hv.
    assert (exists q, Ok 0%Q = Ok q /\ (0 <= q <= value)%Q) as Hzero
      by (exists 0%Q; split; [reflexivity | split; [apply Qle_refl | exact Hv]]).
    destruct start as [| |s]; try exact Hzero.
    destruct stop as [| |e]; try exact Hzero.
    destruct (Z.le_gt_cases s e) as [Hse | Hes].
    + destruct (ProrationFacts.allocate_value_dates value s e a b Hse) as (q & Hq & Heq).
      exists q. split; [exact Hq|].
      assert (0 <= overlap_days s e a b <= e - s + 1) as Hod
        by (unfold overlap_days; lia).
      pose proof (ProgressFacts.ratio_bounds (overlap_days s e a b) (e - s + 1)
                    Hod ltac:(lia)) as Hr.
      set (x := (inject_Z (overlap_days s e a b) / inject_Z (e - s + 1))%Q) in *.
      rewrite Heq. split; Lqa.nra.
    + unfold allocate_value. cbn [fzero fmul int_truediv exact]. cbn [coerce_date].
      destruct (_ || _); [exact Hzero|].
      destruct (Z.gtb_spec (Z.max s a) (Z.min e b)); [exact Hzero | lia].
Qed.


(** X3. [compute_monthly_aggregation] returns the monthly table when the
    project table is empty or the range holds the first day of a month,
    as every fiscal year does, which holds twelve. The table has one record
    per month of the range, in order; in every record the gross profit is
    the revenue less the cost and the cash flow is the cash in less the
    cash out; and the cumulative cash flow of a record is the sum of the
    cash flows of the records up to it. For a project table with a row and
    a range without the first day of a month, [KeyError] is raised: the
    table made of no record has no column. *)
Theorem X3_monthly_table_structure (df : list Row) (start stop : Z) :
  (df = [] \/ date_range_MS start stop <> [] ->
   exists buckets,
     compute_monthly_aggregation df (start, stop) = Ok buckets /\
     month <$> buckets = date_range_MS start stop /\
     Forall (fun b =>
               (gross b == revenue b - cost b)%Q /\
               (cash_flow b == cash_in b - cash_out b)%Q) buckets /\
     forall i b, buckets !! i = Some b ->
       (cum_cash_flow b == total_cash_flow (take (S i) buckets))%Q) /\
  (df <> [] -> date_range_MS start stop = [] ->
   compute_monthly_aggregation df (start, stop)
   = Raise (KeyError (lit "キャッシュイン"))) /\
  (forall year, exists buckets,
     compute_monthly_aggregation df (get_fiscal_year_range year) = Ok buckets /\
     (month <$> buckets)
     = date_range_MS (get_fiscal_year_range year).1 (get_fiscal_year_range year).2 /\
     length buckets = 12%nat).
Proof.
  split; [apply AggregationFacts.monthly_table|].
  split; [apply AggregationFacts.monthly_table_no_month|].
  intros year.
  assert (length (date_range_MS (get_fiscal_year_range year).1
                    (get_fiscal_year_range year).2) = 12%nat) as Hlen.
  { rewrite ProrationFacts.fiscal_year_months, length_fmap, length_seqZ.
    reflexivity. }
  destruct (get_fiscal_year_range year) as [fy_start fy_end]. cbn [fst snd] in *.
  destruct (AggregationFacts.monthly_table df fy_start fy_end)
    as (buckets & Hb & Hmonths & _).
  { right. intros Hnil. rewrite Hnil in Hlen. discriminate Hlen. }
  exists buckets. split; [exact Hb|]. split; [exact Hmonths|].
  rewrite <- Hlen, <- Hmonths, length_fmap. reflexivity.
Qed.

(** Witness of X3: one project, and six days of July 2025. *)
Lemma X3_monthly_table_structure_witness :
  compute_monthly_aggregation [C3_row] (ymd2ord 2025 7 15, ymd2ord 2025 7 20)
  = Raise (KeyError (lit "キャッシュイン")).
Proof.
  apply (proj1 (proj2 (X3_monthly_table_structure [C3_row]
                         (ymd2ord 2025 7 15) (ymd2ord 2025 7 20)))).
  - discriminate.
  - reflexivity.
Defined.


(** X5. [determine_risk_level] returns the level "低" exactly for a row
    without any signal: not over budget, progress gap at least -10, no
    delay, a manual level other than "中" and "高", and a risk memo that is
    empty or absent; for such a row the comment is "安定". A row that is
    calm but for its memo gets the level "中" and the memo as its comment;
    the memo of a blank cell, which is NaN, counts: the comment is then
    "nan". The level is never below a manual level that is one of the
    three, and the comment is never empty. *)
Theorem X5_lowest_level_iff_quiet (row : RiskRow) :
  ((determine_risk_level row).1 = LOW <-> quiet row) /\
  (quiet row -> determine_risk_level row = (LOW, lit "安定")) /\
  (calm row -> text_truthy (memo row) = true ->
     determine_risk_level row = (MID, str_of_text (memo row))) /\
  (calm row -> memo row = NaN -> determine_risk_level row = (MID, lit "nan")) /\
  (forall rank,
     risk_order (strip (manual_level_raw row)) = Some rank ->
     rank <= risk_rank (determine_risk_level row).1) /\
  (determine_risk_level row).2 <> [].
Proof.
  pose proof (RiskFacts.risk_chain row) as Hchain. cbv zeta in Hchain.
  destruct Hchain as ([I1 R1] & [I2 R2] & [I3 R3] & [I4 R4] & [I5 R5]).
  assert (reasons_inv (LOW, [])) as J0 by (intros _; reflexivity).
  destruct (RiskFacts.budget_quiet row _ J0) as [J1 E1].
  destruct (RiskFacts.progress_quiet row _ I1 J1) as [J2 E2].
  destruct (RiskFacts.delay_quiet row _ J2) as [J3 E3].
  destruct (RiskFacts.manual_quiet row _ I3 J3) as (J4 & E4 & M4).
  destruct (RiskFacts.memo_quiet row _ J4) as [E5 N5].
  pose proof (RiskFacts.determine_risk_level_pair row) as Hpair.
  cbv zeta in Hpair.
  set (s1 := rule_budget row (LOW, [])) in *.
  set (s2 := rule_progress row s1) in *.
  set (s3 := rule_delay row s2) in *.
  set (s4 := rule_manual row s3) in *.
  set (s5 := rule_memo row s4) in *.
  assert (s5 = rule_memo row s4) as Hs5 by reflexivity.
  clearbody s5 s4 s3 s2 s1.
  rewrite Hpair. cbn [fst snd].
  assert (s4.1 = LOW <-> s4.2 = []) as L4.
  { split; [exact J4 | apply I4]. }
  assert (s4.2 = [] <-> calm row) as Hcalm.
  { rewrite E4, E3, E2, E1. unfold calm. cbn [snd]. tauto. }
  assert (s5.1 = LOW <-> quiet row) as Hiff.
  { rewrite E5, L4, Hcalm. unfold quiet. tauto. }
  assert (calm row -> text_truthy (memo row) = true ->
          (s5.1, risk_comment s5.2) = (MID, str_of_text (memo row))) as Hmemo.
  { intros Hc Ht. apply Hcalm in Hc. destruct s4 as [level reasons].
    cbn [fst snd] in Hc. subst reasons s5. unfold rule_memo. rewrite Ht.
    cbn [fst snd app]. f_equal. apply RiskFacts.risk_comment_single.
    destruct (memo row) as [[|c cs]| |]; discriminate. }
  split; [exact Hiff|]. split; [|split; [|split; [|split]]].
  - intros Hq. apply Hiff in Hq. rewrite (N5 Hq), Hq. reflexivity.
  - exact Hmemo.
  - intros Hc Hm. rewrite (Hmemo Hc) by (rewrite Hm; reflexivity).
    rewrite Hm. reflexivity.
  - intros rank Hrank. specialize (M4 rank Hrank). lia.
  - unfold risk_comment. destruct (join _ _); [vm_compute|]; discriminate.
Qed.

(** Witness of X5: a row without any signal whose memo cell is blank. *)
Lemma X5_lowest_level_iff_quiet_witness :
  determine_risk_level (mkRiskRow false 0 0 (lit "nan") NaN) = (MID, lit "nan").
Proof.
  apply (proj1 (proj2 (proj2 (proj2
           (X5_lowest_level_iff_quiet (mkRiskRow false 0 0 (lit "nan") NaN)))))).
  - repeat split; vm_compute; discriminate.
  - reflexivity.
Defined.


(** X6. [enrich_projects] drops and reorders no row: the rows of its
    table are the input rows in order. In every enriched row the value
    chain stage is not blank, the expected progress is within [0, 100], the
    progress variance is the progress less the expected progress, the
    delay is not negative, the row is flagged over budget exactly when
    the planned cost exceeds the budget cost, and the risk level is "高"
    when the row is over budget, or more than 30 points behind, or late. *)
Theorem X6_enriched_rows (clock : Clock) (df : list Row) :
  exists enriched,
    enrich_projects clock df = Ok enriched /\
    source_row <$> enriched = df /\
    Forall (fun e =>
              strip (value_chain_stage e) <> [] /\
              (0 <= expected_progress e <= 100)%Q /\
              (progress_variance e
               == progress_pct (source_row e) - expected_progress e)%Q /\
              (0 <= delay e)%Q /\
              (is_over_budget e = true <->
               (budget_cost (source_row e) < planned_cost (source_row e))%Q) /\
              (is_over_budget e = true \/ (progress_variance e < -30)%Q \/
               (0 < delay e)%Q -> risk_level e = HIGH))
      enriched.
Proof.
  unfold enrich_projects.
  destruct (TotalityFacts.enrich_rows_total (date_today clock) df) as (es & Hes & Hall).
  exists es. split; [exact Hes|]. clear Hes.
  induction Hall as [|row e rows es' He _ [IH1 IH2]].
  - split; [reflexivity | constructor].
  - destruct (EnrichFacts.enrich_row_spec _ _ _ He) as (Hsrc & Hrest).
    split.
    + rewrite fmap_cons, Hsrc, IH1. reflexivity.
    + constructor; [|exact IH2]. rewrite Hsrc. exact Hrest.
Qed.


(** X7. The major marks of [gen_time_marks] are the first days of month
    within the domain, in strictly ascending order, the first of them the
    start of the domain; every major mark has a label, the number of its
    month followed by "月"; and no major mark is a minor mark. *)
Theorem X7_major_marks (tasks : list Row) (fallback : Z * Z) :
  let marks := gen_time_marks tasks fallback in
  (forall d, d ∈ App.major_marks marks <->
     (App.domain marks).1 <= d <= (App.domain marks).2 /\ first_of_month d) /\
  Sorted Z.lt (App.major_marks marks) /\
  head (App.major_marks marks) = Some (App.domain marks).1 /\
  App.major_labels marks
  = (fun d => str_of_Z (month_of d) ++ lit "月") <$> App.major_marks marks /\
  (forall d, d ∈ App.major_marks marks -> d ∉ App.minor_marks marks).
Proof.
  intros marks. subst marks.
  rewrite AxisFacts.gen_time_marks_domain.
  destruct (MinorFacts.major_marks_index tasks fallback)
    as (a & b & Hab & Hdom & Hmajor).
  rewrite Hdom. cbn [fst snd].
  assert (forall d, d ∈ App.major_marks (gen_time_marks tasks fallback) <->
            month_start_of_index a <= d <= month_start_of_index (b + 1) - 1 /\
            first_of_month d) as Hmem.
  { intros d. rewrite Hmajor, list_elem_of_fmap. split.
    - intros (i & -> & Hi). apply elem_of_seqZ in Hi.
      split; [|apply day_of_month_start].
      pose proof (MinorFacts.index_in_domain a b i ltac:(lia)) as [H1 H2].
      pose proof (month_length_index i). lia.
    - intros [Hdom' Hfirst].
      pose proof (MinorFacts.in_domain_index a b d Hab Hdom') as Hi.
      destruct (MinorFacts.date_decompose d) as [Hd _].
      unfold first_of_month in Hfirst. rewrite Hfirst in Hd.
      exists (month_index d). split; [lia|]. apply elem_of_seqZ. lia. }
  split; [exact Hmem|]. split.
  { rewrite Hmajor. replace (b - a + 1) with (Z.of_nat (Z.to_nat (b - a + 1))) by lia.
    apply MinorFacts.months_sorted. }
  split.
  { rewrite Hmajor. rewrite seqZ_cons by lia. reflexivity. }
  split; [apply MinorFacts.gen_time_marks_major|].
  intros d Hd Hminor. apply Hmem in Hd as [_ Hfirst].
  apply MinorFacts.minor_mark_generated in Hminor as [label Hgen].
  apply MinorFacts.generated_sound in Hgen as [_ Hkind].
  unfold first_of_month in Hfirst.
  destruct Hkind as [(day & Hday & Hd & _) | [Hlast _]]; [lia|].
  unfold last_of_month in Hlast. rewrite Hfirst in Hlast.
  pose proof (ord2ymd_valid d) as [Hm _].
  pose proof (days_in_month_bounds (year_of d) (month_of d) Hm). lia.
Qed.
